(** * Boot-time, run-time and shutdown-time tracing (sys/kern/kern_boottrace.c)

    A shallow embedding of the trace tables, the slot allocator of [dotrace],
    the routing done by [boottrace], [runtrace] and [shuttrace], the renderer
    [boottrace_display], the administrative entry points, and an interleaving
    model of concurrent callers of [dotrace].

    C integers are modelled as [Z] with their wrap-around written out, the
    event slots of a table as a list indexed with stdpp's lookup and insert,
    a NULL table pointer as [None].  A division by zero or an access outside
    the allocated slots is a [Fault].  The renderer yields the lines it
    writes with their columns, not the formatted text; the printfs of
    [dotrace_debugging] are left out. *)

From Stdlib Require Import ZArith Lia String Ascii Bool.
From stdpp Require Import base numbers list.

Local Open Scope Z_scope.

(** ** Machine integers *)

Definition wrap32 (z : Z) : Z := z mod 2 ^ 32.
Definition wrap64 (z : Z) : Z := z mod 2 ^ 64.

(** The kernel's [max] of sys/libkern.h, on [u_int]. *)
Definition max (a b : Z) : Z := if a >? b then a else b.

(** ** Results of the model: a value, or a fault of the machine *)

Inductive fault : Type :=
| DivByZero      (* [x % 0] or [x / 0] *)
| BadAccess      (* NULL table, or a slot outside the allocation *)
| OutOfFuel.     (* the loop did not finish within the given fuel *)

Inductive res (A : Type) : Type :=
| Ok (a : A)
| Fault (f : fault).
Arguments Ok {A} a.
Arguments Fault {A} f.

Definition bind {A B : Type} (c : res A) (k : A -> res B) : res B :=
  match c with
  | Ok a => k a
  | Fault f => Fault f
  end.

Notation "'do' x <- c ; k" := (bind c (fun x => k))
  (at level 10, x pattern, c at level 100, k at level 200).

(** ** Constants of the file *)

Definition BT_TABLE_DEFSIZE : Z := 3000.
Definition BT_TABLE_RUNSIZE : Z := 2000.
Definition BT_TABLE_SHTSIZE : Z := 1000.
Definition BT_TABLE_MINSIZE : Z := 500.
Definition BT_EVENT_NAMELEN : nat := 40.
Definition BT_EVENT_TDNAMELEN : nat := 24.

(** Error numbers of sys/errno.h and the process flag of sys/proc.h, with the
    values these headers give them.  The proofs below only use that the three
    error numbers are distinct and different from 0. *)
Definition ENOMEM : Z := 12.
Definition EINVAL : Z := 22.
Definition ENOSPC : Z := 28.
Definition P_SYSTEM : Z := 512.

(** ** Data model *)

(** [struct bt_event] *)
Record bt_event : Type := mk_event {
  tsc : Z;          (* uint64_t, CPU TSC *)
  tick : Z;         (* uint64_t, kernel tick *)
  cpuid : Z;        (* uint32_t *)
  cputime : Z;      (* uint32_t, microseconds of process CPU time *)
  inblock : Z;      (* uint32_t *)
  oublock : Z;      (* uint32_t *)
  pid : Z;          (* pid_t *)
  name : string;    (* char[BT_EVENT_NAMELEN] *)
  tdname : string   (* char[BT_EVENT_TDNAMELEN] *)
}.

(** A slot as [M_ZERO] leaves it. *)
Definition zero_event : bt_event := mk_event 0 0 0 0 0 0 0 ""%string ""%string.

(** [struct bt]; [table] is [None] for a NULL pointer. *)
Record struct_bt : Type := mk_bt {
  bt_size : Z;          (* uint32_t size *)
  bt_curr : Z;          (* uint32_t curr *)
  bt_wrap : Z;          (* uint32_t wrap *)
  drops_early : Z;      (* uint32_t *)
  drops_full : Z;       (* uint32_t *)
  table : option (list bt_event)
}.

Definition set_curr (b : struct_bt) (c : Z) : struct_bt :=
  mk_bt (bt_size b) c (bt_wrap b) (drops_early b) (drops_full b) (table b).
Definition set_size (b : struct_bt) (n : Z) : struct_bt :=
  mk_bt n (bt_curr b) (bt_wrap b) (drops_early b) (drops_full b) (table b).
Definition set_table (b : struct_bt) (t : option (list bt_event)) : struct_bt :=
  mk_bt (bt_size b) (bt_curr b) (bt_wrap b) (drops_early b) (drops_full b) t.
Definition incr_drops_early (b : struct_bt) : struct_bt :=
  mk_bt (bt_size b) (bt_curr b) (bt_wrap b) (wrap32 (drops_early b + 1))
        (drops_full b) (table b).
Definition incr_drops_full (b : struct_bt) : struct_bt :=
  mk_bt (bt_size b) (bt_curr b) (bt_wrap b) (drops_early b)
        (wrap32 (drops_full b + 1)) (table b).

(** What a call reads from the rest of the kernel: the per-CPU data, the
    current thread and process, the clock, the kernel environment. *)
Record kctx : Type := mk_kctx {
  pcpu_cpuid : Z;             (* PCPU_GET(cpuid) *)
  cyclecount : Z;             (* get_cyclecount(), uint64_t *)
  ticks : Z;                  (* int *)
  p_pid : Z;                  (* curthread->td_proc->p_pid *)
  is_proc0 : bool;            (* curthread->td_proc == &proc0 *)
  td_critnest : Z;
  ru_utime_sec : Z; ru_utime_usec : Z;
  ru_stime_sec : Z; ru_stime_usec : Z;
  ru_inblock : Z; ru_oublock : Z;
  p_flag : Z;
  td_name : string;
  p_comm : string;
  rebooting : Z;              (* int *)
  panicstr : option string;   (* const char *, NULL unless panicking *)
  print_dotrace : bool;       (* getenv_is_true("bootarg.print_dotrace") *)
  tsc_freq : Z;               (* uint64_t, machine/clock.h *)
  shutdown_trace : Z;         (* int, set through sysctl *)
  shutdown_trace_threshold : Z  (* int, set through sysctl *)
}.

(** The three tables and the flags of the file. *)
Record kstate : Type := mk_kstate {
  bt : struct_bt;
  rt : struct_bt;
  st : struct_bt;
  bootdone : bool;
  shutdown : bool;
  dotrace_debugging : bool;
  bootarg_needs_init : bool
}.

(** [struct bt *]: which of the three tables a pointer designates. *)
Inductive bt_ptr : Type := BT | RT | ST.

Definition deref (s : kstate) (p : bt_ptr) : struct_bt :=
  match p with BT => bt s | RT => rt s | ST => st s end.

Definition assign (s : kstate) (p : bt_ptr) (b : struct_bt) : kstate :=
  match p with
  | BT => mk_kstate b (rt s) (st s) (bootdone s) (shutdown s)
                    (dotrace_debugging s) (bootarg_needs_init s)
  | RT => mk_kstate (bt s) b (st s) (bootdone s) (shutdown s)
                    (dotrace_debugging s) (bootarg_needs_init s)
  | ST => mk_kstate (bt s) (rt s) b (bootdone s) (shutdown s)
                    (dotrace_debugging s) (bootarg_needs_init s)
  end.

Definition set_bootdone (s : kstate) (v : bool) : kstate :=
  mk_kstate (bt s) (rt s) (st s) v (shutdown s)
            (dotrace_debugging s) (bootarg_needs_init s).
Definition set_shutdown (s : kstate) (v : bool) : kstate :=
  mk_kstate (bt s) (rt s) (st s) (bootdone s) v
            (dotrace_debugging s) (bootarg_needs_init s).
Definition set_debugging (s : kstate) (dbg needs : bool) : kstate :=
  mk_kstate (bt s) (rt s) (st s) (bootdone s) (shutdown s) dbg needs.

(** ** dotrace *)

(** [strlcpy(dst, src, n)]: at most [n - 1] characters are kept. *)
Definition strlcpy (src : string) (n : nat) : string :=
  substring 0 (n - 1) src.

(** [atomic_cmpset_int(dst, expect, src)] on the value of the cell: the flag
    returned and the new value of the cell. *)
Definition atomic_cmpset_int (cell expect src : Z) : bool * Z :=
  if cell =? expect then (true, src) else (false, cell).

(** [nxt = (idx + 1) % btp->size] in [uint32_t]. *)
Definition next_index (b : struct_bt) (idx : Z) : res Z :=
  if bt_size b =? 0 then Fault DivByZero
  else Ok (wrap32 (idx + 1) mod bt_size b).

(** How the loop of [dotrace] ends: the caller owns the slot [idx], or the
    table is full. *)
Inductive slot_result : Type :=
| Owned (idx : Z)
| Full.

(** The [do ... while (!atomic_cmpset_int(...))] loop of [dotrace], run by a
    single caller. *)
Fixpoint dotrace_loop (fuel : nat) (b : struct_bt) : res (slot_result * struct_bt) :=
  match fuel with
  | O => Fault OutOfFuel
  | S fuel' =>
      let idx := bt_curr b in
      do nxt <- next_index b idx;
      if (nxt =? 0) && (bt_wrap b =? 0) then Ok (Full, incr_drops_full b)
      else
        let '(ok, c) := atomic_cmpset_int (bt_curr b) idx nxt in
        if ok then Ok (Owned idx, set_curr b c)
        else dotrace_loop fuel' (set_curr b c)
  end.

(** The record that [dotrace] stores in the slot it owns: every field of the
    slot is assigned. *)
Definition dotrace_event (k : kctx) (eventname tdname : string) : bt_event :=
  let quiet := is_proc0 k || negb (td_critnest k =? 0) in
  {| cpuid := pcpu_cpuid k;
     tsc := cyclecount k;
     tick := wrap64 (ticks k);
     pid := p_pid k;
     cputime := if quiet then 0
                else wrap32 (ru_utime_sec k * 1000000 + ru_utime_usec k +
                             ru_stime_sec k * 1000000 + ru_stime_usec k);
     inblock := if quiet then 0 else wrap32 (ru_inblock k);
     oublock := if quiet then 0 else wrap32 (ru_oublock k);
     name := strlcpy eventname BT_EVENT_NAMELEN;
     tdname := strlcpy tdname BT_EVENT_TDNAMELEN |}.

(** [btp->table[idx] = e] *)
Definition store_slot (b : struct_bt) (idx : Z) (e : bt_event) : res struct_bt :=
  match table b with
  | None => Fault BadAccess
  | Some t =>
      if (0 <=? idx) && (idx <? Z.of_nat (length t))
      then Ok (set_table b (Some (<[Z.to_nat idx := e]> t)))
      else Fault BadAccess
  end.

(** The part of [dotrace] that works on the table; the cmpset of a single
    caller succeeds at its first attempt (lemma [dotrace_loop_fuel]). *)
Definition dotrace_table (b : struct_bt) (e : bt_event) : res (Z * struct_bt) :=
  match table b with
  | None => Ok (ENOSPC, incr_drops_early b)
  | Some _ =>
      do (c, b1) <- dotrace_loop 1 b;
      match c with
      | Full => Ok (ENOSPC, b1)
      | Owned idx => do b2 <- store_slot b1 idx e; Ok (0, b2)
      end
  end.

Definition default_tdname (k : kctx) : string :=
  if negb (Z.land (p_flag k) P_SYSTEM =? 0) then td_name k else p_comm k.

Definition dotrace (s : kstate) (k : kctx) (btp : bt_ptr)
    (eventname : string) (tdname : option string) : res (Z * kstate) :=
  let s1 := if bootarg_needs_init s then set_debugging s (print_dotrace k) false
            else s in
  let td := match tdname with Some n => n | None => default_tdname k end in
  do (err, b) <- dotrace_table (deref s1 btp) (dotrace_event k eventname td);
  Ok (err, assign s1 btp b).

(** ** Phase routing: boottrace, runtrace, shuttrace *)

Definition in_shutdown (s : kstate) (k : kctx) : bool :=
  shutdown s || negb (rebooting k =? 0) || bool_decide (is_Some (panicstr k)).

(** The pointer [trace] that [boottrace] hands to [dotrace]. *)
Definition boottrace_trace (s : kstate) (k : kctx) : bt_ptr :=
  let trace := BT in
  let trace := if bootdone s then RT else trace in
  let trace := if in_shutdown s k then ST else trace in
  trace.

Definition boottrace (s : kstate) (k : kctx)
    (eventname : string) (tdname : option string) : res (Z * kstate) :=
  dotrace s k (boottrace_trace s k) eventname tdname.

Definition runtrace (s : kstate) (k : kctx)
    (eventname : string) (tdname : option string) : res (Z * kstate) :=
  do (error, s1) <- boottrace s k eventname tdname;
  Ok (error, set_bootdone s1 true).

Definition shuttrace (s : kstate) (k : kctx)
    (eventname : string) (tdname : option string) : res (Z * kstate) :=
  dotrace (set_shutdown s true) k ST eventname tdname.

(** ** Reset and resize *)

(** [snprintf(tmpbuf, sizeof(tmpbuf), "reset: %s", actor)] with a buffer of
    64 bytes. *)
Definition reset_message (actor : string) : string :=
  substring 0 63 (String.append "reset: " actor).

Definition boottrace_reset (s : kstate) (k : kctx) (actor : string) : res kstate :=
  do (_, s1) <- runtrace s k (reset_message actor) None;
  Ok s1.

(** [realloc(addr, n * sizeof(struct bt_event), M_BOOTTRACE, M_WAITOK | M_ZERO)]:
    the allocator is outside this file; [ok] says whether it returned memory.
    The slots that existed keep their contents, the others are zero. *)
Definition realloc (addr : option (list bt_event)) (n : Z) (ok : bool)
    : option (list bt_event) :=
  if ok then
    let old := match addr with Some t => t | None => [] end in
    Some (take (Z.to_nat n) (old ++ replicate (Z.to_nat n) zero_event))
  else None.

Definition boottrace_resize (s : kstate) (k : kctx) (newsize : Z) (ok : bool)
    : res (Z * kstate) :=
  if newsize <=? bt_size (rt s) then Ok (EINVAL, s)
  else
    let s1 := assign s RT (set_table (rt s) (realloc (table (rt s)) newsize ok)) in
    match table (rt s1) with
    | None => Ok (ENOMEM, s1)
    | Some _ =>
        let s2 := assign s1 RT (set_size (rt s1) newsize) in
        do s3 <- boottrace_reset s2 k "boottrace_resize"%string;
        Ok (0, s3)
    end.

(** ** Initialisation *)

(** The statics of the file before [boottrace_init] has run. *)
Definition null_bt : struct_bt := mk_bt 0 0 0 0 0 None.
Definition kstate0 : kstate := mk_kstate null_bt null_bt null_bt false false false true.

(** [malloc(n * sizeof(struct bt_event), M_BOOTTRACE, M_WAITOK | M_ZERO)] *)
Definition malloc_zero (n : Z) : option (list bt_event) :=
  Some (replicate (Z.to_nat n) zero_event).

(** [tunable] is the value of the kernel environment variable
    "boottrace-table-size" when it is set. *)
Definition boottrace_init (s : kstate) (k : kctx) (tunable : option Z) : res kstate :=
  let b := set_size (bt s) BT_TABLE_DEFSIZE in
  let b := match tunable with Some v => set_size b (wrap32 v) | None => b end in
  let b := set_size b (max (bt_size b) BT_TABLE_MINSIZE) in
  let b := set_table b (malloc_zero (bt_size b)) in
  do b <- store_slot b 0
       {| cpuid := pcpu_cpuid k; tsc := 0; tick := 0; cputime := 0;
          inblock := 0; oublock := 0; pid := 0;
          tdname := strlcpy "boottime"%string BT_EVENT_TDNAMELEN;
          name := strlcpy "initial event"%string BT_EVENT_NAMELEN |};
  let b := set_curr b 1 in
  let r := mk_bt BT_TABLE_RUNSIZE (bt_curr (rt s)) 1 (drops_early (rt s))
                 (drops_full (rt s)) (malloc_zero BT_TABLE_RUNSIZE) in
  let t := set_table (set_size (st s) BT_TABLE_SHTSIZE) (malloc_zero BT_TABLE_SHTSIZE) in
  Ok (mk_kstate b r t (bootdone s) (shutdown s)
                (dotrace_debugging s) (bootarg_needs_init s)).

(** ** The renderer *)

(** What is written to the sbuf or to the console, line by line; the columns
    of a data row are the arguments that [BTC_DELTA_PRINT] formats. *)
Inductive line : Type :=
| Header
| Row (r_cpuid r_msecs r_delta : Z) (r_tdname r_name : string)
      (r_pid r_cpusec r_cpucsec r_inblock r_oublock : Z)
| Total (total_dmsecs : Z).

Definition BTC_DELTA_PRINT (bte : bt_event) (msecs delta : Z) : line :=
  Row (cpuid bte) msecs delta (tdname bte) (name bte) (pid bte)
      (cputime bte / 1000000) ((cputime bte mod 1000000) / 10000)
      (inblock bte) (oublock bte).

(** The locals of [boottrace_display] that live across iterations, with the
    lines written so far.  [last_evtp] holds the slot it points to: the table
    does not change during a walk. *)
Record walk : Type := mk_walk {
  first_msecs : Z;
  last_evtp : option bt_event;
  last_msecs : Z;
  last_dmsecs : Z;
  last_printed : bool;
  out : list line
}.

(** [evtp = &btp->table[i]] followed by a read of the slot. *)
Definition load_slot (b : struct_bt) (i : Z) : res bt_event :=
  match table b with
  | None => Fault BadAccess
  | Some t =>
      if 0 <=? i then
        match t !! Z.to_nat i with
        | Some e => Ok e
        | None => Fault BadAccess
        end
      else Fault BadAccess
  end.

(** The body of the loop for the slot [evtp], up to the label [next]. *)
Definition display_entry (dthres freq : Z) (evtp : bt_event) (w : walk) : res walk :=
  if tsc evtp =? 0 then Ok w
  else if freq =? 0 then Fault DivByZero
  else
    let msecs := wrap64 (tsc evtp * 1000) / freq in
    let dmsecs := if negb (last_msecs w =? 0) && (msecs >? last_msecs w)
                  then msecs - last_msecs w else 0 in
    let '(o, printed) :=
      if negb (dthres =? 0) && (dmsecs >? dthres) then
        let landmark :=
          match last_evtp w with
          | Some l => if negb (last_printed w)
                      then [BTC_DELTA_PRINT l (last_msecs w) (last_dmsecs w)]
                      else []
          | None => []
          end in
        (out w ++ landmark ++ [BTC_DELTA_PRINT evtp msecs dmsecs], true)
      else if dthres =? 0 then (out w ++ [BTC_DELTA_PRINT evtp msecs dmsecs], true)
      else (out w, false) in
    let first := if (first_msecs w =? 0) || (msecs <? first_msecs w)
                 then msecs else first_msecs w in
    Ok (mk_walk first (Some evtp) msecs dmsecs printed o).

(** The [do ... while (i != curr)] loop. *)
Fixpoint display_loop (fuel : nat) (dthres freq : Z) (b : struct_bt)
    (curr i : Z) (w : walk) : res walk :=
  match fuel with
  | O => Fault OutOfFuel
  | S fuel' =>
      do evtp <- load_slot b i;
      do w1 <- display_entry dthres freq evtp w;
      do i1 <- next_index b i;
      if i1 =? curr then Ok w1
      else display_loop fuel' dthres freq b curr i1 w1
  end.

Definition walk0 : walk := mk_walk 0 None 0 0 false [Header].

Definition total_dmsecs_of (w : walk) : Z :=
  if last_msecs w >? first_msecs w then last_msecs w - first_msecs w else 0.

(** [boottrace_display(sbp, btp, dthres)]: the lines written.  The loop ends
    after [size] iterations or not at all (lemma [display_loop_rotate]), so
    that is the fuel it gets (one more, for a table of size 0 to reach its
    division). *)
Definition boottrace_display (b : struct_bt) (dthres freq : Z) : res (list line) :=
  do w <- display_loop (S (Z.to_nat (bt_size b))) dthres freq b
                       (bt_curr b) (bt_curr b) walk0;
  Ok (out w ++ [Total (total_dmsecs_of w)]).

Definition boottrace_dump_console (s : kstate) (k : kctx) : res (list line) :=
  if shutdown_trace k =? 0 then Ok []
  else if in_shutdown s k then
    boottrace_display (st s) (wrap64 (shutdown_trace_threshold k)) (tsc_freq k)
  else
    do o1 <- boottrace_display (bt s) 0 (tsc_freq k);
    do o2 <- boottrace_display (rt s) 0 (tsc_freq k);
    Ok (o1 ++ o2).

(** ** The sysctl handlers *)

(** [struct sysctl_req], as far as the handlers look at it: [newptr] is the
    string a write request carries. *)
Record sysctl_req : Type := mk_req { newptr : option string }.

(** Input of the form <tdname>:<eventname>; the result is the pair
    [(eventname, tdname)]. *)
Definition boottrace_parse_message (k : kctx) (message : string) : string * string :=
  match index 0 ":" message with
  | Some n =>
      (substring (S n) (String.length message - S n) message, substring 0 n message)
  | None => (message, p_comm k)
  end.

Section Sysctl.

(** [sysctl_handle_string(oidp, message, sizeof(message), req)] belongs to
    kern_sysctl.c: from the buffer, its size and the request it gives an
    error number and the new contents of the buffer. *)
Variable sysctl_handle_string : string -> nat -> sysctl_req -> Z * string.

Definition message_size : nat := BT_EVENT_TDNAMELEN + 1 + BT_EVENT_NAMELEN.

(** The common part of the three handlers for a write request; [trace] is
    [boottrace], [runtrace] or [shuttrace]. *)
Definition sysctl_write
    (trace : kstate -> kctx -> string -> option string -> res (Z * kstate))
    (s : kstate) (k : kctx) (req : sysctl_req) : res (Z * kstate) :=
  let '(error, message) := sysctl_handle_string ""%string message_size req in
  if negb (error =? 0) then Ok (error, s)
  else
    let '(eventname, tdname) := boottrace_parse_message k message in
    do (error, s1) <- trace s k eventname (Some tdname);
    let error := if error =? ENOSPC then 0 else error in
    Ok (error, s1).

Definition sysctl_boottrace (s : kstate) (k : kctx) (req : sysctl_req)
    : res (Z * kstate * list line) :=
  match newptr req with
  | None =>
      do o1 <- boottrace_display (bt s) 0 (tsc_freq k);
      do o2 <- boottrace_display (rt s) 0 (tsc_freq k);
      Ok (0, s, o1 ++ o2)
  | Some _ =>
      do (error, s1) <- sysctl_write boottrace s k req;
      Ok (error, s1, [])
  end.

Definition sysctl_runtrace (s : kstate) (k : kctx) (req : sysctl_req)
    : res (Z * kstate * list line) :=
  match newptr req with
  | None => Ok (0, s, [])
  | Some _ =>
      do (error, s1) <- sysctl_write runtrace s k req;
      Ok (error, s1, [])
  end.

Definition sysctl_shuttrace (s : kstate) (k : kctx) (req : sysctl_req)
    : res (Z * kstate * list line) :=
  match newptr req with
  | None => Ok (0, s, [])
  | Some _ =>
      do (error, s1) <- sysctl_write shuttrace s k req;
      Ok (error, s1, [])
  end.

Definition sysctl_boottrace_reset (s : kstate) (k : kctx) (req : sysctl_req)
    : res (Z * kstate) :=
  match newptr req with
  | None => Ok (0, s)
  | Some _ =>
      do s1 <- boottrace_reset s k "sysctl_boottrace_reset"%string;
      Ok (0, s1)
  end.

End Sysctl.

(** ** Sequences of submissions into one table *)

(** A submission: the context of the call, the event name and the thread
    name, NULL when the caller leaves it to [dotrace]. *)
Definition submission : Type := kctx * string * option string.

(** The record that a successful submission leaves in its slot. *)
Definition submission_event (sub : submission) : bt_event :=
  let '(k, eventname, tdname) := sub in
  dotrace_event k eventname
    (match tdname with Some n => n | None => default_tdname k end).

(** Consecutive calls of [dotrace] on the table [btp]; the error numbers
    returned, in order, and the final state. *)
Fixpoint dotrace_all (s : kstate) (btp : bt_ptr) (subs : list submission)
    : res (list Z * kstate) :=
  match subs with
  | [] => Ok ([], s)
  | (k, eventname, tdname) :: subs' =>
      do (error, s1) <- dotrace s k btp eventname tdname;
      do (errors, s2) <- dotrace_all s1 btp subs';
      Ok (error :: errors, s2)
  end.

(** A table as [boottrace_init] and [boottrace_resize] leave it: [size]
    slots are allocated and the cursor designates one of them. *)
Definition bt_wf (b : struct_bt) (t : list bt_event) : Prop :=
  table b = Some t /\ Z.of_nat (length t) = bt_size b /\
  0 <= bt_curr b < bt_size b /\ bt_size b < 2 ^ 32.

(** The slots in the order in which [boottrace_display] walks them. *)
Definition walk_order (b : struct_bt) (t : list bt_event) : list bt_event :=
  rotate (Z.to_nat (bt_curr b)) t.

(** ** The walk of the renderer, entry by entry *)

(** The body of the loop of [boottrace_display], over the slots in the order
    in which the loop reaches them. *)
Fixpoint display_entries (dthres freq : Z) (l : list bt_event) (w : walk) : res walk :=
  match l with
  | [] => Ok w
  | evtp :: l' =>
      do w1 <- display_entry dthres freq evtp w;
      display_entries dthres freq l' w1
  end.

(** The reading of the renderer in terms of the entries it visits: the slots
    with a non-zero timestamp, each with its elapsed and delta milliseconds. *)
Definition msecs_of (freq : Z) (e : bt_event) : Z := wrap64 (tsc e * 1000) / freq.

Definition delta_of (last msecs : Z) : Z :=
  if negb (last =? 0) && (msecs >? last) then msecs - last else 0.

Record visit : Type := mk_visit { v_event : bt_event; v_msecs : Z; v_delta : Z }.

Fixpoint visited (freq last : Z) (l : list bt_event) : list visit :=
  match l with
  | [] => []
  | e :: l' =>
      if tsc e =? 0 then visited freq last l'
      else
        let m := msecs_of freq e in
        mk_visit e m (delta_of last m) :: visited freq m l'
  end.

Definition visit_line (v : visit) : line :=
  BTC_DELTA_PRINT (v_event v) (v_msecs v) (v_delta v).

(** The rows flushed for a list of visited entries; [prev] is the entry
    before them when it was visited and held back. *)
Fixpoint flush (dthres : Z) (prev : option visit) (vs : list visit) : list line :=
  match vs with
  | [] => []
  | v :: vs' =>
      if negb (dthres =? 0) && (v_delta v >? dthres) then
        match prev with
        | Some p => [visit_line p]
        | None => []
        end ++ visit_line v :: flush dthres None vs'
      else if dthres =? 0 then visit_line v :: flush dthres None vs'
      else flush dthres (Some v) vs'
  end.

(** The value of [first_msecs] after the visits [ms], from [first]. *)
Fixpoint running_first (first : Z) (ms : list Z) : Z :=
  match ms with
  | [] => first
  | m :: ms' =>
      running_first (if (first =? 0) || (m <? first) then m else first) ms'
  end.

(** The footer, from the elapsed milliseconds of the visited entries. *)
Definition total_of (ms : list Z) : Z :=
  let l := default 0 (last ms) in
  let f := running_first 0 ms in
  if l >? f then l - f else 0.

(** The entry before the walk reaches its next slot, when one was visited
    and not printed. *)
Definition held_back (w : walk) : option visit :=
  match last_evtp w with
  | Some l => if negb (last_printed w)
              then Some (mk_visit l (last_msecs w) (last_dmsecs w))
              else None
  | None => None
  end.

(** The data rows among the lines written, and their delta column. *)
Definition row_delta (l : line) : option Z :=
  match l with
  | Row _ _ d _ _ _ _ _ _ _ => Some d
  | _ => None
  end.

Definition row_deltas (o : list line) : list Z := omap row_delta o.

(** ** Histories of calls *)

(** The calls that change the state of the file; [Resize] carries the answer
    of the allocator. *)
Inductive op : Type :=
| Boottrace (k : kctx) (eventname : string) (tdname : option string)
| Runtrace (k : kctx) (eventname : string) (tdname : option string)
| Shuttrace (k : kctx) (eventname : string) (tdname : option string)
| Reset (k : kctx) (actor : string)
| Resize (k : kctx) (newsize : Z) (ok : bool).

Definition step (s : kstate) (o : op) : res kstate :=
  match o with
  | Boottrace k e td => do (_, s1) <- boottrace s k e td; Ok s1
  | Runtrace k e td => do (_, s1) <- runtrace s k e td; Ok s1
  | Shuttrace k e td => do (_, s1) <- shuttrace s k e td; Ok s1
  | Reset k actor => boottrace_reset s k actor
  | Resize k n ok => do (_, s1) <- boottrace_resize s k n ok; Ok s1
  end.

Fixpoint run (s : kstate) (ops : list op) : res kstate :=
  match ops with
  | [] => Ok s
  | o :: ops' => do s1 <- step s o; run s1 ops'
  end.

(** A new size that fits the [uint32_t] parameter of [boottrace_resize]. *)
Definition op_ok (o : op) : Prop :=
  match o with
  | Resize _ n _ => 0 <= n < 2 ^ 32
  | _ => True
  end.

(** Each table is NULL, with a cursor that a larger allocation will cover,
    or in good shape. *)
Definition table_ok (b : struct_bt) : Prop :=
  (table b = None /\ 0 <= bt_curr b <= bt_size b) \/ exists t, bt_wf b t.

Definition state_ok (s : kstate) : Prop :=
  table_ok (bt s) /\ table_ok (rt s) /\ table_ok (st s).

(** ** Concurrent callers of dotrace *)

(** Where a caller stands in [dotrace]; [todo] counts the calls it has yet
    to finish, the one in progress included. *)
Inductive pc : Type :=
| AtEntry (todo : nat)              (* before [if (btp->table == NULL)] *)
| AtLoop (todo : nat)               (* before [idx = btp->curr] *)
| AtCmpset (todo : nat) (idx : Z)   (* [idx] and [nxt] in hand, before the cmpset *)
| AtFill (todo : nat) (idx : Z).    (* the cmpset succeeded: writing [table[idx]] *)

Definition todo_of (p : pc) : nat :=
  match p with
  | AtEntry n | AtLoop n | AtCmpset n _ | AtFill n _ => n
  end.

(** What a step of a caller shows to an observer. *)
Inductive label : Type :=
| Alloc (tid : nat) (idx : Z)       (* the cmpset gave slot [idx] to caller [tid] *)
| Drop (tid : nat)                  (* the call returned ENOSPC *)
| Quiet.

(** One step of a caller on the shared table: a read of shared memory with
    the local computation that follows it, the cmpset, or the writes into
    the slot that the caller owns.  [e] is the record the caller writes, as
    [dotrace_event] computes it from the caller's own context.  A caller with
    no call left takes no step. *)
Definition thread_step (e : bt_event) (tid : nat) (b : struct_bt) (p : pc)
    : option (res (struct_bt * pc * label)) :=
  match p with
  | AtEntry O => None
  | AtEntry (S n) =>
      Some (match table b with
            | None => Ok (incr_drops_early b, AtEntry n, Drop tid)
            | Some _ => Ok (b, AtLoop (S n), Quiet)
            end)
  | AtLoop todo =>
      Some (let idx := bt_curr b in
            do nxt <- next_index b idx;
            if (nxt =? 0) && (bt_wrap b =? 0)
            then Ok (incr_drops_full b, AtEntry (todo - 1), Drop tid)
            else Ok (b, AtCmpset todo idx, Quiet))
  | AtCmpset todo idx =>
      Some (do nxt <- next_index b idx;
            let '(ok, c) := atomic_cmpset_int (bt_curr b) idx nxt in
            if ok then Ok (set_curr b c, AtFill todo idx, Alloc tid idx)
            else Ok (set_curr b c, AtLoop todo, Quiet))
  | AtFill todo idx =>
      Some (do b' <- store_slot b idx e;
            Ok (b', AtEntry (todo - 1), Quiet))
  end.

(** The shared table and the callers. *)
Definition config : Type := struct_bt * list pc.

(** Any caller may take the next step; [ev tid todo] is the record that
    caller [tid] writes in the call it makes with [todo] calls left. *)
Inductive cstep (ev : nat -> nat -> bt_event) : config -> label -> config -> Prop :=
| cstep_thread b ts tid p b' p' l :
    ts !! tid = Some p ->
    thread_step (ev tid (todo_of p)) tid b p = Some (Ok (b', p', l)) ->
    cstep ev (b, ts) l (b', <[tid := p']> ts).

Inductive cexec (ev : nat -> nat -> bt_event) : config -> list label -> config -> Prop :=
| cexec_nil c : cexec ev c [] c
| cexec_snoc c tr c1 l c2 :
    cexec ev c tr c1 -> cstep ev c1 l c2 -> cexec ev c (tr ++ [l]) c2.

(** The same, for a given order of the steps. *)
Fixpoint run_schedule (ev : nat -> nat -> bt_event) (sched : list nat) (c : config)
    : option (list label * config) :=
  match sched with
  | [] => Some ([], c)
  | tid :: sched' =>
      match c.2 !! tid with
      | Some p =>
          match thread_step (ev tid (todo_of p)) tid c.1 p with
          | Some (Ok (b', p', l)) =>
              match run_schedule ev sched' (b', <[tid := p']> c.2) with
              | Some (tr, c') => Some (l :: tr, c')
              | None => None
              end
          | _ => None
          end
      | None => None
      end
  end.

Definition alloc_idx (l : label) : option Z :=
  match l with Alloc _ idx => Some idx | _ => None end.

Definition is_drop (l : label) : bool :=
  match l with Drop _ => true | _ => false end.

(** The slot indices handed out along a trace, in order. *)
Definition alloc_idxs (tr : list label) : list Z := omap alloc_idx tr.

(** The first [n] indices that a cursor starting at [c0] hands out on a
    table of [C] slots that wraps. *)
Definition cursor_seq (c0 C : Z) (n : nat) : list Z :=
  (fun j : nat => (c0 + Z.of_nat j) mod C) <$> seq 0 n.

Definition finished (p : pc) : Prop := p = AtEntry 0.

(** The allocations that a caller has yet to win. *)
Definition remaining (p : pc) : nat :=
  match p with
  | AtEntry n | AtLoop n | AtCmpset n _ => n
  | AtFill n _ => n - 1
  end.

(** Where a caller can be, on a table of [C] slots. *)
Definition pc_ok (C : Z) (p : pc) : Prop :=
  match p with
  | AtEntry _ => True
  | AtLoop n => (1 <= n)%nat
  | AtCmpset n idx | AtFill n idx => (1 <= n)%nat /\ 0 <= idx < C
  end.

(** What holds of every configuration that [T] callers with [K] calls each
    reach from the table [b0], and of the trace that leads to it. *)
Definition alloc_inv (b0 : struct_bt) (T K : nat) (c : config) (tr : list label)
    : Prop :=
  let n := length (alloc_idxs tr) in
  (exists t, bt_wf c.1 t) /\
  bt_size c.1 = bt_size b0 /\
  bt_wrap c.1 = bt_wrap b0 /\
  bt_curr c.1 = (bt_curr b0 + Z.of_nat n) mod bt_size b0 /\
  alloc_idxs tr = cursor_seq (bt_curr b0) (bt_size b0) n /\
  Forall (fun l => is_drop l = false) tr /\
  length c.2 = T /\
  (sum_list (remaining <$> c.2) + n = T * K)%nat /\
  Forall (pc_ok (bt_size b0)) c.2 /\
  (forall tid todo idx, c.2 !! tid = Some (AtFill todo idx) -> Alloc tid idx ∈ tr).

(** How far a caller is from the end of its current attempt; a caller whose
    [idx] is no longer the cursor has a failed cmpset and one more turn of the
    loop before it. *)
Definition rank (b : struct_bt) (p : pc) : nat :=
  match p with
  | AtEntry O => 0
  | AtEntry (S _) => 3
  | AtLoop _ => 2
  | AtCmpset _ idx => if bt_curr b =? idx then 1 else 3
  | AtFill _ _ => 4
  end.

(** A bound on the number of steps that a configuration has left. *)
Definition steps_left (c : config) : nat :=
  sum_list (remaining <$> c.2) * (4 * length c.2 + 1) + sum_list (rank c.1 <$> c.2).

(** ** States and tables used as examples *)

Definition k_example (cycles : Z) : kctx :=
  mk_kctx 2 cycles 7 41 false 0 1 500 0 250 3 4 0 "worker" "sh" 0 None false
          1000 0 0.

Definition subs_example : list submission :=
  [(k_example 10, "a"%string, None); (k_example 20, "b"%string, Some "x"%string);
   (k_example 30, "c"%string, None); (k_example 40, "d"%string, None)].

(** A run table of three slots with its cursor at 1. *)
Definition ring_example : kstate :=
  mk_kstate null_bt (mk_bt 3 1 1 0 0 (malloc_zero 3)) null_bt true false false false.

(** A shutdown table of three slots that does not wrap. *)
Definition stop_example : kstate :=
  mk_kstate null_bt null_bt (mk_bt 3 0 0 0 0 (malloc_zero 3)) false false false false.

Definition event_at (cycles : Z) : bt_event :=
  mk_event cycles 0 0 0 0 0 0 "n" "t".

(** Five records, 10, 15, 65, 67 and 167 ms after the start of the clock at
    1000 cycles per second, and one slot that was never written. *)
Definition five_events : struct_bt :=
  mk_bt 6 5 0 0 0
        (Some [event_at 10; event_at 15; event_at 65; event_at 67; event_at 167;
               zero_event]).


(** The entry that [boottrace_init] puts into slot 0 of the boot table. *)
Definition initial_event (k : kctx) : bt_event :=
  mk_event 0 0 (pcpu_cpuid k) 0 0 0 0 "initial event" "boottime".


(** Three small tables before the first run-time event; the boot table has
    its cursor at the last slot. *)
Definition full_boot_state : kstate :=
  mk_kstate (mk_bt 3 2 0 0 0 (malloc_zero 3)) (mk_bt 3 0 1 0 0 (malloc_zero 3))
            (mk_bt 3 0 0 0 0 (malloc_zero 3)) false false false false.

(** Three small tables in the run phase; the run table has its cursor at 2. *)
Definition running_state : kstate :=
  mk_kstate (mk_bt 3 2 0 0 0 (malloc_zero 3)) (mk_bt 3 2 1 0 0 (malloc_zero 3))
            (mk_bt 3 0 0 0 0 (malloc_zero 3)) true false false false.

(** A stand-in for [sysctl_handle_string] in examples: the new string is
    taken when it fits the buffer with its terminator, else EINVAL. *)
Definition handle_string_example (buf : string) (size : nat) (req : sysctl_req)
    : Z * string :=
  match newptr req with
  | Some m => if (String.length m <? size)%nat then (0, m) else (EINVAL, buf)
  | None => (0, buf)
  end.

(** The records of the concurrent examples: caller [tid] stamps the call it
    makes with [todo] calls left. *)
Definition ev_example (tid todo : nat) : bt_event :=
  event_at (Z.of_nat (10 * tid + todo)).

(** Consecutive calls of [boottrace]; the error numbers returned, in order,
    and the final state. *)
Fixpoint boottrace_all (s : kstate) (subs : list submission) : res (list Z * kstate) :=
  match subs with
  | [] => Ok ([], s)
  | (k, eventname, tdname) :: subs' =>
      do (error, s1) <- boottrace s k eventname tdname;
      do (errors, s2) <- boottrace_all s1 subs';
      Ok (error :: errors, s2)
  end.

(** A context in which the system is neither rebooting nor panicking. *)
Definition calm (k : kctx) : Prop := rebooting k = 0 /\ panicstr k = None.

(** Whether the character [c] occurs in [s]. *)
Fixpoint has_char (c : ascii) (s : string) : bool :=
  match s with
  | EmptyString => false
  | String a s' => Ascii.eqb a c || has_char c s'
  end.

(** The columns of a row that count milliseconds. *)
Definition row_in_range (bound : Z) (l : line) : Prop :=
  match l with
  | Row _ msecs delta _ _ _ _ _ _ _ => 0 <= delta <= msecs /\ msecs <= bound
  | _ => False
  end.

(** The calls that a trace shows as dropped. *)
Definition drop_count (tr : list label) : nat :=
  sum_list ((fun l => if is_drop l then 1%nat else 0%nat) <$> tr).

(** Where a caller can be on a table of [C] slots that stops: an index in
    hand has passed the test for the last slot. *)
Definition pc_inner (C : Z) (p : pc) : Prop :=
  match p with
  | AtEntry _ => True
  | AtLoop n => (1 <= n)%nat
  | AtCmpset n idx | AtFill n idx => (1 <= n)%nat /\ 0 <= idx /\ idx + 1 < C
  end.

(** What holds of every configuration that callers with [calls] calls to
    make reach from the table [b0] that stops, and of the trace that leads
    to it. *)
Definition stop_inv (b0 : struct_bt) (calls : list nat) (c : config)
    (tr : list label) : Prop :=
  let n := length (alloc_idxs tr) in
  (exists t, bt_wf c.1 t) /\
  bt_size c.1 = bt_size b0 /\
  bt_wrap c.1 = 0 /\
  bt_curr c.1 = bt_curr b0 + Z.of_nat n /\
  alloc_idxs tr = (fun j : nat => bt_curr b0 + Z.of_nat j) <$> seq 0 n /\
  ((0 < drop_count tr)%nat -> bt_curr c.1 + 1 = bt_size b0) /\
  (sum_list (remaining <$> c.2) + n + drop_count tr = sum_list calls)%nat /\
  Forall (pc_inner (bt_size b0)) c.2 /\
  (forall tid todo idx, c.2 !! tid = Some (AtFill todo idx) -> Alloc tid idx ∈ tr).

(** All three tables have their storage. *)
Definition live (s : kstate) : Prop := forall p, exists t, bt_wf (deref s p) t.

(** A call whose allocation, if it makes one, succeeds. *)
Definition op_alloc_ok (o : op) : Prop :=
  match o with
  | Resize _ n ok => ok = true /\ 0 <= n < 2 ^ 32
  | _ => True
  end.

(** * Properties *)

(** ** Pointers to tables *)

Lemma deref_assign_eq s p b : deref (assign s p b) p = b.
Proof. by destruct p. Qed.

Lemma deref_assign_ne s p q b : p <> q -> deref (assign s p b) q = deref s q.
Proof. by destruct p, q. Qed.

Lemma deref_set_debugging s d n p : deref (set_debugging s d n) p = deref s p.
Proof. by destruct p. Qed.

Lemma assign_assign s p b1 b2 : assign (assign s p b1) p b2 = assign s p b2.
Proof. by destruct p. Qed.

(** ** The slot allocator, for a single caller *)

Lemma wrap32_small z : 0 <= z < 2 ^ 32 -> wrap32 z = z.
Proof. intros. unfold wrap32. by apply Z.mod_small. Qed.

Lemma atomic_cmpset_int_same c n : atomic_cmpset_int c c n = (true, n).
Proof. unfold atomic_cmpset_int. by rewrite Z.eqb_refl. Qed.

(** The cmpset of a single caller never fails: one turn of the loop is all
    the loop ever takes, whatever fuel it is given. *)
Lemma dotrace_loop_fuel n b : dotrace_loop (S n) b = dotrace_loop 1 b.
Proof.
  simpl. destruct (next_index b (bt_curr b)) as [nxt|f]; simpl; [|done].
  destruct ((nxt =? 0) && (bt_wrap b =? 0)); [done|].
  by rewrite atomic_cmpset_int_same.
Qed.

Lemma dotrace_loop_not_out_of_fuel n b :
  dotrace_loop (S n) b <> Fault OutOfFuel.
Proof.
  rewrite dotrace_loop_fuel. simpl. unfold next_index.
  destruct (bt_size b =? 0); simpl; [done|].
  destruct ((_ =? 0) && (bt_wrap b =? 0)); [done|].
  by rewrite atomic_cmpset_int_same.
Qed.

Lemma next_index_wf b t :
  bt_wf b t ->
  next_index b (bt_curr b) = Ok ((bt_curr b + 1) mod bt_size b).
Proof.
  intros (_ & _ & Hc & Hs). unfold next_index.
  destruct (Z.eqb_spec (bt_size b) 0); [lia|].
  rewrite wrap32_small by lia. done.
Qed.

(** A submission that finds a free slot. *)
Lemma dotrace_table_owned b t e :
  bt_wf b t ->
  bt_wrap b <> 0 \/ bt_curr b + 1 < bt_size b ->
  dotrace_table b e =
    Ok (0, mk_bt (bt_size b) ((bt_curr b + 1) mod bt_size b) (bt_wrap b)
                 (drops_early b) (drops_full b)
                 (Some (<[Z.to_nat (bt_curr b) := e]> t))).
Proof.
  intros Hwf Hfree. pose proof Hwf as (Ht & Hl & Hc & Hs).
  unfold dotrace_table. rewrite Ht. simpl dotrace_loop.
  rewrite (next_index_wf b t Hwf). simpl.
  assert (((bt_curr b + 1) mod bt_size b =? 0) && (bt_wrap b =? 0) = false) as ->.
  { apply andb_false_iff. destruct Hfree as [Hw|Hlt].
    - right. by apply Z.eqb_neq.
    - left. apply Z.eqb_neq. rewrite Z.mod_small; lia. }
  rewrite atomic_cmpset_int_same. simpl.
  unfold store_slot. simpl. rewrite Ht.
  destruct (Z.leb_spec 0 (bt_curr b)); [|lia].
  destruct (Z.ltb_spec (bt_curr b) (Z.of_nat (length t))); [|lia].
  done.
Qed.

(** A submission into a table that does not wrap and whose cursor is at the
    last slot. *)
Lemma dotrace_table_full b t e :
  bt_wf b t ->
  bt_wrap b = 0 -> bt_curr b + 1 = bt_size b ->
  dotrace_table b e = Ok (ENOSPC, incr_drops_full b).
Proof.
  intros Hwf Hw Hlast. pose proof Hwf as (Ht & Hl & Hc & Hs).
  unfold dotrace_table. rewrite Ht. simpl dotrace_loop.
  rewrite (next_index_wf b t Hwf). simpl.
  rewrite Hlast, Z.mod_same, Hw by lia. done.
Qed.

Lemma bt_wf_owned b t e :
  bt_wf b t ->
  bt_wf (mk_bt (bt_size b) ((bt_curr b + 1) mod bt_size b) (bt_wrap b)
               (drops_early b) (drops_full b)
               (Some (<[Z.to_nat (bt_curr b) := e]> t)))
        (<[Z.to_nat (bt_curr b) := e]> t).
Proof.
  intros (Ht & Hl & Hc & Hs). repeat split; simpl; try lia.
  - by rewrite length_insert.
  - apply Z.mod_pos_bound; lia.
  - apply Z.mod_pos_bound; lia.
Qed.

(** Writing at the cursor and advancing it drops the oldest slot of the walk
    and appends the new record. *)
Lemma rotate_insert_advance (t : list bt_event) (c : nat) e :
  (c < length t)%nat ->
  rotate ((c + 1) mod length t) (<[c := e]> t) = drop 1 (rotate c t) ++ [e].
Proof.
  intros Hc. destruct (lookup_lt_is_Some_2 t c Hc) as [x Hx].
  pose proof (take_drop_middle t c x Hx) as Ht.
  assert (length (take c t) = c) as Hl1 by (rewrite length_take; lia).
  revert Ht Hl1. generalize (take c t) (drop (S c) t). intros l1 l2 <- <-.
  clear Hc Hx.
  rewrite insert_app_r_alt, Nat.sub_diag by lia. simpl.
  unfold rotate at 2.
  rewrite (Nat.mod_small (length l1)) by (rewrite length_app; simpl; lia).
  rewrite drop_app_length, take_app_length. simpl.
  unfold rotate. rewrite !length_app. simpl.
  destruct l2 as [|y l2]; simpl.
  - rewrite Nat.Div0.mod_same, Nat.Div0.mod_0_l.
    by rewrite drop_0, take_0, app_nil_r.
  - rewrite Nat.Div0.mod_mod.
    rewrite (Nat.mod_small (length l1 + 1)) by lia.
    replace (l1 ++ e :: y :: l2) with ((l1 ++ [e]) ++ y :: l2)
      by (by rewrite <- app_assoc).
    rewrite drop_app_length', take_app_length' by (rewrite length_app; simpl; lia).
    by rewrite <- app_assoc.
Qed.

(** ** dotrace on the state of the file *)

Lemma dotrace_owned s k btp eventname tdname t :
  bt_wf (deref s btp) t ->
  bt_wrap (deref s btp) <> 0 \/ bt_curr (deref s btp) + 1 < bt_size (deref s btp) ->
  exists s',
    dotrace s k btp eventname tdname = Ok (0, s') /\
    deref s' btp =
      (let b := deref s btp in
       mk_bt (bt_size b) ((bt_curr b + 1) mod bt_size b) (bt_wrap b)
             (drops_early b) (drops_full b)
             (Some (<[Z.to_nat (bt_curr b) :=
                        submission_event (k, eventname, tdname)]> t))) /\
    (forall q, q <> btp -> deref s' q = deref s q) /\
    bootdone s' = bootdone s /\ shutdown s' = shutdown s.
Proof.
  intros Hwf Hfree. unfold dotrace.
  set (s1 := if bootarg_needs_init s then _ else s).
  assert (forall q, deref s1 q = deref s q) as Hs1.
  { intros q. subst s1. destruct (bootarg_needs_init s); [|done].
    apply deref_set_debugging. }
  assert (bootdone s1 = bootdone s /\ shutdown s1 = shutdown s) as [Hb Hd].
  { subst s1. by destruct (bootarg_needs_init s). }
  rewrite Hs1.
  rewrite (dotrace_table_owned _ t _ Hwf Hfree). simpl.
  eexists. split; [done|]. split; [apply deref_assign_eq|].
  split; [|by destruct btp].
  intros q Hq. rewrite deref_assign_ne by done. apply Hs1.
Qed.

Lemma dotrace_full s k btp eventname tdname t :
  bt_wf (deref s btp) t ->
  bt_wrap (deref s btp) = 0 ->
  bt_curr (deref s btp) + 1 = bt_size (deref s btp) ->
  exists s',
    dotrace s k btp eventname tdname = Ok (ENOSPC, s') /\
    deref s' btp = incr_drops_full (deref s btp) /\
    (forall q, q <> btp -> deref s' q = deref s q) /\
    bootdone s' = bootdone s /\ shutdown s' = shutdown s.
Proof.
  intros Hwf Hw Hlast. unfold dotrace.
  set (s1 := if bootarg_needs_init s then _ else s).
  assert (forall q, deref s1 q = deref s q) as Hs1.
  { intros q. subst s1. destruct (bootarg_needs_init s); [|done].
    apply deref_set_debugging. }
  assert (bootdone s1 = bootdone s /\ shutdown s1 = shutdown s) as [Hb Hd].
  { subst s1. by destruct (bootarg_needs_init s). }
  rewrite Hs1.
  rewrite (dotrace_table_full _ t _ Hwf Hw Hlast). simpl.
  eexists. split; [done|]. split; [apply deref_assign_eq|].
  split; [|by destruct btp].
  intros q Hq. rewrite deref_assign_ne by done. apply Hs1.
Qed.

(** Consecutive submissions that all find a free slot: the table wraps, or
    the cursor stays below the last slot.  The walk from the cursor loses
    one old slot and gains one new record with each of them. *)
Lemma dotrace_all_owned btp subs : forall s t,
  bt_wf (deref s btp) t ->
  bt_wrap (deref s btp) <> 0 \/
    bt_curr (deref s btp) + Z.of_nat (length subs) < bt_size (deref s btp) ->
  exists s' t',
    dotrace_all s btp subs = Ok (replicate (length subs) 0, s') /\
    bt_wf (deref s' btp) t' /\
    bt_size (deref s' btp) = bt_size (deref s btp) /\
    bt_wrap (deref s' btp) = bt_wrap (deref s btp) /\
    drops_early (deref s' btp) = drops_early (deref s btp) /\
    drops_full (deref s' btp) = drops_full (deref s btp) /\
    bt_curr (deref s' btp) =
      (bt_curr (deref s btp) + Z.of_nat (length subs)) mod bt_size (deref s btp) /\
    walk_order (deref s' btp) t' =
      drop (length subs) (walk_order (deref s btp) t ++ (submission_event <$> subs)) /\
    (forall q, q <> btp -> deref s' q = deref s q).
Proof.
  induction subs as [|[[k eventname] tdname] subs IH]; intros s t Hwf Hfree.
  - exists s, t. simpl. pose proof Hwf as (_ & _ & Hc & _).
    rewrite Z.add_0_r, Z.mod_small, app_nil_r by lia. done.
  - pose proof Hwf as (Ht & Hl & Hc & Hs).
    destruct (dotrace_owned s k btp eventname tdname t Hwf)
      as (s1 & Hrun & Hb1 & Hoth1 & _).
    { destruct Hfree as [?|Hlt]; [by left|right].
      rewrite length_cons in Hlt. lia. }
    set (e := submission_event (k, eventname, tdname)) in *.
    pose proof (bt_wf_owned _ _ e Hwf) as Hwf1.
    simpl in Hb1. rewrite <- Hb1 in Hwf1.
    destruct (IH s1 _ Hwf1) as (s' & t' & Hrun' & Hwf' & Hsz & Hwr & Hde & Hdf & Hcu & Hwo & Hoth).
    { rewrite Hb1. simpl. destruct Hfree as [?|Hlt]; [by left|right].
      rewrite length_cons in Hlt. rewrite Z.mod_small; lia. }
    exists s', t'. simpl dotrace_all. rewrite Hrun. simpl. rewrite Hrun'. simpl.
    split; [done|]. split; [done|].
    rewrite Hsz, Hwr, Hde, Hdf, Hcu, Hwo, Hb1. simpl.
    repeat split.
    + rewrite Zplus_mod_idemp_l. f_equal. lia.
    + unfold walk_order. simpl.
      replace (Z.to_nat ((bt_curr (deref s btp) + 1) mod bt_size (deref s btp)))
        with ((Z.to_nat (bt_curr (deref s btp)) + 1) mod length t)%nat.
      2:{ apply Nat2Z.inj. rewrite Z2Nat.id by (apply Z.mod_pos_bound; lia).
          rewrite Nat2Z.inj_mod, Nat2Z.inj_add, Z2Nat.id, Hl by lia. done. }
      rewrite rotate_insert_advance by lia.
      rewrite <- app_assoc. simpl.
      change (S (length subs)) with (1 + length subs)%nat.
      rewrite <- drop_drop.
      rewrite (drop_app_le _ _ 1) by (rewrite length_rotate; lia). done.
    + intros q Hq. rewrite Hoth, Hoth1; done.
Qed.

(** ** Tables that wrap *)

(** C8. On a table that wraps, with capacity C, more than C consecutive
    submissions all return 0, and afterwards the walk from the cursor (the
    oldest slot first) reads exactly the records of the C most recent
    submissions, in the order in which they were made. *)
Theorem dotrace_wrap_retains_latest s btp t subs :
  bt_wf (deref s btp) t ->
  bt_wrap (deref s btp) <> 0 ->
  bt_size (deref s btp) < Z.of_nat (length subs) ->
  exists s' t',
    dotrace_all s btp subs = Ok (replicate (length subs) 0, s') /\
    bt_wf (deref s' btp) t' /\
    bt_size (deref s' btp) = bt_size (deref s btp) /\
    walk_order (deref s' btp) t' =
      drop (length subs - length t) (submission_event <$> subs) /\
    length (walk_order (deref s' btp) t') = length t.
Proof.
  intros Hwf Hwrap Hlen. pose proof Hwf as (Ht & Hl & Hc & Hs).
  destruct (dotrace_all_owned btp subs s t Hwf (or_introl Hwrap))
    as (s' & t' & Hrun & Hwf' & Hsz & _ & _ & _ & _ & Hwo & _).
  exists s', t'. split; [done|]. split; [done|]. split; [done|]. split.
  - rewrite Hwo. rewrite drop_app_ge by (unfold walk_order; rewrite length_rotate; lia).
    unfold walk_order. by rewrite length_rotate.
  - unfold walk_order. rewrite length_rotate.
    destruct Hwf' as (_ & Hl' & _). lia.
Qed.

Lemma dotrace_wrap_retains_latest_witness :
  exists s' t',
    dotrace_all ring_example RT subs_example = Ok (replicate 4 0, s') /\
    bt_wf (deref s' RT) t' /\
    bt_size (deref s' RT) = 3 /\
    walk_order (deref s' RT) t' = drop 1 (submission_event <$> subs_example) /\
    length (walk_order (deref s' RT) t') = 3%nat.
Proof.
  apply (dotrace_wrap_retains_latest ring_example RT
           (replicate 3 zero_event) subs_example).
  - repeat split; simpl; lia.
  - simpl. lia.
  - simpl. lia.
Defined.

(** ** Tables that stop *)

(** A table of capacity 3 that does not wrap takes two records; the third
    submission is dropped. *)
Lemma dotrace_stop_third_dropped :
  (exists s', dotrace_all stop_example ST (take 3 subs_example) =
                Ok ([0; 0; ENOSPC], s')) /\
  ~ (exists s', dotrace_all stop_example ST (take 3 subs_example) =
                  Ok ([0; 0; 0], s')).
Proof.
  split.
  - eexists. vm_compute. reflexivity.
  - intros [s' H]. vm_compute in H. discriminate H.
Qed.

(** C1, as the code has it.  On a table that does not wrap, with capacity
    C >= 1 and the cursor at 0, C - 1 consecutive submissions return 0 and
    fill the slots 0 .. C - 2; the next submission returns ENOSPC, leaves the
    slots and the cursor as they are and counts one more drop.  The slot
    C - 1 is never written. *)
Theorem dotrace_stop_fills_all_but_one s btp t subs k eventname tdname :
  bt_wf (deref s btp) t ->
  bt_wrap (deref s btp) = 0 ->
  bt_curr (deref s btp) = 0 ->
  Z.of_nat (length subs) = bt_size (deref s btp) - 1 ->
  exists s1 t1 s2,
    dotrace_all s btp subs = Ok (replicate (length subs) 0, s1) /\
    table (deref s1 btp) = Some t1 /\
    t1 = (submission_event <$> subs) ++ drop (length subs) t /\
    dotrace s1 k btp eventname tdname = Ok (ENOSPC, s2) /\
    table (deref s2 btp) = Some t1 /\
    bt_curr (deref s2 btp) = bt_curr (deref s1 btp) /\
    drops_full (deref s2 btp) = wrap32 (drops_full (deref s1 btp) + 1).
Proof.
  intros Hwf Hwrap Hcur Hlen. pose proof Hwf as (Ht & Hl & Hc & Hs).
  destruct (dotrace_all_owned btp subs s t Hwf)
    as (s1 & t1 & Hrun & Hwf1 & Hsz & Hwr & _ & _ & Hcu & Hwo & _); [right; lia|].
  pose proof Hwf1 as (Ht1 & Hl1 & Hc1 & _).
  rewrite Hcur, Z.add_0_l, Z.mod_small in Hcu by lia.
  destruct (dotrace_full s1 k btp eventname tdname t1 Hwf1)
    as (s2 & Hrun2 & Hb2 & _); [congruence|lia|].
  exists s1, t1, s2. split; [done|]. split; [done|]. split; [|by rewrite Hb2].
  - unfold walk_order in Hwo. rewrite Hcu, Hcur, Nat2Z.id in Hwo.
    simpl in Hwo. unfold rotate in Hwo.
    rewrite Nat.mod_small, Nat.Div0.mod_0_l, drop_0, take_0, app_nil_r in Hwo by lia.
    rewrite drop_app_le in Hwo by lia.
    apply app_inj_1 in Hwo as [Hd Htk]; [|rewrite !length_drop; lia].
    rewrite <- (take_drop (length subs) t1). by rewrite Hd, Htk.
Qed.

Lemma dotrace_stop_fills_all_but_one_witness :
  exists s1 t1 s2,
    dotrace_all stop_example ST (take 2 subs_example) = Ok (replicate 2 0, s1) /\
    table (deref s1 ST) = Some t1 /\
    t1 = (submission_event <$> take 2 subs_example) ++ drop 2 (replicate 3 zero_event) /\
    dotrace s1 (k_example 30) ST "c" None = Ok (ENOSPC, s2) /\
    table (deref s2 ST) = Some t1 /\
    bt_curr (deref s2 ST) = bt_curr (deref s1 ST) /\
    drops_full (deref s2 ST) = wrap32 (drops_full (deref s1 ST) + 1).
Proof.
  apply (dotrace_stop_fills_all_but_one stop_example
           ST (replicate 3 zero_event) (take 2 subs_example)).
  - repeat split; simpl; lia.
  - reflexivity.
  - reflexivity.
  - simpl. lia.
Defined.

(** ** The loop of the renderer *)

Lemma lookup_walk_order b t (m : nat) :
  bt_wf b t -> (m < length t)%nat ->
  walk_order b t !! m = t !! Z.to_nat ((bt_curr b + Z.of_nat m) mod bt_size b).
Proof.
  intros (Ht & Hl & Hc & Hs) Hm. unfold walk_order.
  rewrite lookup_rotate_r by done. f_equal. unfold rotate_nat_add.
  rewrite Z2Nat.id, Hl by lia. done.
Qed.

Lemma display_loop_rotate dthres freq b t :
  bt_wf b t ->
  forall (n m extra : nat) w,
    (m + n = length t)%nat -> (1 <= n)%nat ->
    display_loop (n + extra) dthres freq b (bt_curr b)
                 ((bt_curr b + Z.of_nat m) mod bt_size b) w =
    display_entries dthres freq (drop m (walk_order b t)) w.
Proof.
  intros Hwf. pose proof Hwf as (Ht & Hl & Hc & Hs).
  induction n as [|n IH]; intros m extra w Hmn Hn; [lia|].
  assert (m < length t)%nat as Hm by lia.
  destruct (lookup_lt_is_Some_2 (walk_order b t) m) as [e He].
  { unfold walk_order. by rewrite length_rotate. }
  rewrite (drop_S _ e m He). simpl.
  pose proof (Z.mod_pos_bound (bt_curr b + Z.of_nat m) (bt_size b)) as Hi.
  unfold load_slot. rewrite Ht.
  destruct (Z.leb_spec 0 ((bt_curr b + Z.of_nat m) mod bt_size b)); [|lia].
  rewrite <- (lookup_walk_order b t m Hwf Hm), He. simpl.
  destruct (display_entry dthres freq e w) as [w1|f]; simpl; [|done].
  unfold next_index. destruct (Z.eqb_spec (bt_size b) 0); [lia|]. simpl.
  rewrite wrap32_small by lia.
  rewrite Zplus_mod_idemp_l.
  replace (bt_curr b + Z.of_nat m + 1) with (bt_curr b + Z.of_nat (S m)) by lia.
  destruct (decide (n = 0%nat)) as [->|Hn0].
  - replace (Z.of_nat (S m)) with (bt_size b) by lia.
    rewrite <- (Z.mul_1_l (bt_size b)) at 1. rewrite Z.mod_add by lia.
    rewrite Z.mod_small, Z.eqb_refl by lia.
    rewrite drop_ge; [done|]. unfold walk_order. rewrite length_rotate. lia.
  - destruct (Z.eqb_spec ((bt_curr b + Z.of_nat (S m)) mod bt_size b) (bt_curr b)) as [Heq|_].
    + exfalso.
      destruct (Z.lt_ge_cases (bt_curr b + Z.of_nat (S m)) (bt_size b)).
      * rewrite Z.mod_small in Heq; lia.
      * replace (bt_curr b + Z.of_nat (S m))
          with (bt_curr b + Z.of_nat (S m) - bt_size b + 1 * bt_size b) in Heq by lia.
        rewrite Z.mod_add, Z.mod_small in Heq; lia.
    + apply IH; lia.
Qed.

Lemma boottrace_display_walk b t dthres freq :
  bt_wf b t ->
  boottrace_display b dthres freq =
    (do w <- display_entries dthres freq (walk_order b t) walk0;
     Ok (out w ++ [Total (total_dmsecs_of w)])).
Proof.
  intros Hwf. pose proof Hwf as (Ht & Hl & Hc & Hs).
  unfold boottrace_display.
  replace (S (Z.to_nat (bt_size b))) with (length t + 1)%nat by lia.
  pose proof (display_loop_rotate dthres freq b t Hwf (length t) 0 1 walk0) as H.
  simpl in H. rewrite Z.add_0_r, Z.mod_small in H by lia.
  rewrite H by lia. done.
Qed.

(** ** The walk in terms of the visited entries *)

(** Slots that were never written make no difference. *)
Lemma display_entries_unused dthres freq l w :
  Forall (fun e => tsc e = 0) l -> display_entries dthres freq l w = Ok w.
Proof.
  induction 1 as [|e l He _ IH]; [done|].
  simpl. unfold display_entry. rewrite He. simpl. exact IH.
Qed.

(** With a non-zero frequency the walk does not fault; what it writes and
    the clock values it ends with are those of the visited entries. *)
Lemma display_entries_visited dthres freq l : forall w,
  freq <> 0 ->
  exists w',
    display_entries dthres freq l w = Ok w' /\
    out w' = out w ++ flush dthres (held_back w) (visited freq (last_msecs w) l) /\
    last_msecs w' =
      default (last_msecs w) (last (v_msecs <$> visited freq (last_msecs w) l)) /\
    first_msecs w' =
      running_first (first_msecs w) (v_msecs <$> visited freq (last_msecs w) l).
Proof.
  induction l as [|e l IH]; intros w Hfreq.
  - exists w. simpl. by rewrite app_nil_r.
  - simpl. unfold display_entry.
    destruct (Z.eqb_spec (tsc e) 0) as [Hz|Hz]; simpl.
    { apply IH; done. }
    destruct (Z.eqb_spec freq 0) as [|_]; [done|].
    fold (msecs_of freq e). fold (delta_of (last_msecs w) (msecs_of freq e)).
    set (m := msecs_of freq e). set (d := delta_of (last_msecs w) m).
    destruct (negb (dthres =? 0) && (d >? dthres)) eqn:Hbig; simpl.
    + edestruct IH as (w' & Hrun & Hout & Hlast & Hfirst); [done|].
      exists w'. split; [exact Hrun|].
      rewrite Hout, Hlast, Hfirst. simpl.
      split; [|split].
      * unfold held_back at 1. simpl. rewrite <- !app_assoc. f_equal.
        unfold held_back. destruct (last_evtp w); [|done].
        by destruct (last_printed w).
      * rewrite last_cons. by destruct (last _).
      * done.
    + destruct (Z.eqb_spec dthres 0) as [Hd|Hd]; simpl.
      * edestruct IH as (w' & Hrun & Hout & Hlast & Hfirst); [done|].
        exists w'. split; [exact Hrun|].
        rewrite Hout, Hlast, Hfirst. simpl.
        split; [|split].
        -- unfold held_back at 1. simpl. by rewrite <- !app_assoc.
        -- rewrite last_cons. by destruct (last _).
        -- done.
      * edestruct IH as (w' & Hrun & Hout & Hlast & Hfirst); [done|].
        exists w'. split; [exact Hrun|].
        rewrite Hout, Hlast, Hfirst. simpl.
        split; [|split].
        -- done.
        -- rewrite last_cons. by destruct (last _).
        -- done.
Qed.

(** The lines of a render, for a table in good shape and a clock that runs. *)
Lemma boottrace_display_visited b t dthres freq :
  bt_wf b t -> freq <> 0 ->
  boottrace_display b dthres freq =
    Ok (Header :: flush dthres None (visited freq 0 (walk_order b t)) ++
        [Total (total_of (v_msecs <$> visited freq 0 (walk_order b t)))]).
Proof.
  intros Hwf Hfreq. rewrite (boottrace_display_walk b t) by done.
  destruct (display_entries_visited dthres freq (walk_order b t) walk0 Hfreq)
    as (w & -> & Hout & Hlast & Hfirst).
  simpl. rewrite Hout. unfold total_dmsecs_of, total_of.
  rewrite Hlast, Hfirst. done.
Qed.



(** ** The footer *)









(** ** Filtering by threshold *)

(** C2, as the code has it.  When the visited entries have the deltas
    0, 5, 50, 2 and 100 ms and the threshold is 40 ms, four data rows are
    written: the entry with delta 5 as the landmark before the one with
    delta 50, the entry with delta 50, the entry with delta 2 as the landmark
    before the one with delta 100, and the entry with delta 100.  The first
    visited entry is not written. *)
Theorem display_threshold_landmarks b t freq :
  bt_wf b t -> freq <> 0 ->
  v_delta <$> visited freq 0 (walk_order b t) = [0; 5; 50; 2; 100] ->
  exists total,
    boottrace_display b 40 freq =
      Ok (Header :: (visit_line <$> drop 1 (visited freq 0 (walk_order b t))) ++
          [Total total]) /\
    row_deltas (Header :: (visit_line <$> drop 1 (visited freq 0 (walk_order b t))) ++
                [Total total]) = [5; 50; 2; 100].
Proof.
  intros Hwf Hfreq Hd.
  exists (total_of (v_msecs <$> visited freq 0 (walk_order b t))).
  rewrite (boottrace_display_visited b t) by done.
  destruct (visited freq 0 (walk_order b t)) as [|[e1 m1 d1] [|[e2 m2 d2]
    [|[e3 m3 d3] [|[e4 m4 d4] [|[e5 m5 d5] [|? ?]]]]]]; try discriminate Hd.
  simpl in Hd. injection Hd as -> -> -> -> ->.
  split; reflexivity.
Qed.

Lemma display_threshold_landmarks_witness :
  exists total,
    boottrace_display five_events 40 1000 =
      Ok (Header :: (visit_line <$> drop 1 (visited 1000 0 (walk_order five_events
            [event_at 10; event_at 15; event_at 65; event_at 67; event_at 167;
             zero_event]))) ++ [Total total]) /\
    row_deltas (Header :: (visit_line <$> drop 1 (visited 1000 0 (walk_order five_events
            [event_at 10; event_at 15; event_at 65; event_at 67; event_at 167;
             zero_event]))) ++ [Total total]) = [5; 50; 2; 100].
Proof.
  apply (display_threshold_landmarks five_events
           [event_at 10; event_at 15; event_at 65; event_at 67; event_at 167;
            zero_event] 1000).
  - repeat split; simpl; lia.
  - lia.
  - reflexivity.
Defined.

(** The table [five_events] has the deltas 0, 5, 50, 2 and 100; at the
    threshold 40 its render has four data rows, those with the deltas 5, 50,
    2 and 100, and not the three rows with the deltas 0, 50 and 100. *)
Lemma display_threshold_not_three_rows :
  (exists o, boottrace_display five_events 0 1000 = Ok o /\
             row_deltas o = [0; 5; 50; 2; 100]) /\
  (exists o, boottrace_display five_events 40 1000 = Ok o /\
             row_deltas o = [5; 50; 2; 100]) /\
  ~ (exists o, boottrace_display five_events 40 1000 = Ok o /\
               row_deltas o = [0; 50; 100]).
Proof.
  split; [|split].
  - eexists. split; reflexivity.
  - eexists. split; reflexivity.
  - intros (o & Ho & Hrows). vm_compute in Ho. injection Ho as <-.
    discriminate Hrows.
Qed.

(** ** The boot table after initialisation *)

(** C5, as the code has it.  [boottrace_init] seeds slot 0 of the boot table
    and sets the cursor to 1, but the seeded entry carries the timestamp 0 of
    an unused slot: a dump at threshold 0 writes the header, no data row, and
    a footer of 0. *)
Theorem boottrace_init_dump s k tunable freq :
  exists s' n,
    boottrace_init s k tunable = Ok s' /\
    bt_curr (bt s') = 1 /\
    table (bt s') = Some (initial_event k :: replicate n zero_event) /\
    boottrace_display (bt s') 0 freq = Ok [Header; Total 0].
Proof.
  unfold boottrace_init.
  set (sz := max _ BT_TABLE_MINSIZE).
  assert (500 <= sz < 2 ^ 32) as Hsz.
  { subst sz. unfold max, BT_TABLE_MINSIZE, BT_TABLE_DEFSIZE.
    destruct tunable as [v|]; simpl.
    - pose proof (Z.mod_pos_bound v (2 ^ 32)). unfold wrap32.
      destruct (Z.gtb_spec (v mod 2 ^ 32) 500); lia.
    - lia. }
  simpl. unfold store_slot, malloc_zero. simpl.
  rewrite length_replicate.
  destruct (Z.ltb_spec 0 (Z.of_nat (Z.to_nat sz))); [|lia]. simpl.
  destruct (Z.to_nat sz) as [|n] eqn:Hn; [lia|]. simpl.
  eexists _, n. split; [reflexivity|]. simpl.
  split; [done|]. split; [done|].
  match goal with |- boottrace_display ?b _ _ = _ =>
    rewrite (boottrace_display_walk b (initial_event k :: replicate n zero_event)) end.
  2:{ repeat split; simpl; try lia. rewrite length_replicate. lia. }
  rewrite display_entries_unused; [done|].
  apply Forall_forall. intros e He. unfold walk_order in He.
  apply elem_of_rotate in He. apply elem_of_cons in He as [->|He]; [done|].
  by apply elem_of_replicate in He as [-> _].
Qed.

(** The dump of the boot table right after [boottrace_init], with the
    default size: there is no data row between the header and the footer. *)
Lemma boottrace_init_dump_no_row :
  (exists s', boottrace_init kstate0 (k_example 1) None = Ok s' /\
              boottrace_display (bt s') 0 1000 = Ok [Header; Total 0]) /\
  ~ (exists s' row, boottrace_init kstate0 (k_example 1) None = Ok s' /\
                    boottrace_display (bt s') 0 1000 = Ok [Header; row; Total 0]).
Proof.
  split.
  - eexists. split; [reflexivity|]. vm_compute. reflexivity.
  - intros (s' & row & Hi & Hd). injection Hi as <-.
    vm_compute in Hd. discriminate Hd.
Qed.

(** ** What a call of dotrace can change *)

Lemma dotrace_table_status b e r b' :
  dotrace_table b e = Ok (r, b') -> r = 0 \/ r = ENOSPC.
Proof.
  unfold dotrace_table. destruct (table b); [|intros [= <- _]; by right].
  destruct (dotrace_loop 1 b) as [[[idx|] b1]|f]; simpl; [| |done].
  - destruct (store_slot b1 idx e); simpl; [|done]. intros [= <- _]. by left.
  - intros [= <- _]. by right.
Qed.

Lemma dotrace_frame s k p eventname tdname r s' :
  dotrace s k p eventname tdname = Ok (r, s') ->
  (r = 0 \/ r = ENOSPC) /\
  (forall q, q <> p -> deref s' q = deref s q) /\
  bootdone s' = bootdone s /\ shutdown s' = shutdown s.
Proof.
  unfold dotrace.
  set (s1 := if bootarg_needs_init s then _ else s).
  assert (forall q, deref s1 q = deref s q) as Hs1.
  { intros q. subst s1. destruct (bootarg_needs_init s); [|done].
    apply deref_set_debugging. }
  assert (bootdone s1 = bootdone s /\ shutdown s1 = shutdown s) as [Hb Hd].
  { subst s1. by destruct (bootarg_needs_init s). }
  destruct (dotrace_table _ _) as [[r1 b1]|f] eqn:Ht; simpl; [|done].
  intros [= <- <-]. split; [by eapply dotrace_table_status|].
  split; [|by destruct p].
  intros q Hq. rewrite deref_assign_ne by done. apply Hs1.
Qed.

Lemma dotrace_table_ok b e :
  table_ok b -> exists r b', dotrace_table b e = Ok (r, b') /\ table_ok b'.
Proof.
  intros [[Hnull Hc]|[t Hwf]].
  - unfold dotrace_table. rewrite Hnull. eexists _, _. split; [done|]. by left.
  - pose proof Hwf as (Ht & Hl & Hc & Hs).
    destruct (decide (bt_wrap b = 0 /\ bt_curr b + 1 = bt_size b)) as [[Hw Hlast]|Hfree].
    + rewrite (dotrace_table_full b t) by done. eexists _, _. split; [done|].
      right. exists t. repeat split; simpl; lia || done.
    + rewrite (dotrace_table_owned b t) by (done || lia).
      eexists _, _. split; [done|]. right. eexists. by apply bt_wf_owned.
Qed.

Lemma dotrace_ok s k p eventname tdname :
  state_ok s ->
  exists r s', dotrace s k p eventname tdname = Ok (r, s') /\ state_ok s'.
Proof.
  intros Hok. unfold dotrace.
  set (s1 := if bootarg_needs_init s then _ else s).
  assert (forall q, deref s1 q = deref s q) as Hs1.
  { intros q. subst s1. destruct (bootarg_needs_init s); [|done].
    apply deref_set_debugging. }
  assert (forall q, table_ok (deref s q)) as Hq.
  { destruct Hok as (? & ? & ?). by intros []. }
  destruct (dotrace_table_ok (deref s1 p) (dotrace_event k eventname
              match tdname with Some n => n | None => default_tdname k end))
    as (r & b' & Hrun & Hb'); [rewrite Hs1; apply Hq|].
  rewrite Hrun. simpl. eexists _, _. split; [done|].
  pose proof (Hs1 BT) as H1. pose proof (Hs1 RT) as H2. pose proof (Hs1 ST) as H3.
  pose proof (Hq BT) as Q1. pose proof (Hq RT) as Q2. pose proof (Hq ST) as Q3.
  simpl in *. destruct p; repeat split; simpl; congruence.
Qed.

(** ** Histories never fault *)

Lemma boottrace_ok s k eventname tdname :
  state_ok s ->
  exists r s', boottrace s k eventname tdname = Ok (r, s') /\ state_ok s'.
Proof. apply dotrace_ok. Qed.

Lemma runtrace_ok s k eventname tdname :
  state_ok s ->
  exists r s', runtrace s k eventname tdname = Ok (r, s') /\ state_ok s'.
Proof.
  intros Hok. unfold runtrace.
  destruct (boottrace_ok s k eventname tdname Hok) as (r & s' & -> & Hok').
  simpl. eexists _, _. split; [done|]. exact Hok'.
Qed.

Lemma shuttrace_ok s k eventname tdname :
  state_ok s ->
  exists r s', shuttrace s k eventname tdname = Ok (r, s') /\ state_ok s'.
Proof. intros Hok. unfold shuttrace. by apply dotrace_ok. Qed.

Lemma boottrace_reset_ok s k actor :
  state_ok s -> exists s', boottrace_reset s k actor = Ok s' /\ state_ok s'.
Proof.
  intros Hok. unfold boottrace_reset.
  destruct (runtrace_ok s k (reset_message actor) None Hok) as (r & s' & -> & Hok').
  simpl. by exists s'.
Qed.

Lemma length_realloc addr n t :
  0 <= n -> realloc addr n true = Some t -> Z.of_nat (length t) = n.
Proof.
  intros Hn [= <-]. rewrite length_take, length_app, length_replicate. lia.
Qed.

Lemma boottrace_resize_ok s k newsize ok :
  state_ok s -> 0 <= newsize < 2 ^ 32 ->
  exists r s', boottrace_resize s k newsize ok = Ok (r, s') /\ state_ok s'.
Proof.
  intros Hok Hn. unfold boottrace_resize.
  destruct (Z.leb_spec newsize (bt_size (rt s))) as [Hle|Hgt].
  { by eexists _, _. }
  assert (0 <= bt_curr (rt s) <= bt_size (rt s)) as Hc.
  { destruct Hok as (_ & [[_ ?]|[t (_ & _ & ? & _)]] & _); lia. }
  destruct ok; simpl.
  - match goal with |- context [boottrace_reset ?s2 _ _] =>
      destruct (boottrace_reset_ok s2 k "boottrace_resize") as (s3 & -> & Hok3) end.
    + destruct Hok as (H1 & H2 & H3). split; [exact H1|]. split; [|exact H3].
      right. eexists. repeat split; simpl; try lia.
      rewrite length_take, length_app, length_replicate. lia.
    + simpl. by eexists _, _.
  - eexists _, _. split; [done|].
    destruct Hok as (H1 & H2 & H3). split; [exact H1|]. split; [|exact H3].
    left. simpl. split; [done|lia].
Qed.

Lemma step_ok s o :
  state_ok s -> op_ok o -> exists s', step s o = Ok s' /\ state_ok s'.
Proof.
  intros Hok Ho. destruct o as [k e td|k e td|k e td|k actor|k n ok]; simpl.
  - destruct (boottrace_ok s k e td Hok) as (r & s' & -> & ?). by exists s'.
  - destruct (runtrace_ok s k e td Hok) as (r & s' & -> & ?). by exists s'.
  - destruct (shuttrace_ok s k e td Hok) as (r & s' & -> & ?). by exists s'.
  - by apply boottrace_reset_ok.
  - destruct (boottrace_resize_ok s k n ok Hok Ho) as (r & s' & -> & ?). by exists s'.
Qed.

(** From a state in good shape every history of calls runs to its end. *)
Lemma run_ok ops : forall s,
  state_ok s -> Forall op_ok ops -> exists s', run s ops = Ok s' /\ state_ok s'.
Proof.
  induction ops as [|o ops IH]; intros s Hok Hops; [by exists s|].
  apply Forall_cons in Hops as [Ho Hops]. simpl.
  destruct (step_ok s o Hok Ho) as (s1 & -> & Hok1). simpl. by apply IH.
Qed.

(** The state that [boottrace_init] leaves. *)
Lemma boottrace_init_shape s k tunable :
  exists n : nat,
    (499 <= n)%nat /\ Z.of_nat (S n) < 2 ^ 32 /\
    boottrace_init s k tunable =
      Ok (mk_kstate
            (mk_bt (Z.of_nat (S n)) 1 (bt_wrap (bt s)) (drops_early (bt s))
                   (drops_full (bt s))
                   (Some (initial_event k :: replicate n zero_event)))
            (mk_bt BT_TABLE_RUNSIZE (bt_curr (rt s)) 1 (drops_early (rt s))
                   (drops_full (rt s)) (malloc_zero BT_TABLE_RUNSIZE))
            (mk_bt BT_TABLE_SHTSIZE (bt_curr (st s)) (bt_wrap (st s))
                   (drops_early (st s)) (drops_full (st s))
                   (malloc_zero BT_TABLE_SHTSIZE))
            (bootdone s) (shutdown s) (dotrace_debugging s) (bootarg_needs_init s)).
Proof.
  unfold boottrace_init.
  remember (malloc_zero BT_TABLE_RUNSIZE) as mr eqn:Hmr.
  remember (malloc_zero BT_TABLE_SHTSIZE) as ms eqn:Hms.
  set (sz := max _ BT_TABLE_MINSIZE).
  assert (500 <= sz < 2 ^ 32) as Hsz.
  { subst sz. unfold max, BT_TABLE_MINSIZE, BT_TABLE_DEFSIZE.
    destruct tunable as [v|]; simpl.
    - pose proof (Z.mod_pos_bound v (2 ^ 32)). unfold wrap32.
      destruct (Z.gtb_spec (v mod 2 ^ 32) 500); lia.
    - lia. }
  unfold store_slot, malloc_zero. cbn [table set_table bt_size set_size].
  rewrite length_replicate. cbn [andb Z.leb Z.compare].
  destruct (Z.ltb_spec 0 (Z.of_nat (Z.to_nat sz))); [|lia].
  destruct (Z.to_nat sz) as [|n] eqn:Hn; [lia|].
  exists n. split; [lia|]. split; [lia|].
  replace (Z.of_nat (S n)) with sz by lia. clearbody sz.
  subst mr ms. by destruct tunable.
Qed.

Lemma boottrace_init_ok s k tunable :
  0 <= bt_curr (rt s) < BT_TABLE_RUNSIZE ->
  0 <= bt_curr (st s) < BT_TABLE_SHTSIZE ->
  exists s', boottrace_init s k tunable = Ok s' /\ state_ok s'.
Proof.
  intros Hr Hs.
  destruct (boottrace_init_shape s k tunable) as (n & Hn & Hn32 & ->).
  eexists. split; [done|].
  unfold BT_TABLE_RUNSIZE, BT_TABLE_SHTSIZE in *.
  split; [|split]; right; eexists; repeat split; simpl;
    rewrite ?length_replicate; lia.
Qed.

(** ** The latches *)

Lemma boottrace_frame s k eventname tdname r s' :
  boottrace s k eventname tdname = Ok (r, s') ->
  (r = 0 \/ r = ENOSPC) /\
  (forall q, q <> boottrace_trace s k -> deref s' q = deref s q) /\
  bootdone s' = bootdone s /\ shutdown s' = shutdown s.
Proof. apply dotrace_frame. Qed.

Lemma runtrace_frame s k eventname tdname r s' :
  runtrace s k eventname tdname = Ok (r, s') ->
  (r = 0 \/ r = ENOSPC) /\
  (forall q, q <> boottrace_trace s k -> deref s' q = deref s q) /\
  bootdone s' = true /\ shutdown s' = shutdown s.
Proof.
  unfold runtrace.
  destruct (boottrace s k eventname tdname) as [[r1 s1]|f] eqn:Hb; simpl; [|done].
  intros [= <- <-].
  destruct (boottrace_frame _ _ _ _ _ _ Hb) as (Hr & Hq & _ & Hd).
  split; [done|]. split; [|done].
  intros q Hne. rewrite <- (Hq q Hne). by destruct q.
Qed.

Lemma shuttrace_frame s k eventname tdname r s' :
  shuttrace s k eventname tdname = Ok (r, s') ->
  (r = 0 \/ r = ENOSPC) /\
  (forall q, q <> ST -> deref s' q = deref s q) /\
  bootdone s' = bootdone s /\ shutdown s' = true.
Proof.
  unfold shuttrace. intros H.
  destruct (dotrace_frame _ _ _ _ _ _ _ H) as (Hr & Hq & Hb & Hd).
  split; [done|]. split; [|done].
  intros q Hne. rewrite (Hq q Hne). by destruct q.
Qed.

Lemma boottrace_reset_frame s k actor s' :
  boottrace_reset s k actor = Ok s' ->
  (forall q, q <> boottrace_trace s k -> deref s' q = deref s q) /\
  bootdone s' = true /\ shutdown s' = shutdown s.
Proof.
  unfold boottrace_reset.
  destruct (runtrace s k (reset_message actor) None) as [[r1 s1]|f] eqn:Hb;
    simpl; [|done].
  intros [= <-]. by destruct (runtrace_frame _ _ _ _ _ _ Hb) as (_ & ? & ? & ?).
Qed.

Lemma boottrace_resize_frame s k newsize ok r s' :
  boottrace_resize s k newsize ok = Ok (r, s') ->
  shutdown s' = shutdown s /\ (bootdone s = true -> bootdone s' = true).
Proof.
  unfold boottrace_resize.
  destruct (newsize <=? bt_size (rt s)); [by intros [= <- <-]|].
  destruct ok; simpl.
  - destruct (boottrace_reset _ _ _) as [s3|f] eqn:Hr; simpl; [|done].
    intros [= <- <-].
    by destruct (boottrace_reset_frame _ _ _ _ Hr) as (_ & -> & ->).
  - by intros [= <- <-].
Qed.

(** No call clears a latch. *)
Lemma step_latches s o s' :
  step s o = Ok s' ->
  (shutdown s = true -> shutdown s' = true) /\
  (bootdone s = true -> bootdone s' = true).
Proof.
  destruct o as [k e td|k e td|k e td|k actor|k n ok]; simpl.
  - destruct (boottrace s k e td) as [[r s1]|f] eqn:H; simpl; [|done].
    intros [= <-]. destruct (boottrace_frame _ _ _ _ _ _ H) as (_ & _ & -> & ->).
    done.
  - destruct (runtrace s k e td) as [[r s1]|f] eqn:H; simpl; [|done].
    intros [= <-]. destruct (runtrace_frame _ _ _ _ _ _ H) as (_ & _ & -> & ->).
    done.
  - destruct (shuttrace s k e td) as [[r s1]|f] eqn:H; simpl; [|done].
    intros [= <-]. destruct (shuttrace_frame _ _ _ _ _ _ H) as (_ & _ & -> & ->).
    done.
  - intros H. destruct (boottrace_reset_frame _ _ _ _ H) as (_ & -> & ->). done.
  - destruct (boottrace_resize s k n ok) as [[r s1]|f] eqn:H; simpl; [|done].
    intros [= <-]. destruct (boottrace_resize_frame _ _ _ _ _ _ H) as (-> & ?).
    done.
Qed.


(** ** Phase routing *)




(** ** The boot-complete latch *)

(** C6, as the code has it.  [runtrace], and with it [boottrace_reset] and a
    [boottrace_resize] that got its memory, leaves [bootdone] true whatever
    the status of the record and whichever table it went to; on a latch that
    is already true this changes nothing.  [boottrace] and [shuttrace] leave
    [bootdone] as it is.  A submission goes to the run table only when
    [bootdone] is already true. *)
Theorem bootdone_latch s o s' :
  step s o = Ok s' ->
  bootdone s' =
    match o with
    | Boottrace _ _ _ | Shuttrace _ _ _ => bootdone s
    | Runtrace _ _ _ | Reset _ _ => true
    | Resize _ n ok => if (bt_size (rt s) <? n) && ok then true else bootdone s
    end /\
  (bootdone s = true -> bootdone s' = true) /\
  set_bootdone (set_bootdone s' true) true = set_bootdone s' true /\
  (forall k, boottrace_trace s k = RT -> bootdone s = true).
Proof.
  intros Hs. split; [|split; [by apply (step_latches s o s')|split; [done|]]].
  - destruct o as [k e td|k e td|k e td|k actor|k n ok]; simpl in Hs.
    + destruct (boottrace s k e td) as [[r s1]|f] eqn:H; simpl in Hs; [|done].
      injection Hs as <-. by destruct (boottrace_frame _ _ _ _ _ _ H) as (_ & _ & -> & _).
    + destruct (runtrace s k e td) as [[r s1]|f] eqn:H; simpl in Hs; [|done].
      injection Hs as <-. by destruct (runtrace_frame _ _ _ _ _ _ H) as (_ & _ & -> & _).
    + destruct (shuttrace s k e td) as [[r s1]|f] eqn:H; simpl in Hs; [|done].
      injection Hs as <-. by destruct (shuttrace_frame _ _ _ _ _ _ H) as (_ & _ & -> & _).
    + by destruct (boottrace_reset_frame _ _ _ _ Hs) as (_ & -> & _).
    + unfold boottrace_resize in Hs. rewrite Z.ltb_antisym.
      destruct (n <=? bt_size (rt s)); simpl in *; [by injection Hs as <-|].
      destruct ok; simpl in *; [|by injection Hs as <-].
      destruct (boottrace_reset _ _ _) as [s3|f] eqn:Hr; simpl in Hs; [|done].
      injection Hs as <-. by destruct (boottrace_reset_frame _ _ _ _ Hr) as (_ & -> & _).
  - intros k. unfold boottrace_trace.
    destruct (in_shutdown s k); [done|]. by destruct (bootdone s).
Qed.

Lemma bootdone_latch_witness :
  exists s',
    step full_boot_state (Runtrace (k_example 5) "first run event" None) = Ok s' /\
    bootdone s' = true.
Proof.
  eexists. split; [vm_compute; reflexivity|].
  exact (proj1 (bootdone_latch full_boot_state
                  (Runtrace (k_example 5) "first run event" None) _
                  ltac:(vm_compute; reflexivity))).
Defined.

(** A submission through [runtrace] while [bootdone] is false and the boot
    table is full: it goes to the boot table, it is dropped, and it sets the
    latch all the same. *)
Lemma runtrace_sets_bootdone_when_dropped :
  bootdone full_boot_state = false /\
  boottrace_trace full_boot_state (k_example 5) = BT /\
  exists s',
    runtrace full_boot_state (k_example 5) "first run event" None = Ok (ENOSPC, s') /\
    rt s' = rt full_boot_state /\
    bootdone s' = true.
Proof.
  split; [reflexivity|]. split; [reflexivity|].
  eexists. split; [vm_compute; reflexivity|]. split; reflexivity.
Qed.

(** ** Resize *)

(** A request that does not enlarge the run table is refused and changes
    nothing. *)
Lemma boottrace_resize_einval s k newsize ok :
  newsize <= bt_size (rt s) ->
  boottrace_resize s k newsize ok = Ok (EINVAL, s).
Proof.
  intros H. unfold boottrace_resize.
  by destruct (Z.leb_spec newsize (bt_size (rt s))); [|lia].
Qed.

(** A resize that gets its memory, in the run phase: the new size is set and
    the reset event is written at the old cursor, which moves on by one; it
    is not set back to 0. *)
Lemma boottrace_resize_cursor s k newsize t :
  bt_wf (rt s) t -> bt_size (rt s) < newsize < 2 ^ 32 ->
  bootdone s = true -> in_shutdown s k = false ->
  exists s',
    boottrace_resize s k newsize true = Ok (0, s') /\
    bt_size (rt s') = newsize /\
    bt_curr (rt s') = bt_curr (rt s) + 1 /\
    table (rt s') =
      Some (<[Z.to_nat (bt_curr (rt s)) :=
                submission_event (k, reset_message "boottrace_resize", None)]>
              (t ++ replicate (Z.to_nat newsize - length t) zero_event)).
Proof.
  intros Hwf Hn Hb Hs. pose proof Hwf as (Ht & Hl & Hc & Hsz).
  unfold boottrace_resize.
  destruct (Z.leb_spec newsize (bt_size (rt s))); [lia|].
  simpl. rewrite Ht. simpl.
  set (t' := take _ _).
  assert (t' = t ++ replicate (Z.to_nat newsize - length t) zero_event) as Ht'.
  { subst t'. rewrite take_app, take_ge by lia. by rewrite take_replicate, Nat.min_l by lia. }
  match goal with |- context [boottrace_reset ?x _ _] => set (s2 := x) end.
  assert (bt_wf (deref s2 RT) t') as Hwf2.
  { subst s2. split; [done|]. simpl. rewrite Ht'.
    rewrite length_app, length_replicate. lia. }
  unfold boottrace_reset, runtrace, boottrace.
  assert (boottrace_trace s2 k = RT) as ->.
  { unfold boottrace_trace. change (bootdone s2) with (bootdone s).
    change (in_shutdown s2 k) with (in_shutdown s k). by rewrite Hb, Hs. }
  destruct (dotrace_owned s2 k RT (reset_message "boottrace_resize") None t' Hwf2)
    as (s3 & -> & Hb3 & _); [right; simpl; lia|].
  simpl. eexists. split; [done|].
  change (rt (set_bootdone s3 true)) with (deref s3 RT).
  rewrite Hb3. simpl.
  split; [done|]. split; [|by rewrite Ht'].
  rewrite Z.mod_small; lia.
Qed.

(** C3 on the code.  The run table of [running_state] has 3 slots and its
    cursor at 2.  Resizing it to 5 slots returns 0 and sets the size, but the
    cursor goes on to 3: it is not reset to 0.  When the allocator returns
    NULL the error is ENOMEM and the table pointer has been overwritten.  A
    size that is not larger is refused with EINVAL and nothing changes. *)
Theorem boottrace_resize_cursor_not_reset :
  (exists s',
     boottrace_resize running_state (k_example 9) 5 true = Ok (0, s') /\
     bt_size (rt s') = 5 /\ bt_curr (rt s') = 3 /\ bt_curr (rt s') <> 0 /\
     bt_curr (rt s') <> 1) /\
  (exists s',
     boottrace_resize running_state (k_example 9) 5 false = Ok (ENOMEM, s') /\
     table (rt s') = None /\ rt s' <> rt running_state) /\
  boottrace_resize running_state (k_example 9) 3 true = Ok (EINVAL, running_state).
Proof.
  split; [|split].
  - eexists. split; [vm_compute; reflexivity|]. simpl. repeat split; lia.
  - eexists. split; [vm_compute; reflexivity|]. split; [done|]. discriminate.
  - reflexivity.
Qed.

(** ** The sysctl handlers *)

Section SysctlProperties.

Variable sysctl_handle_string : string -> nat -> sysctl_req -> Z * string.

(** Whatever the record operation returns, a write request ends with the
    error number of [sysctl_handle_string]. *)
Lemma sysctl_write_status trace s k req r s' :
  (forall s k e td r s', trace s k e td = Ok (r, s') -> r = 0 \/ r = ENOSPC) ->
  sysctl_write sysctl_handle_string trace s k req = Ok (r, s') ->
  r = (sysctl_handle_string "" message_size req).1.
Proof.
  intros Htrace. unfold sysctl_write.
  destruct (sysctl_handle_string "" message_size req) as [error message]. simpl.
  destruct (Z.eqb_spec error 0) as [->|Hne]; simpl; [|by intros [= <- _]].
  destruct (boottrace_parse_message k message) as [eventname tdname].
  destruct (trace s k eventname (Some tdname)) as [[e1 s1]|f] eqn:Ht; simpl; [|done].
  intros [= <- _]. by destruct (Htrace _ _ _ _ _ _ Ht) as [->| ->].
Qed.

(** C10.  For a write request the handlers of boottimes, runtimes and
    shuttimes return the error number of [sysctl_handle_string], 0 when
    the string was accepted: the ENOSPC of a dropped record never reaches
    the caller. *)
Theorem sysctl_never_reports_drop s k req r s' o :
  is_Some (newptr req) ->
  sysctl_boottrace sysctl_handle_string s k req = Ok (r, s', o) \/
  sysctl_runtrace sysctl_handle_string s k req = Ok (r, s', o) \/
  sysctl_shuttrace sysctl_handle_string s k req = Ok (r, s', o) ->
  r = (sysctl_handle_string "" message_size req).1 /\
  ((sysctl_handle_string "" message_size req).1 = 0 -> r = 0 /\ r <> ENOSPC).
Proof.
  intros [m Hm] H.
  assert (r = (sysctl_handle_string "" message_size req).1) as Hr.
  { unfold sysctl_boottrace, sysctl_runtrace, sysctl_shuttrace in H.
    rewrite Hm in H.
    destruct H as [H|[H|H]];
      match type of H with
      | context [sysctl_write _ ?trace _ _ _] =>
          destruct (sysctl_write sysctl_handle_string trace s k req)
            as [[r1 s1]|f] eqn:Hw; simpl in H; [|done]
      end; injection H as <- _ _;
      (eapply sysctl_write_status; [|exact Hw]);
      intros ? ? ? ? ? ? Hx;
      first [ by destruct (boottrace_frame _ _ _ _ _ _ Hx)
            | by destruct (runtrace_frame _ _ _ _ _ _ Hx)
            | by destruct (shuttrace_frame _ _ _ _ _ _ Hx) ].
  }
  split; [exact Hr|]. intros H0. rewrite H0 in Hr. by subst r.
Qed.

End SysctlProperties.

Lemma sysctl_never_reports_drop_witness :
  exists s',
    boottrace kstate0 (k_example 3) "start" (Some "init"%string) = Ok (ENOSPC, s') /\
    sysctl_boottrace handle_string_example kstate0 (k_example 3)
                     (mk_req (Some "init:start"%string)) = Ok (0, s', []) /\
    0 = (handle_string_example "" message_size (mk_req (Some "init:start"%string))).1 /\
    ((handle_string_example "" message_size (mk_req (Some "init:start"%string))).1 = 0 ->
     0 = 0 /\ 0 <> ENOSPC).
Proof.
  eexists. split; [vm_compute; reflexivity|]. split; [vm_compute; reflexivity|].
  eapply (sysctl_never_reports_drop handle_string_example kstate0 (k_example 3)
            (mk_req (Some "init:start"%string)) 0).
  - by eexists.
  - left. vm_compute. reflexivity.
Defined.

(** ** Concurrent callers *)

Lemma cexec_cons ev c l c1 tr c2 :
  cstep ev c l c1 -> cexec ev c1 tr c2 -> cexec ev c (l :: tr) c2.
Proof.
  intros Hstep Hexec. induction Hexec as [c1|c1 tr c2 l' c3 _ IH Hs].
  - apply (cexec_snoc ev c [] c l c1); [constructor|done].
  - rewrite app_comm_cons. eapply cexec_snoc; [|done]. by apply IH.
Qed.

Lemma run_schedule_cexec ev sched : forall c tr c',
  run_schedule ev sched c = Some (tr, c') -> cexec ev c tr c'.
Proof.
  induction sched as [|tid sched IH]; intros [b ts] tr c'; simpl.
  - intros [= <- <-]. constructor.
  - destruct (ts !! tid) as [p|] eqn:Hp; [|done].
    destruct (thread_step _ tid b p) as [[[[b' p'] l]|f]|] eqn:Hs; try done.
    destruct (run_schedule ev sched _) as [[tr' c'']|] eqn:Hr; [|done].
    intros [= <- <-]. eapply cexec_cons; [|by apply IH].
    by econstructor.
Qed.

Lemma sum_list_fmap_insert (f : pc -> nat) (ts : list pc) tid p p' :
  ts !! tid = Some p ->
  (sum_list (f <$> <[tid := p']> ts) + f p = sum_list (f <$> ts) + f p')%nat.
Proof.
  revert tid. induction ts as [|q ts IH]; intros [|tid]; simpl; try done.
  - intros [= ->]. generalize (f p) (f p') (sum_list (list_fmap pc nat f ts)).
    clear. intros. lia.
  - intros H. specialize (IH _ H). rewrite <- !Nat.add_assoc. f_equal. exact IH.
Qed.

Lemma mod_add_inj c C i j :
  0 <= i < C -> 0 <= j < C -> (c + i) mod C = (c + j) mod C -> i = j.
Proof.
  intros Hi Hj H.
  assert ((i - j) mod C = 0) as H0.
  { replace (i - j) with ((c + i) - (c + j)) by lia.
    rewrite Zminus_mod, H, Z.sub_diag. apply Z.mod_0_l. lia. }
  destruct (Z.lt_ge_cases i j).
  - replace (i - j) with (i - j + C + (-1) * C) in H0 by lia.
    rewrite Z.mod_add, Z.mod_small in H0; lia.
  - rewrite Z.mod_small in H0; lia.
Qed.

Lemma NoDup_cursor_seq c0 C n : Z.of_nat n <= C -> NoDup (cursor_seq c0 C n).
Proof.
  intros Hn. unfold cursor_seq. apply NoDup_fmap_2_strong; [|apply NoDup_seq].
  intros i j Hi Hj H. apply elem_of_seq in Hi, Hj.
  apply Nat2Z.inj. eapply mod_add_inj; [| |exact H]; lia.
Qed.

Lemma cursor_seq_S c0 C n :
  cursor_seq c0 C (S n) = cursor_seq c0 C n ++ [(c0 + Z.of_nat n) mod C].
Proof. unfold cursor_seq. by rewrite seq_S, fmap_app. Qed.

Lemma length_cursor_seq c0 C n : length (cursor_seq c0 C n) = n.
Proof. unfold cursor_seq. by rewrite length_fmap, length_seq. Qed.

Lemma omap_NoDup_inj {A B} (f : A -> option B) (l : list A) x y v :
  NoDup (omap f l) -> x ∈ l -> y ∈ l -> f x = Some v -> f y = Some v -> x = y.
Proof.
  induction l as [|a l IH]; intros Hnd Hx Hy Hfx Hfy; [by apply elem_of_nil in Hx|].
  apply elem_of_cons in Hx as [->|Hx]; apply elem_of_cons in Hy as [->|Hy].
  - done.
  - simpl in Hnd. rewrite Hfx in Hnd. apply NoDup_cons in Hnd as [Hv _].
    exfalso. apply Hv. apply list_elem_of_omap. eauto.
  - simpl in Hnd. rewrite Hfy in Hnd. apply NoDup_cons in Hnd as [Hv _].
    exfalso. apply Hv. apply list_elem_of_omap. eauto.
  - apply IH; try done. simpl in Hnd. destruct (f a); [|done].
    by apply NoDup_cons in Hnd as [_ ?].
Qed.

Lemma rank_le b p : (rank b p <= 4)%nat.
Proof. destruct p as [[|n]|n|n idx|n idx]; simpl; try lia. destruct (_ =? _); lia. Qed.

Lemma sum_list_rank_le b (ts : list pc) :
  (sum_list (rank b <$> ts) <= 4 * length ts)%nat.
Proof.
  induction ts as [|p ts IH]; simpl; [lia|]. pose proof (rank_le b p).
  change (list_fmap pc nat (rank b) ts) with (rank b <$> ts). lia.
Qed.

Lemma rank_same_cursor b b' :
  bt_curr b' = bt_curr b -> forall p, rank b' p = rank b p.
Proof. intros H [[|n]|n|n idx|n idx]; simpl; by rewrite ?H. Qed.

(** A step in which only the stepping caller's rank changes, and goes
    down. *)
Lemma steps_left_quiet b b' (ts : list pc) tid p p' :
  ts !! tid = Some p ->
  bt_curr b' = bt_curr b ->
  remaining p' = remaining p ->
  (rank b p' < rank b p)%nat ->
  (steps_left (b', <[tid := p']> ts) < steps_left (b, ts))%nat.
Proof.
  intros Hp Hcur Hrem Hrank. unfold steps_left. simpl.
  rewrite length_insert.
  rewrite (list_fmap_ext (rank b') (rank b) (<[tid := p']> ts))
    by (intros; by apply rank_same_cursor).
  pose proof (sum_list_fmap_insert remaining ts tid p p' Hp).
  pose proof (sum_list_fmap_insert (rank b) ts tid p p' Hp).
  assert (sum_list (remaining <$> <[tid := p']> ts) = sum_list (remaining <$> ts)) as -> by lia.
  lia.
Qed.

(** A cmpset that succeeds. *)
Lemma steps_left_alloc b b' (ts : list pc) tid p p' :
  ts !! tid = Some p ->
  (remaining p' + 1 = remaining p)%nat ->
  (steps_left (b', <[tid := p']> ts) < steps_left (b, ts))%nat.
Proof.
  intros Hp Hrem. unfold steps_left. simpl. rewrite length_insert.
  pose proof (sum_list_fmap_insert remaining ts tid p p' Hp).
  pose proof (sum_list_rank_le b' (<[tid := p']> ts)) as Hle.
  rewrite length_insert in Hle.
  assert (sum_list (remaining <$> ts) = sum_list (remaining <$> <[tid := p']> ts) + 1)%nat
    as -> by lia.
  nia.
Qed.

(** A caller that runs alone does what [dotrace_table] does: the two models
    of the slot allocator agree where they meet. *)
Lemma thread_alone_dotrace_table ev b r b' :
  dotrace_table b (ev 0%nat 1%nat) = Ok (r, b') ->
  exists tr,
    cexec ev (b, [AtEntry 1]) tr (b', [AtEntry 0]) /\
    (r = 0 /\ (exists idx, alloc_idxs tr = [idx]) \/
     r = ENOSPC /\ alloc_idxs tr = []).
Proof.
  unfold dotrace_table. destruct (table b) as [t|] eqn:Ht.
  - simpl. destruct (next_index b (bt_curr b)) as [nxt|f] eqn:Hn; simpl; [|done].
    destruct ((nxt =? 0) && (bt_wrap b =? 0)) eqn:Hfull.
    + intros [= <- <-]. exists [Quiet; Drop 0]. split; [|by right].
      eapply cexec_cons.
      { eapply (cstep_thread ev b [AtEntry 1] 0); [done|]. simpl. by rewrite Ht. }
      eapply cexec_cons; [|constructor].
      eapply (cstep_thread ev b [AtLoop 1] 0); [done|]. simpl.
      by rewrite Hn; simpl; rewrite Hfull.
    + rewrite atomic_cmpset_int_same. simpl.
      destruct (store_slot (set_curr b nxt) (bt_curr b) (ev 0%nat 1%nat))
        as [b2|f] eqn:Hst; simpl; [|done].
      intros [= <- <-]. exists [Quiet; Quiet; Alloc 0 (bt_curr b); Quiet].
      split; [|left; split; [done|by eexists]].
      eapply cexec_cons.
      { eapply (cstep_thread ev b [AtEntry 1] 0); [done|]. simpl. by rewrite Ht. }
      eapply cexec_cons.
      { eapply (cstep_thread ev b [AtLoop 1] 0); [done|]. simpl.
        by rewrite Hn; simpl; rewrite Hfull. }
      eapply cexec_cons.
      { eapply (cstep_thread ev b [AtCmpset 1 (bt_curr b)] 0); [done|]. simpl.
        rewrite Hn. simpl. by rewrite atomic_cmpset_int_same. }
      eapply cexec_cons; [|constructor].
      eapply (cstep_thread ev _ [AtFill 1 (bt_curr b)] 0); [done|]. simpl.
      by rewrite Hst.
  - intros [= <- <-]. exists [Drop 0]. split; [|by right].
    eapply cexec_cons; [|constructor].
    eapply (cstep_thread ev b [AtEntry 1] 0); [done|]. simpl. by rewrite Ht.
Qed.

Section ConcurrentDotrace.

Variable ev : nat -> nat -> bt_event.
Variables (b0 : struct_bt) (t0 : list bt_event) (T K : nat).
Hypothesis Hwf0 : bt_wf b0 t0.
Hypothesis Hwrap0 : bt_wrap b0 <> 0.

Lemma alloc_inv_init : alloc_inv b0 T K (b0, replicate T (AtEntry K)) [].
Proof.
  pose proof Hwf0 as (_ & _ & Hc & _).
  unfold alloc_inv. simpl. rewrite Z.add_0_r, Z.mod_small by lia.
  split; [by exists t0|]. do 5 (split; [done|]).
  split; [by rewrite length_replicate|].
  split; [rewrite fmap_replicate, sum_list_replicate; simpl; lia|].
  split; [by apply Forall_replicate|].
  intros tid todo idx H. by apply lookup_replicate in H as [? _].
Qed.

(** A step that hands out no slot and leaves the cursor where it is. *)
Lemma alloc_inv_quiet b ts tr tid p b' p' :
  alloc_inv b0 T K (b, ts) tr ->
  ts !! tid = Some p ->
  (exists t', bt_wf b' t') ->
  bt_size b' = bt_size b -> bt_wrap b' = bt_wrap b -> bt_curr b' = bt_curr b ->
  remaining p' = remaining p ->
  pc_ok (bt_size b0) p' ->
  (forall todo idx, p' <> AtFill todo idx) ->
  alloc_inv b0 T K (b', <[tid := p']> ts) (tr ++ [Quiet]).
Proof.
  intros (Hwf & Hsz & Hwr & Hcur & Hidx & Hnd & Hlen & Hsum & Hok & Hown)
         Hp Hwf' Hsz' Hwr' Hcur' Hrem Hok' Hfill.
  unfold alloc_inv in *. simpl in *.
  unfold alloc_idxs in *. rewrite omap_app. simpl. rewrite app_nil_r.
  split; [done|]. split; [congruence|]. split; [congruence|].
  split; [congruence|]. split; [done|].
  split; [apply Forall_app; split; [done|by repeat constructor]|].
  split; [by rewrite length_insert|].
  split.
  { pose proof (sum_list_fmap_insert remaining ts tid p p' Hp). lia. }
  split; [by apply Forall_insert|].
  intros tid' todo idx H. apply elem_of_app. left.
  destruct (decide (tid' = tid)) as [->|Hne].
  - rewrite list_lookup_insert_eq in H by (by eapply lookup_lt_Some).
    injection H as ->. by destruct (Hfill todo idx).
  - rewrite list_lookup_insert_ne in H by done. by eapply Hown.
Qed.

Lemma alloc_inv_step c tr l c' :
  alloc_inv b0 T K c tr -> cstep ev c l c' -> alloc_inv b0 T K c' (tr ++ [l]).
Proof.
  intros Hinv Hstep. destruct Hstep as [b ts tid p b' p' l Hp Hts].
  pose proof Hinv as ([t Hwf] & Hsz & Hwr & Hcur & Hidx & Hnd & Hlen & Hsum & Hok & Hown).
  simpl in *. pose proof Hwf as (Ht & Hl & Hc & Hs32).
  pose proof (proj1 (Forall_lookup _ _) Hok _ _ Hp) as Hpok.
  destruct p as [[|n]|n|n idx|n idx]; simpl in Hts.
  - done.
  - rewrite Ht in Hts. injection Hts as <- <- <-.
    eapply alloc_inv_quiet; eauto; simpl; lia || done.
  - unfold next_index in Hts.
    destruct (Z.eqb_spec (bt_size b) 0); [lia|]. simpl in Hts.
    destruct (Z.eqb_spec (bt_wrap b) 0) as [|_]; [congruence|].
    rewrite andb_false_r in Hts. injection Hts as <- <- <-.
    eapply alloc_inv_quiet; eauto; simpl in *; try done. split; [done|lia].
  - destruct Hpok as [Hn Hidxr]. unfold next_index in Hts.
    destruct (Z.eqb_spec (bt_size b) 0); [lia|]. simpl in Hts.
    rewrite wrap32_small in Hts by lia. unfold atomic_cmpset_int in Hts.
    destruct (Z.eqb_spec (bt_curr b) idx) as [Heq|Hne].
    + injection Hts as <- <- <-. subst idx.
      unfold alloc_inv. simpl. unfold alloc_idxs in *.
      rewrite omap_app, length_app. simpl.
      replace (length (omap alloc_idx tr) + 1)%nat with (S (length (omap alloc_idx tr))) by lia.
      split; [exists t; split; [done|]; split; [done|]; split; [simpl; apply Z.mod_pos_bound; lia|done]|].
      split; [done|]. split; [done|].
      split.
      { rewrite Hcur, <- Hsz, Zplus_mod_idemp_l. f_equal. lia. }
      split.
      { rewrite cursor_seq_S, <- Hidx. by rewrite Hcur. }
      split; [apply Forall_app; split; [done|by repeat constructor]|].
      split; [by rewrite length_insert|].
      split.
      { pose proof (sum_list_fmap_insert remaining ts tid _ (AtFill n (bt_curr b)) Hp).
        simpl in *. lia. }
      split; [apply Forall_insert; [done|]; simpl; split; [done|lia]|].
      intros tid' todo idx H. apply elem_of_app.
      destruct (decide (tid' = tid)) as [->|Hne].
      * rewrite list_lookup_insert_eq in H by (by eapply lookup_lt_Some).
        injection H as <- <-. right. by apply list_elem_of_singleton.
      * rewrite list_lookup_insert_ne in H by done. left. by eapply Hown.
    + injection Hts as <- <- <-.
      eapply alloc_inv_quiet; eauto; simpl; try done.
      all: try (exists t; repeat split; simpl; lia || done).
  - destruct Hpok as [Hn Hidxr]. unfold store_slot in Hts. rewrite Ht in Hts.
    destruct (Z.leb_spec 0 idx); [|lia].
    destruct (Z.ltb_spec idx (Z.of_nat (length t))); [|lia].
    simpl in Hts. injection Hts as <- <- <-.
    eapply alloc_inv_quiet; eauto; simpl; try done.
    all: try (eexists; repeat split; simpl; rewrite ?length_insert; lia || done).
Qed.

Lemma alloc_inv_exec tr c :
  cexec ev (b0, replicate T (AtEntry K)) tr c -> alloc_inv b0 T K c tr.
Proof.
  remember (b0, replicate T (AtEntry K)) as c0 eqn:Hc0.
  induction 1 as [c|c tr c1 l c2 _ IH Hstep]; subst.
  - apply alloc_inv_init.
  - eapply alloc_inv_step; [|done]. by apply IH.
Qed.

(** No caller ever waits for another: one with a call left can take its
    next step, and the step does not fault. *)
Lemma alloc_inv_progress c tr tid p :
  alloc_inv b0 T K c tr ->
  c.2 !! tid = Some p -> ~ finished p ->
  exists l c', cstep ev c l c'.
Proof.
  destruct c as [b ts].
  intros ([t Hwf] & Hsz & Hwr & Hcur & Hidx & Hnd & Hlen & Hsum & Hok & Hown) Hp Hfin.
  simpl in *. pose proof Hwf as (Ht & Hl & Hc & Hs32).
  pose proof (proj1 (Forall_lookup _ _) Hok _ _ Hp) as Hpok.
  assert (exists b' p' l,
            thread_step (ev tid (todo_of p)) tid b p = Some (Ok (b', p', l)))
    as (b' & p' & l & Hstep).
  { destruct p as [[|n]|n|n idx|n idx]; simpl.
    - by destruct Hfin.
    - rewrite Ht. by eexists _, _, _.
    - unfold next_index. destruct (Z.eqb_spec (bt_size b) 0); [lia|]. simpl.
      destruct (Z.eqb_spec (bt_wrap b) 0) as [|_]; [congruence|].
      rewrite andb_false_r. by eexists _, _, _.
    - unfold next_index. destruct (Z.eqb_spec (bt_size b) 0); [lia|]. simpl.
      unfold atomic_cmpset_int. destruct (bt_curr b =? idx); by eexists _, _, _.
    - destruct Hpok as [_ Hidxr]. unfold store_slot. rewrite Ht.
      destruct (Z.leb_spec 0 idx); [|lia].
      destruct (Z.ltb_spec idx (Z.of_nat (length t))); [|lia].
      simpl. by eexists _, _, _. }
  eexists _, _. by econstructor.
Qed.

(** Every step brings the end nearer: a failed cmpset costs the caller a
    turn of the loop, but only after a cmpset of another caller succeeded. *)
Lemma alloc_inv_steps_left c tr l c' :
  alloc_inv b0 T K c tr -> cstep ev c l c' ->
  (steps_left c' < steps_left c)%nat.
Proof.
  intros Hinv Hstep. destruct Hstep as [b ts tid p b' p' l Hp Hts].
  pose proof Hinv as ([t Hwf] & Hsz & Hwr & Hcur & Hidx & Hnd & Hlen & Hsum & Hok & Hown).
  simpl in *. pose proof Hwf as (Ht & Hl & Hc & Hs32).
  pose proof (proj1 (Forall_lookup _ _) Hok _ _ Hp) as Hpok.
  destruct p as [[|n]|n|n idx|n idx]; simpl in Hts.
  - done.
  - rewrite Ht in Hts. injection Hts as <- <- <-.
    eapply steps_left_quiet; eauto; simpl; lia.
  - unfold next_index in Hts.
    destruct (Z.eqb_spec (bt_size b) 0); [lia|]. simpl in Hts.
    destruct (Z.eqb_spec (bt_wrap b) 0) as [|_]; [congruence|].
    rewrite andb_false_r in Hts. injection Hts as <- <- <-.
    eapply steps_left_quiet; eauto; simpl. rewrite Z.eqb_refl. lia.
  - destruct Hpok as [Hn Hidxr]. unfold next_index in Hts.
    destruct (Z.eqb_spec (bt_size b) 0); [lia|]. simpl in Hts.
    unfold atomic_cmpset_int in Hts.
    destruct (Z.eqb_spec (bt_curr b) idx) as [Heq|Hne].
    + injection Hts as <- <- <-.
      eapply steps_left_alloc; eauto; simpl. lia.
    + injection Hts as <- <- <-.
      eapply steps_left_quiet; eauto; simpl.
      destruct (Z.eqb_spec (bt_curr b) idx); [done|lia].
  - destruct Hpok as [Hn Hidxr]. unfold store_slot in Hts. rewrite Ht in Hts.
    destruct (Z.leb_spec 0 idx); [|lia].
    destruct (Z.ltb_spec idx (Z.of_nat (length t))); [|lia].
    simpl in Hts. injection Hts as <- <- <-.
    eapply steps_left_quiet; eauto; simpl; try lia.
    all: destruct (n - 1)%nat; lia.
Qed.

Lemma cexec_length tr c :
  cexec ev (b0, replicate T (AtEntry K)) tr c ->
  (length tr + steps_left c <= steps_left (b0, replicate T (AtEntry K)))%nat.
Proof.
  intros Hexec. pose proof Hexec as Hexec'. revert Hexec'.
  remember (b0, replicate T (AtEntry K)) as c0 eqn:Hc0.
  induction Hexec as [c|c tr c1 l c2 Hexec IH Hstep]; intros Hexec'; [simpl; lia|].
  subst c. specialize (IH eq_refl Hexec).
  pose proof (alloc_inv_steps_left c1 tr l c2 (alloc_inv_exec tr c1 Hexec) Hstep).
  rewrite length_app. simpl. lia.
Qed.

Lemma steps_left_init :
  (steps_left (b0, replicate T (AtEntry K)) <= T * K * (4 * T + 1) + 3 * T)%nat.
Proof.
  unfold steps_left. simpl.
  rewrite length_replicate, !fmap_replicate, !sum_list_replicate. simpl.
  destruct K; simpl; nia.
Qed.

Lemma remaining_finished (ts : list pc) :
  Forall finished ts -> sum_list (remaining <$> ts) = 0%nat.
Proof.
  induction 1 as [|p ts Hp _ IH]; [done|]. simpl. rewrite Hp. simpl. exact IH.
Qed.

(** C9, as the code has it.  [T] callers make [K] calls of [dotrace] each on
    one table that wraps, their steps interleaved in any order.  No call is
    dropped; at most T * K cmpsets succeed and exactly T * K have succeeded
    when all callers are done; a caller with a call left can always take its
    next step, and no execution has more than T * K * (4 T + 1) + 3 T steps.
    The slots are handed out in the order of the cursor: the j-th successful
    cmpset gives the slot (c0 + j) mod C.  So when T * K <= C no slot index
    is handed out twice and no two callers write the same slot at the same
    time; nothing of the kind holds once the cursor has wrapped. *)
Theorem concurrent_allocations tr b ts :
  cexec ev (b0, replicate T (AtEntry K)) tr (b, ts) ->
  Forall (fun l => is_drop l = false) tr /\
  (length (alloc_idxs tr) <= T * K)%nat /\
  (Forall finished ts -> length (alloc_idxs tr) = (T * K)%nat) /\
  (length tr <= T * K * (4 * T + 1) + 3 * T)%nat /\
  (forall tid p, ts !! tid = Some p -> ~ finished p ->
     exists l c', cstep ev (b, ts) l c') /\
  alloc_idxs tr = cursor_seq (bt_curr b0) (bt_size b0) (length (alloc_idxs tr)) /\
  (Z.of_nat (T * K) <= bt_size b0 ->
     NoDup (alloc_idxs tr) /\
     forall tid1 tid2 todo1 todo2 idx,
       ts !! tid1 = Some (AtFill todo1 idx) ->
       ts !! tid2 = Some (AtFill todo2 idx) -> tid1 = tid2).
Proof.
  intros Hexec. pose proof (alloc_inv_exec tr (b, ts) Hexec) as Hinv.
  pose proof Hinv as (_ & _ & _ & _ & Hidx & Hnd & _ & Hsum & _ & Hown).
  simpl in *.
  split; [done|]. split; [lia|].
  split; [intros Hfin; rewrite (remaining_finished ts Hfin) in Hsum; lia|].
  split.
  { pose proof (cexec_length tr (b, ts) Hexec). pose proof steps_left_init. lia. }
  split; [intros tid p Hp Hfin; by eapply (alloc_inv_progress (b, ts))|].
  split; [done|].
  intros HTK.
  assert (NoDup (alloc_idxs tr)) as Hdup.
  { rewrite Hidx. apply NoDup_cursor_seq. lia. }
  split; [done|].
  intros tid1 tid2 todo1 todo2 idx H1 H2.
  pose proof (Hown _ _ _ H1) as Hin1. pose proof (Hown _ _ _ H2) as Hin2.
  assert (Alloc tid1 idx = Alloc tid2 idx) as [= ->]; [|done].
  by eapply (omap_NoDup_inj alloc_idx tr).
Qed.

End ConcurrentDotrace.

Lemma concurrent_allocations_witness :
  exists tr b ts,
    run_schedule ev_example [0; 1; 0; 1; 1; 0; 0; 1; 1; 1; 0; 1; 0; 0; 1; 0; 0; 1; 0; 1; 1; 1]%nat
                 (mk_bt 4 3 1 0 0 (malloc_zero 4), replicate 2 (AtEntry 2)) =
      Some (tr, (b, ts)) /\
    Forall finished ts /\
    Forall (fun l => is_drop l = false) tr /\
    length (alloc_idxs tr) = 4%nat /\
    alloc_idxs tr = [3; 0; 1; 2] /\
    NoDup (alloc_idxs tr).
Proof.
  destruct (run_schedule ev_example
              [0; 1; 0; 1; 1; 0; 0; 1; 1; 1; 0; 1; 0; 0; 1; 0; 0; 1; 0; 1; 1; 1]%nat
              (mk_bt 4 3 1 0 0 (malloc_zero 4), replicate 2 (AtEntry 2)))
    as [[tr [b ts]]|] eqn:Hrun; [|vm_compute in Hrun; discriminate Hrun].
  exists tr, b, ts. split; [reflexivity|].
  destruct (concurrent_allocations ev_example (mk_bt 4 3 1 0 0 (malloc_zero 4))
              (replicate 4 zero_event) 2 2
              ltac:(repeat split; simpl; lia) ltac:(simpl; lia) tr b ts
              (run_schedule_cexec ev_example _ _ _ _ Hrun))
    as (Hd & _ & Hn & _ & _ & Hseq & Hu).
  assert (Forall finished ts) as Hfin.
  { vm_compute in Hrun. injection Hrun as _ _ <-.
    repeat first [apply Forall_nil_2 | apply Forall_cons_2; [reflexivity|]]. }
  split; [exact Hfin|]. split; [exact Hd|]. split; [exact (Hn Hfin)|].
  split; [|apply Hu; simpl; lia].
  rewrite Hseq, (Hn Hfin). reflexivity.
Defined.

(** Two callers with two calls each on a table of two slots that wraps.
    Caller 0 wins slot 0 and is about to write it; caller 1 then completes a
    call in slot 1 and wins slot 0 as well: both own slot 0 at once. *)
Lemma concurrent_owners_share_slot :
  exists tr b,
    cexec ev_example (mk_bt 2 0 1 0 0 (malloc_zero 2), replicate 2 (AtEntry 2))
          tr (b, [AtFill 2 0; AtFill 1 0]) /\
    alloc_idxs tr = [0; 1; 0] /\
    ~ NoDup (alloc_idxs tr).
Proof.
  eexists _, _. split.
  - apply (run_schedule_cexec ev_example [0; 0; 0; 1; 1; 1; 1; 1; 1; 1]%nat).
    vm_compute. reflexivity.
  - split; [reflexivity|]. simpl. intros H.
    apply NoDup_cons in H as [H _]. apply H.
    apply elem_of_cons. right. apply elem_of_cons. by left.
Qed.

(** * Further properties of the code *)

(** ** Submissions that are dropped *)

Lemma dotrace_null s k btp eventname tdname :
  table (deref s btp) = None ->
  exists s',
    dotrace s k btp eventname tdname = Ok (ENOSPC, s') /\
    deref s' btp = incr_drops_early (deref s btp) /\
    (forall q, q <> btp -> deref s' q = deref s q) /\
    bootdone s' = bootdone s /\ shutdown s' = shutdown s.
Proof.
  intros Hnull. unfold dotrace.
  set (s1 := if bootarg_needs_init s then _ else s).
  assert (forall q, deref s1 q = deref s q) as Hs1.
  { intros q. subst s1. destruct (bootarg_needs_init s); [|done].
    apply deref_set_debugging. }
  assert (bootdone s1 = bootdone s /\ shutdown s1 = shutdown s) as [Hb Hd].
  { subst s1. by destruct (bootarg_needs_init s). }
  rewrite Hs1. unfold dotrace_table. rewrite Hnull. simpl.
  eexists. split; [done|]. split; [apply deref_assign_eq|].
  split; [|by destruct btp].
  intros q Hq. rewrite deref_assign_ne by done. apply Hs1.
Qed.

(** X1.  While a table has no storage, every submission into it is refused
    with ENOSPC and counted in [drops_early], modulo 2^32; the cursor, the
    size, the other counter, the other tables and the latches stay as they
    are. *)
Theorem dotrace_uninitialized_drops btp subs : forall s,
  table (deref s btp) = None ->
  0 <= drops_early (deref s btp) < 2 ^ 32 ->
  exists s',
    dotrace_all s btp subs = Ok (replicate (length subs) ENOSPC, s') /\
    deref s' btp =
      (let b := deref s btp in
       mk_bt (bt_size b) (bt_curr b) (bt_wrap b)
             (wrap32 (drops_early b + Z.of_nat (length subs))) (drops_full b) None) /\
    (forall q, q <> btp -> deref s' q = deref s q) /\
    bootdone s' = bootdone s /\ shutdown s' = shutdown s.
Proof.
  induction subs as [|[[k eventname] tdname] subs IH]; intros s Hnull Hd.
  - exists s. simpl. rewrite Z.add_0_r, wrap32_small by done.
    split; [done|]. split; [|done]. rewrite <- Hnull. by destruct (deref s btp).
  - destruct (dotrace_null s k btp eventname tdname Hnull)
      as (s1 & Hrun & Hb1 & Hq1 & Hbd1 & Hsd1).
    destruct (IH s1) as (s' & Hrun' & Hb' & Hq' & Hbd' & Hsd').
    { by rewrite Hb1. }
    { rewrite Hb1. simpl. apply Z.mod_pos_bound. lia. }
    exists s'. simpl dotrace_all. rewrite Hrun. simpl. rewrite Hrun'. simpl.
    split; [done|]. split; [|split; [|split; congruence]].
    + rewrite Hb', Hb1. simpl. f_equal.
      unfold wrap32. rewrite Zplus_mod_idemp_l. f_equal. lia.
    + intros q Hq. rewrite Hq', Hq1; done.
Qed.

Lemma dotrace_uninitialized_drops_witness :
  exists s',
    dotrace_all kstate0 BT subs_example = Ok (replicate 4 ENOSPC, s') /\
    deref s' BT = mk_bt 0 0 0 (wrap32 (0 + 4)) 0 None /\
    (forall q, q <> BT -> deref s' q = deref kstate0 q) /\
    bootdone s' = false /\ shutdown s' = false.
Proof.
  apply (dotrace_uninitialized_drops BT subs_example kstate0).
  - reflexivity.
  - simpl. lia.
Defined.

(** X2.  A table that does not wrap and whose cursor is at its last slot is
    full for good: every further submission is refused with ENOSPC and
    counted in [drops_full], modulo 2^32, and neither the slots nor the
    cursor change. *)
Theorem dotrace_full_stays_full btp subs : forall s t,
  bt_wf (deref s btp) t ->
  bt_wrap (deref s btp) = 0 ->
  bt_curr (deref s btp) + 1 = bt_size (deref s btp) ->
  0 <= drops_full (deref s btp) < 2 ^ 32 ->
  exists s',
    dotrace_all s btp subs = Ok (replicate (length subs) ENOSPC, s') /\
    deref s' btp =
      (let b := deref s btp in
       mk_bt (bt_size b) (bt_curr b) (bt_wrap b) (drops_early b)
             (wrap32 (drops_full b + Z.of_nat (length subs))) (Some t)) /\
    (forall q, q <> btp -> deref s' q = deref s q).
Proof.
  induction subs as [|[[k eventname] tdname] subs IH]; intros s t Hwf Hw Hlast Hd.
  - exists s. simpl. rewrite Z.add_0_r, wrap32_small by done.
    split; [done|]. split; [|done]. destruct Hwf as (Ht & _). rewrite <- Ht.
    by destruct (deref s btp).
  - pose proof Hwf as (Ht & Hl & Hc & Hs).
    destruct (dotrace_full s k btp eventname tdname t Hwf Hw Hlast)
      as (s1 & Hrun & Hb1 & Hq1 & _).
    destruct (IH s1 t) as (s' & Hrun' & Hb' & Hq').
    { rewrite Hb1. repeat split; simpl; lia || done. }
    { by rewrite Hb1. }
    { by rewrite Hb1. }
    { rewrite Hb1. simpl. apply Z.mod_pos_bound. lia. }
    exists s'. simpl dotrace_all. rewrite Hrun. simpl. rewrite Hrun'. simpl.
    split; [done|]. split.
    + rewrite Hb', Hb1. simpl. f_equal.
      unfold wrap32. rewrite Zplus_mod_idemp_l. f_equal. lia.
    + intros q Hq. rewrite Hq', Hq1; done.
Qed.

Lemma dotrace_full_stays_full_witness :
  exists s',
    dotrace_all full_boot_state BT subs_example = Ok (replicate 4 ENOSPC, s') /\
    deref s' BT = mk_bt 3 2 0 0 (wrap32 (0 + 4)) (Some (replicate 3 zero_event)) /\
    (forall q, q <> BT -> deref s' q = deref full_boot_state q).
Proof.
  apply (dotrace_full_stays_full BT subs_example full_boot_state
           (replicate 3 zero_event)).
  - repeat split; simpl; lia.
  - reflexivity.
  - reflexivity.
  - simpl. lia.
Defined.

(** ** The window of a table that wraps *)

(** X3.  On a table that wraps no submission is ever refused, however many
    are made: each returns 0, the drop counters stay as they are, the cursor
    advances by their number modulo the size, and the walk from the cursor
    reads the old walk followed by the new records, less as many of its
    oldest entries as there were submissions. *)
Theorem dotrace_wrap_window s btp t subs :
  bt_wf (deref s btp) t ->
  bt_wrap (deref s btp) <> 0 ->
  exists s' t',
    dotrace_all s btp subs = Ok (replicate (length subs) 0, s') /\
    bt_wf (deref s' btp) t' /\
    drops_early (deref s' btp) = drops_early (deref s btp) /\
    drops_full (deref s' btp) = drops_full (deref s btp) /\
    bt_curr (deref s' btp) =
      (bt_curr (deref s btp) + Z.of_nat (length subs)) mod bt_size (deref s btp) /\
    walk_order (deref s' btp) t' =
      drop (length subs) (walk_order (deref s btp) t ++ (submission_event <$> subs)) /\
    (forall q, q <> btp -> deref s' q = deref s q).
Proof.
  intros Hwf Hwrap.
  destruct (dotrace_all_owned btp subs s t Hwf (or_introl Hwrap))
    as (s' & t' & Hrun & Hwf' & _ & _ & Hde & Hdf & Hcu & Hwo & Hq).
  by exists s', t'.
Qed.

Lemma dotrace_wrap_window_witness :
  exists s' t',
    dotrace_all ring_example RT (take 2 subs_example) = Ok (replicate 2 0, s') /\
    bt_wf (deref s' RT) t' /\
    drops_early (deref s' RT) = 0 /\
    drops_full (deref s' RT) = 0 /\
    bt_curr (deref s' RT) = (1 + 2) mod 3 /\
    walk_order (deref s' RT) t' =
      drop 2 (walk_order (deref ring_example RT) (replicate 3 zero_event) ++
              (submission_event <$> take 2 subs_example)) /\
    (forall q, q <> RT -> deref s' q = deref ring_example q).
Proof.
  apply (dotrace_wrap_window ring_example RT (replicate 3 zero_event)
           (take 2 subs_example)).
  - repeat split; simpl; lia.
  - simpl. lia.
Defined.

(** ** The debugging flag *)

Lemma dotrace_flags s k p eventname tdname r s' :
  dotrace s k p eventname tdname = Ok (r, s') ->
  bootarg_needs_init s' = false /\
  dotrace_debugging s' =
    (if bootarg_needs_init s then print_dotrace k else dotrace_debugging s).
Proof.
  unfold dotrace. destruct (dotrace_table _ _) as [[r1 b1]|f]; simpl; [|done].
  intros [= <- <-]. by destruct (bootarg_needs_init s) eqn:Hn, p; simpl.
Qed.

Lemma step_flags s o s' :
  step s o = Ok s' ->
  bootarg_needs_init s = false ->
  bootarg_needs_init s' = false /\ dotrace_debugging s' = dotrace_debugging s.
Proof.
  intros Hstep Hn.
  assert (forall s0 k e td r s1,
            boottrace s0 k e td = Ok (r, s1) -> bootarg_needs_init s0 = false ->
            bootarg_needs_init s1 = false /\
            dotrace_debugging s1 = dotrace_debugging s0) as Hboot.
  { intros s0 k e td r s1 H H0. apply dotrace_flags in H. by rewrite H0 in H. }
  assert (forall s0 k e td r s1,
            runtrace s0 k e td = Ok (r, s1) -> bootarg_needs_init s0 = false ->
            bootarg_needs_init s1 = false /\
            dotrace_debugging s1 = dotrace_debugging s0) as Hrunt.
  { intros s0 k e td r s1. unfold runtrace.
    destruct (boottrace s0 k e td) as [[r1 s2]|f] eqn:H; simpl; [|done].
    intros [= <- <-] H0. by apply (Hboot _ _ _ _ _ _ H). }
  assert (forall s0 k a s1,
            boottrace_reset s0 k a = Ok s1 -> bootarg_needs_init s0 = false ->
            bootarg_needs_init s1 = false /\
            dotrace_debugging s1 = dotrace_debugging s0) as Hreset.
  { intros s0 k a s1. unfold boottrace_reset.
    destruct (runtrace s0 k _ None) as [[r1 s2]|f] eqn:H; simpl; [|done].
    intros [= <-] H0. by apply (Hrunt _ _ _ _ _ _ H). }
  destruct o as [k e td|k e td|k e td|k actor|k n ok]; simpl in Hstep.
  - destruct (boottrace s k e td) as [[r s1]|f] eqn:H; simpl in Hstep; [|done].
    injection Hstep as <-. by eapply Hboot.
  - destruct (runtrace s k e td) as [[r s1]|f] eqn:H; simpl in Hstep; [|done].
    injection Hstep as <-. by eapply Hrunt.
  - destruct (shuttrace s k e td) as [[r s1]|f] eqn:H; simpl in Hstep; [|done].
    injection Hstep as <-. unfold shuttrace in H. apply dotrace_flags in H.
    simpl in H. by rewrite Hn in H.
  - by eapply Hreset.
  - unfold boottrace_resize in Hstep.
    destruct (n <=? bt_size (rt s)); simpl in Hstep; [by injection Hstep as <-|].
    destruct ok; simpl in Hstep; [|by injection Hstep as <-].
    destruct (boottrace_reset _ _ _) as [s3|f] eqn:Hr; simpl in Hstep; [|done].
    injection Hstep as <-. by apply Hreset in Hr.
Qed.

(** X4.  The kernel environment is asked for "bootarg.print_dotrace" by the
    first call of [dotrace] only: that call clears [bootarg_needs_init], and
    through every later call of the file [dotrace_debugging] keeps the value
    it was given then. *)
Theorem dotrace_debugging_read_once s k p eventname tdname r s1 ops s2 :
  dotrace s k p eventname tdname = Ok (r, s1) ->
  run s1 ops = Ok s2 ->
  bootarg_needs_init s2 = false /\
  dotrace_debugging s2 =
    (if bootarg_needs_init s then print_dotrace k else dotrace_debugging s).
Proof.
  intros Hfirst Hrun. apply dotrace_flags in Hfirst as [Hn <-].
  revert s1 Hn Hrun. induction ops as [|o ops IH]; intros s1 Hn; simpl.
  - by intros [= <-].
  - destruct (step s1 o) as [s3|f] eqn:Hs; simpl; [|done]. intros Hrun.
    destruct (step_flags _ _ _ Hs Hn) as [Hn3 <-]. by apply IH.
Qed.

Lemma dotrace_debugging_read_once_witness :
  exists s1 s2,
    dotrace kstate0 (mk_kctx 0 1 0 1 false 0 0 0 0 0 0 0 0 "t" "c" 0 None true 1 0 0)
            BT "first" None = Ok (ENOSPC, s1) /\
    run s1 [Boottrace (k_example 2) "second" None;
            Shuttrace (k_example 3) "third" None] = Ok s2 /\
    bootarg_needs_init s2 = false /\
    dotrace_debugging s2 = true.
Proof.
  pose proof (dotrace_debugging_read_once kstate0
                (mk_kctx 0 1 0 1 false 0 0 0 0 0 0 0 0 "t" "c" 0 None true 1 0 0)
                BT "first" None ENOSPC _
                [Boottrace (k_example 2) "second" None;
                 Shuttrace (k_example 3) "third" None] _ eq_refl eq_refl) as H.
  eexists _, _. split; [reflexivity|]. split; [reflexivity|]. exact H.
Defined.

(** ** The record of a submission *)

Lemma length_substring_0 n s :
  String.length (substring 0 n s) = Nat.min n (String.length s).
Proof.
  revert s. induction n as [|n IH]; intros [|c s]; simpl; try done.
  by rewrite IH.
Qed.

Lemma substring_0_all n s :
  (String.length s <= n)%nat -> substring 0 n s = s.
Proof.
  revert s. induction n as [|n IH]; intros [|c s]; simpl; try done; [lia|].
  intros H. rewrite IH; [done|lia].
Qed.

Lemma prefix_substring_0 n s : String.prefix (substring 0 n s) s = true.
Proof.
  revert s. induction n as [|n IH]; intros [|c s]; simpl; try done.
  destruct (ascii_dec c c); [apply IH|done].
Qed.

(** X5.  A submission that returns 0 has written one slot, the one at the
    cursor, and nothing else of the table.  The names of the record are
    prefixes of the names given, cut to 39 and 23 characters, and whole when
    they are shorter; the counters fit their 32 and 64 bits; for the kernel's
    proc0 and inside a critical section the resource usage is zero. *)
Theorem dotrace_record_bounds s k btp eventname td s' t :
  bt_wf (deref s btp) t ->
  dotrace s k btp eventname (Some td) = Ok (0, s') ->
  exists e,
    table (deref s' btp) = Some (<[Z.to_nat (bt_curr (deref s btp)) := e]> t) /\
    (String.length (name e) <= 39)%nat /\ (String.length (tdname e) <= 23)%nat /\
    String.prefix (name e) eventname = true /\ String.prefix (tdname e) td = true /\
    ((String.length eventname <= 39)%nat -> name e = eventname) /\
    ((String.length td <= 23)%nat -> tdname e = td) /\
    0 <= cputime e < 2 ^ 32 /\ 0 <= inblock e < 2 ^ 32 /\
    0 <= oublock e < 2 ^ 32 /\ 0 <= tick e < 2 ^ 64 /\
    tsc e = cyclecount k /\ cpuid e = pcpu_cpuid k /\ pid e = p_pid k /\
    (is_proc0 k = true \/ td_critnest k <> 0 ->
       cputime e = 0 /\ inblock e = 0 /\ oublock e = 0).
Proof.
  intros Hwf Hrun. pose proof Hwf as (Ht & Hl & Hc & Hs).
  destruct (decide (bt_wrap (deref s btp) = 0 /\
                    bt_curr (deref s btp) + 1 = bt_size (deref s btp)))
    as [[Hw Hlast]|Hfree].
  { destruct (dotrace_full s k btp eventname (Some td) t Hwf Hw Hlast)
      as (s2 & Hrun2 & _). rewrite Hrun2 in Hrun. discriminate Hrun. }
  destruct (dotrace_owned s k btp eventname (Some td) t Hwf)
    as (s2 & Hrun2 & Hb2 & _); [lia|].
  rewrite Hrun2 in Hrun. injection Hrun as <-.
  eexists. split; [by rewrite Hb2|]. simpl.
  unfold strlcpy, BT_EVENT_NAMELEN, BT_EVENT_TDNAMELEN. simpl Nat.sub.
  rewrite !length_substring_0.
  split; [lia|]. split; [lia|].
  split; [apply prefix_substring_0|]. split; [apply prefix_substring_0|].
  split; [apply substring_0_all|]. split; [apply substring_0_all|].
  assert (forall z, 0 <= (if is_proc0 k || negb (td_critnest k =? 0) then 0
                          else wrap32 z) < 2 ^ 32) as Hwrap.
  { intros z. destruct (_ || _); [lia|]. apply Z.mod_pos_bound. lia. }
  split; [apply Hwrap|]. split; [apply Hwrap|]. split; [apply Hwrap|].
  split; [apply Z.mod_pos_bound; lia|].
  do 3 (split; [done|]).
  intros Hq. assert (is_proc0 k || negb (td_critnest k =? 0) = true) as ->; [|done].
  destruct Hq as [->|Hq]; [done|]. apply orb_true_iff. right.
  by destruct (Z.eqb_spec (td_critnest k) 0).
Qed.

Lemma dotrace_record_bounds_witness :
  exists s' e,
    dotrace ring_example (k_example 10) RT
            "an event name that is longer than the thirty-nine characters kept"
            (Some "kernel"%string) = Ok (0, s') /\
    table (deref s' RT) = Some (<[1%nat := e]> (replicate 3 zero_event)) /\
    (String.length (name e) <= 39)%nat /\
    tdname e = "kernel"%string.
Proof.
  destruct (dotrace_record_bounds ring_example (k_example 10) RT
              "an event name that is longer than the thirty-nine characters kept"
              "kernel" _ (replicate 3 zero_event)
              ltac:(repeat split; simpl; lia) eq_refl)
    as (e & Ht & Hn & _ & _ & _ & _ & Htd & _).
  eexists _, e. split; [reflexivity|]. split; [exact Ht|]. split; [exact Hn|].
  apply Htd. simpl. lia.
Defined.

(** ** Initialisation and what follows it *)

(** X6.  After [boottrace_init] no history of calls faults, and it leaves
    each table either without storage, which only a resize that got no
    memory brings about, or with as many slots as its size says and its
    cursor on one of them. *)
Theorem history_keeps_tables_in_shape k tunable ops :
  Forall op_ok ops ->
  exists s0 s',
    boottrace_init kstate0 k tunable = Ok s0 /\
    run s0 ops = Ok s' /\
    state_ok s0 /\ state_ok s'.
Proof.
  intros Hops.
  destruct (boottrace_init_ok kstate0 k tunable) as (s0 & Hinit & Hok0);
    [simpl; unfold BT_TABLE_RUNSIZE; lia|simpl; unfold BT_TABLE_SHTSIZE; lia|].
  destruct (run_ok ops s0 Hok0 Hops) as (s' & Hrun & Hok').
  by exists s0, s'.
Qed.

Lemma history_keeps_tables_in_shape_witness :
  exists s0 s',
    boottrace_init kstate0 (k_example 1) (Some 1) = Ok s0 /\
    run s0 [Boottrace (k_example 2) "a" None; Resize (k_example 3) 2500 true;
            Resize (k_example 4) 2600 false; Runtrace (k_example 5) "b" None;
            Shuttrace (k_example 6) "c" None] = Ok s' /\
    state_ok s0 /\ state_ok s'.
Proof.
  apply (history_keeps_tables_in_shape (k_example 1) (Some 1)).
  repeat (apply Forall_cons_2; [simpl; try lia; exact I|]). apply Forall_nil_2.
Defined.

Lemma store_slot_size b i e b' :
  store_slot b i e = Ok b' -> bt_size b' = bt_size b.
Proof.
  unfold store_slot. destruct (table b); [|done].
  destruct (_ && _); [|done]. by intros [= <-].
Qed.

Lemma boottrace_init_bt_size s k tunable s' :
  boottrace_init s k tunable = Ok s' ->
  bt_size (bt s') =
    max (bt_size (match tunable with
                  | Some v => set_size (set_size (bt s) BT_TABLE_DEFSIZE) (wrap32 v)
                  | None => set_size (bt s) BT_TABLE_DEFSIZE
                  end)) BT_TABLE_MINSIZE.
Proof.
  unfold boottrace_init.
  remember (malloc_zero BT_TABLE_RUNSIZE) as mr eqn:Hmr.
  remember (malloc_zero BT_TABLE_SHTSIZE) as ms eqn:Hms.
  destruct (store_slot _ _ _) as [b|f] eqn:Hst; simpl; [|done].
  intros [= <-]. simpl. by apply store_slot_size in Hst.
Qed.

(** X7.  [boottrace_init] gives the boot table the size of the tunable
    "boottrace-table-size" read as an unsigned number, 3000 without it, and
    never less than 500; the run table gets 2000 slots and wraps, the
    shutdown table 1000 slots and does not. *)
Theorem boottrace_init_sizes k tunable :
  exists s',
    boottrace_init kstate0 k tunable = Ok s' /\
    bt_size (bt s') =
      max (match tunable with Some v => wrap32 v | None => 3000 end) 500 /\
    500 <= bt_size (bt s') < 2 ^ 32 /\
    (forall v, tunable = Some v -> 500 <= v < 2 ^ 32 -> bt_size (bt s') = v) /\
    (forall v, tunable = Some v -> 0 <= v < 500 -> bt_size (bt s') = 500) /\
    (forall v, tunable = Some v -> - 2 ^ 31 <= v < 0 ->
       bt_size (bt s') = 2 ^ 32 + v) /\
    bt_wrap (bt s') = 0 /\
    rt s' = mk_bt 2000 0 1 0 0 (Some (replicate 2000 zero_event)) /\
    st s' = mk_bt 1000 0 0 0 0 (Some (replicate 1000 zero_event)) /\
    bootdone s' = false /\ shutdown s' = false.
Proof.
  destruct (boottrace_init_shape kstate0 k tunable) as (n & Hn & Hn32 & Hinit).
  eexists. split; [exact Hinit|]. simpl.
  assert (Z.of_nat (S n) =
          max (match tunable with Some v => wrap32 v | None => 3000 end) 500) as Hsz.
  { pose proof (boottrace_init_bt_size _ _ _ _ Hinit) as H. simpl in H.
    rewrite H. by destruct tunable. }
  split; [exact Hsz|]. split; [lia|].
  split; [|split; [|split]]; try done.
  - intros v -> Hv. rewrite Hsz. unfold max. rewrite wrap32_small by lia.
    destruct (Z.gtb_spec v 500); lia.
  - intros v -> Hv. rewrite Hsz. unfold max. rewrite wrap32_small by lia.
    destruct (Z.gtb_spec v 500); lia.
  - intros v -> Hv. rewrite Hsz. unfold max, wrap32.
    replace (v mod 2 ^ 32) with (2 ^ 32 + v).
    2:{ symmetry. replace v with (2 ^ 32 + v + (-1) * 2 ^ 32) at 1 by lia.
        rewrite Z.mod_add by lia. apply Z.mod_small. lia. }
    destruct (Z.gtb_spec (2 ^ 32 + v) 500); lia.
Qed.

(** ** Sizes and policies *)

Lemma dotrace_table_geometry b e r b' :
  dotrace_table b e = Ok (r, b') ->
  bt_size b' = bt_size b /\ bt_wrap b' = bt_wrap b.
Proof.
  unfold dotrace_table. destruct (table b); [|by intros [= _ <-]].
  simpl. destruct (next_index b (bt_curr b)) as [nxt|f]; simpl; [|done].
  destruct (_ && _); simpl; [by intros [= _ <-]|].
  rewrite atomic_cmpset_int_same. simpl. unfold store_slot. simpl.
  destruct (table b); [|done]. destruct (_ && _); simpl; [|done].
  by intros [= _ <-].
Qed.

Lemma dotrace_geometry s k p eventname tdname r s' q :
  dotrace s k p eventname tdname = Ok (r, s') ->
  bt_size (deref s' q) = bt_size (deref s q) /\
  bt_wrap (deref s' q) = bt_wrap (deref s q).
Proof.
  intros H.
  assert (q = p \/ q <> p) as [->|Hne] by (destruct q, p; (by left) || (by right)).
  - revert H. unfold dotrace.
    destruct (dotrace_table _ _) as [[r1 b1]|f] eqn:Ht; simpl; [|done].
    intros [= _ <-]. rewrite deref_assign_eq.
    apply dotrace_table_geometry in Ht.
    by destruct (bootarg_needs_init s), p.
  - destruct (dotrace_frame _ _ _ _ _ _ _ H) as (_ & Hq & _).
    by rewrite Hq.
Qed.

Lemma step_geometry s o s' :
  step s o = Ok s' ->
  bt_size (bt s') = bt_size (bt s) /\ bt_size (st s') = bt_size (st s) /\
  bt_size (rt s) <= bt_size (rt s') /\
  forall q, bt_wrap (deref s' q) = bt_wrap (deref s q).
Proof.
  assert (forall s0 k e td r s1,
            boottrace s0 k e td = Ok (r, s1) ->
            forall q, bt_size (deref s1 q) = bt_size (deref s0 q) /\
                      bt_wrap (deref s1 q) = bt_wrap (deref s0 q)) as Hboot.
  { intros s0 k e td r s1 H q. by eapply dotrace_geometry. }
  assert (forall s0 k e td r s1,
            runtrace s0 k e td = Ok (r, s1) ->
            forall q, bt_size (deref s1 q) = bt_size (deref s0 q) /\
                      bt_wrap (deref s1 q) = bt_wrap (deref s0 q)) as Hrunt.
  { intros s0 k e td r s1. unfold runtrace.
    destruct (boottrace s0 k e td) as [[r1 s2]|f] eqn:H; simpl; [|done].
    intros [= <- <-] q. destruct (Hboot _ _ _ _ _ _ H q). by destruct q. }
  assert (forall s0 k a s1,
            boottrace_reset s0 k a = Ok s1 ->
            forall q, bt_size (deref s1 q) = bt_size (deref s0 q) /\
                      bt_wrap (deref s1 q) = bt_wrap (deref s0 q)) as Hreset.
  { intros s0 k a s1. unfold boottrace_reset.
    destruct (runtrace s0 k _ None) as [[r1 s2]|f] eqn:H; simpl; [|done].
    intros [= <-]. by eapply Hrunt. }
  assert (forall s0 s1,
            (forall q, bt_size (deref s1 q) = bt_size (deref s0 q) /\
                       bt_wrap (deref s1 q) = bt_wrap (deref s0 q)) ->
            bt_size (bt s1) = bt_size (bt s0) /\ bt_size (st s1) = bt_size (st s0) /\
            bt_size (rt s0) <= bt_size (rt s1) /\
            forall q, bt_wrap (deref s1 q) = bt_wrap (deref s0 q)) as Hall.
  { intros s0 s1 H. destruct (H BT) as [? _], (H RT) as [? _], (H ST) as [? _].
    simpl in *. repeat split; try lia. intros q. by destruct (H q). }
  destruct o as [k e td|k e td|k e td|k actor|k n ok]; simpl.
  - destruct (boottrace s k e td) as [[r s1]|f] eqn:H; simpl; [|done].
    intros [= <-]. apply Hall. by eapply Hboot.
  - destruct (runtrace s k e td) as [[r s1]|f] eqn:H; simpl; [|done].
    intros [= <-]. apply Hall. by eapply Hrunt.
  - destruct (shuttrace s k e td) as [[r s1]|f] eqn:H; simpl; [|done].
    intros [= <-]. apply Hall. intros q. unfold shuttrace in H.
    destruct (dotrace_geometry _ _ _ _ _ _ _ q H). by destruct q.
  - intros H. apply Hall. by eapply Hreset.
  - unfold boottrace_resize.
    destruct (Z.leb_spec n (bt_size (rt s))); simpl;
      [intros [= <-]; repeat split; lia || done|].
    destruct ok; simpl.
    + destruct (boottrace_reset _ _ _) as [s3|f] eqn:Hr; simpl; [|done].
      intros [= <-]. pose proof (Hreset _ _ _ _ Hr) as Hq.
      destruct (Hq BT) as [? _], (Hq RT) as [? _], (Hq ST) as [? _].
      simpl in *. repeat split; try lia. intros q. destruct (Hq q) as [_ ->].
      by destruct q.
    + intros [= <-]. simpl. repeat split; try lia. intros q. by destruct q.
Qed.

(** X8.  Through any history of calls the boot and the shutdown table keep
    their size, the run table never shrinks, and no table changes its wrap
    policy. *)
Theorem history_sizes ops : forall s s',
  run s ops = Ok s' ->
  bt_size (bt s') = bt_size (bt s) /\ bt_size (st s') = bt_size (st s) /\
  bt_size (rt s) <= bt_size (rt s') /\
  forall q, bt_wrap (deref s' q) = bt_wrap (deref s q).
Proof.
  induction ops as [|o ops IH]; intros s s'; simpl.
  - intros [= <-]. repeat split; lia || done.
  - destruct (step s o) as [s1|f] eqn:Hs; simpl; [|done]. intros Hrun.
    destruct (step_geometry _ _ _ Hs) as (H1 & H2 & H3 & H4).
    destruct (IH _ _ Hrun) as (H1' & H2' & H3' & H4').
    repeat split; try lia. intros q. by rewrite H4', H4.
Qed.

Lemma history_sizes_witness :
  exists s',
    run running_state [Resize (k_example 3) 8 true; Resize (k_example 4) 5 true;
                       Runtrace (k_example 5) "b" None] = Ok s' /\
    bt_size (bt s') = 3 /\ bt_size (st s') = 3 /\ 3 <= bt_size (rt s') /\
    forall q, bt_wrap (deref s' q) = bt_wrap (deref running_state q).
Proof.
  eexists. split; [reflexivity|].
  exact (history_sizes
           [Resize (k_example 3) 8 true; Resize (k_example 4) 5 true;
            Runtrace (k_example 5) "b" None] running_state _ eq_refl).
Defined.

(** ** The boot table from its seed to its last record *)

(** Submissions that stay below the last slot fill the slots from the cursor
    on, one after the other. *)
Lemma dotrace_all_linear btp subs : forall s t,
  bt_wf (deref s btp) t ->
  bt_curr (deref s btp) + Z.of_nat (length subs) < bt_size (deref s btp) ->
  exists s',
    dotrace_all s btp subs = Ok (replicate (length subs) 0, s') /\
    deref s' btp =
      (let b := deref s btp in
       mk_bt (bt_size b) (bt_curr b + Z.of_nat (length subs)) (bt_wrap b)
             (drops_early b) (drops_full b)
             (Some (take (Z.to_nat (bt_curr b)) t ++ (submission_event <$> subs) ++
                    drop (Z.to_nat (bt_curr b) + length subs) t))) /\
    (forall q, q <> btp -> deref s' q = deref s q) /\
    bootdone s' = bootdone s /\ shutdown s' = shutdown s.
Proof.
  induction subs as [|[[k eventname] tdname] subs IH]; intros s t Hwf Hlt.
  - exists s. simpl. pose proof Hwf as (Ht & _).
    rewrite Z.add_0_r, Nat.add_0_r, take_drop, <- Ht.
    split; [done|]. split; [by destruct (deref s btp)|done].
  - pose proof Hwf as (Ht & Hl & Hc & Hs). rewrite length_cons in Hlt.
    destruct (dotrace_owned s k btp eventname tdname t Hwf)
      as (s1 & Hrun & Hb1 & Hq1 & Hbd1 & Hsd1); [right; lia|].
    set (e := submission_event (k, eventname, tdname)) in *.
    pose proof (bt_wf_owned _ _ e Hwf) as Hwf1.
    simpl in Hb1. rewrite <- Hb1 in Hwf1.
    destruct (IH s1 _ Hwf1) as (s' & Hrun' & Hb' & Hq' & Hbd' & Hsd').
    { rewrite Hb1. simpl. rewrite Z.mod_small; lia. }
    exists s'. simpl dotrace_all. rewrite Hrun. simpl. rewrite Hrun'. simpl.
    split; [done|]. split; [|split; [|split; congruence]].
    + rewrite Hb', Hb1. simpl. rewrite Z.mod_small by lia. f_equal; [lia|].
      f_equal.
      replace (Z.to_nat (bt_curr (deref s btp) + 1))
        with (S (Z.to_nat (bt_curr (deref s btp)))) by lia.
      rewrite (take_S_r _ _ e) by (apply list_lookup_insert_eq; lia).
      rewrite take_insert_ge by lia. rewrite drop_insert_lt by lia.
      rewrite <- app_assoc. simpl. do 3 f_equal. f_equal. lia.
    + intros q Hq. rewrite Hq', Hq1; done.
Qed.

(** While the system boots in peace [boottrace] is [dotrace] on the boot
    table. *)
Lemma boottrace_all_boot subs : forall s,
  bootdone s = false -> shutdown s = false ->
  Forall (fun sub : submission => calm sub.1.1) subs ->
  boottrace_all s subs = dotrace_all s BT subs.
Proof.
  induction subs as [|[[k eventname] tdname] subs IH]; intros s Hb Hs Hcalm; [done|].
  apply Forall_cons in Hcalm as [[Hr Hp] Hcalm]. simpl in Hr, Hp. simpl.
  assert (boottrace s k eventname tdname = dotrace s k BT eventname tdname) as ->.
  { unfold boottrace, boottrace_trace, in_shutdown. by rewrite Hb, Hs, Hr, Hp. }
  destruct (dotrace s k BT eventname tdname) as [[r s1]|f] eqn:Hd; simpl; [|done].
  destruct (dotrace_frame _ _ _ _ _ _ _ Hd) as (_ & _ & Hb1 & Hs1).
  rewrite IH; [done|congruence|congruence|done].
Qed.

(** X9.  A boot table of [size] slots records [size - 2] events: the seeded
    entry keeps slot 0, the events of a system that boots in peace fill the
    slots 1 to [size - 2] in order, and the next one is refused with ENOSPC
    without a change to the slots; the last slot is never written. *)
Theorem boot_table_capacity k tunable s0 subs k' eventname tdname :
  boottrace_init kstate0 k tunable = Ok s0 ->
  Forall (fun sub : submission => calm sub.1.1) subs -> calm k' ->
  Z.of_nat (length subs) + 2 = bt_size (bt s0) ->
  exists s1 s2,
    boottrace_all s0 subs = Ok (replicate (length subs) 0, s1) /\
    table (bt s1) =
      Some (initial_event k :: (submission_event <$> subs) ++ [zero_event]) /\
    boottrace s1 k' eventname tdname = Ok (ENOSPC, s2) /\
    table (bt s2) = table (bt s1) /\
    drops_full (bt s2) = 1.
Proof.
  intros Hinit Hcalm [Hr Hp] Hlen.
  destruct (boottrace_init_shape kstate0 k tunable) as (n & Hn & Hn32 & Hinit').
  rewrite Hinit' in Hinit. injection Hinit as <-. simpl in Hlen.
  match goal with |- context [boottrace_all ?s _] => set (s0 := s) end.
  assert (bt_wf (deref s0 BT) (initial_event k :: replicate n zero_event)) as Hwf.
  { repeat split; simpl; try lia. rewrite length_replicate. lia. }
  destruct (dotrace_all_linear BT subs s0 _ Hwf) as (s1 & Hrun & Hb1 & Hq1 & Hbd1 & Hsd1).
  { simpl. lia. }
  simpl in Hb1.
  assert (bt_wf (deref s1 BT)
            (initial_event k :: (submission_event <$> subs) ++ [zero_event])) as Hwf1.
  { change (deref s1 BT) with (bt s1). rewrite Hb1.
    split; [|repeat split; simpl; rewrite ?length_app, ?length_fmap; simpl; lia].
    simpl. do 2 f_equal. change (Z.to_nat 1) with 1%nat. simpl. f_equal.
    rewrite drop_replicate. by replace (n - length subs)%nat with 1%nat by lia. }
  destruct (dotrace_full s1 k' BT eventname tdname _ Hwf1) as (s2 & Hrun2 & Hb2 & _).
  { change (deref s1 BT) with (bt s1). by rewrite Hb1. }
  { change (deref s1 BT) with (bt s1). rewrite Hb1. simpl. lia. }
  exists s1, s2. rewrite boottrace_all_boot by done.
  split; [exact Hrun|]. split; [by destruct Hwf1|].
  assert (boottrace s1 k' eventname tdname = dotrace s1 k' BT eventname tdname) as ->.
  { unfold boottrace, boottrace_trace, in_shutdown. by rewrite Hbd1, Hsd1, Hr, Hp. }
  split; [exact Hrun2|]. change (bt s2) with (deref s2 BT).
  rewrite Hb2. change (deref s1 BT) with (bt s1). split; [done|].
  rewrite Hb1. reflexivity.
Qed.

Lemma boot_table_capacity_witness :
  exists s0 s1 s2,
    boottrace_init kstate0 (k_example 1) (Some 1) = Ok s0 /\
    bt_size (bt s0) = 500 /\
    boottrace_all s0 (replicate 498 (k_example 2, "e"%string, None)) =
      Ok (replicate 498 0, s1) /\
    boottrace s1 (k_example 3) "late" None = Ok (ENOSPC, s2) /\
    table (bt s2) = table (bt s1).
Proof.
  destruct (boottrace_init kstate0 (k_example 1) (Some 1)) as [s0|] eqn:Hinit;
    [|vm_compute in Hinit; discriminate Hinit].
  assert (bt_size (bt s0) = 500) as Hsz.
  { vm_compute in Hinit. by injection Hinit as <-. }
  destruct (boot_table_capacity (k_example 1) (Some 1) s0
              (replicate 498 (k_example 2, "e"%string, None))
              (k_example 3) "late" None Hinit)
    as (s1 & s2 & H1 & _ & H3 & H4 & _).
  - by apply Forall_replicate.
  - done.
  - rewrite Hsz, length_replicate. reflexivity.
  - exists s0, s1, s2. rewrite length_replicate in H1. done.
Defined.

(** ** The boot table after boot *)

Lemma step_boot_frozen s o s' :
  step s o = Ok s' ->
  bootdone s = true \/ shutdown s = true ->
  bt s' = bt s /\ (bootdone s' = true \/ shutdown s' = true).
Proof.
  intros Hstep Hlatch.
  assert (forall k, boottrace_trace s k <> BT) as Hnot.
  { intros k. unfold boottrace_trace, in_shutdown.
    destruct Hlatch as [->| ->]; simpl; [by destruct (_ || _)|done]. }
  destruct (step_latches _ _ _ Hstep) as [Hsd Hbd].
  split; [|destruct Hlatch; auto].
  destruct o as [k e td|k e td|k e td|k actor|k n ok]; simpl in Hstep.
  - destruct (boottrace s k e td) as [[r s1]|f] eqn:H; simpl in Hstep; [|done].
    injection Hstep as <-. destruct (boottrace_frame _ _ _ _ _ _ H) as (_ & Hq & _).
    apply (Hq BT). intros H'; exact (Hnot k (eq_sym H')).
  - destruct (runtrace s k e td) as [[r s1]|f] eqn:H; simpl in Hstep; [|done].
    injection Hstep as <-. destruct (runtrace_frame _ _ _ _ _ _ H) as (_ & Hq & _).
    apply (Hq BT). intros H'; exact (Hnot k (eq_sym H')).
  - destruct (shuttrace s k e td) as [[r s1]|f] eqn:H; simpl in Hstep; [|done].
    injection Hstep as <-. destruct (shuttrace_frame _ _ _ _ _ _ H) as (_ & Hq & _).
    by apply (Hq BT).
  - destruct (boottrace_reset_frame _ _ _ _ Hstep) as (Hq & _).
    apply (Hq BT). intros H'; exact (Hnot k (eq_sym H')).
  - unfold boottrace_resize in Hstep.
    destruct (n <=? bt_size (rt s)); simpl in Hstep; [by injection Hstep as <-|].
    destruct ok; simpl in Hstep; [|by injection Hstep as <-].
    destruct (boottrace_reset _ _ _) as [s3|f] eqn:Hr; simpl in Hstep; [|done].
    injection Hstep as <-. destruct (boottrace_reset_frame _ _ _ _ Hr) as (Hq & _).
    change (bt s3) with (deref s3 BT). rewrite (Hq BT); [done|].
    intros H'. exact (Hnot k (eq_sym H')).
Qed.

(** X10.  Once boot is complete, or shutdown has begun, nothing writes the
    boot table any more: through any history of calls its slots, its cursor
    and its counters stay as they are. *)
Theorem boot_table_frozen ops : forall s s',
  run s ops = Ok s' ->
  bootdone s = true \/ shutdown s = true ->
  bt s' = bt s.
Proof.
  induction ops as [|o ops IH]; intros s s'; simpl; [by intros [= <-]|].
  destruct (step s o) as [s1|f] eqn:Hs; simpl; [|done]. intros Hrun Hlatch.
  destruct (step_boot_frozen _ _ _ Hs Hlatch) as [<- Hlatch1]. by eapply IH.
Qed.

Lemma boot_table_frozen_witness :
  exists s',
    run running_state [Boottrace (k_example 2) "a" None; Resize (k_example 3) 8 true;
                       Shuttrace (k_example 5) "b" None;
                       Boottrace (k_example 6) "c" None] = Ok s' /\
    bt s' = bt running_state.
Proof.
  eexists. split; [reflexivity|].
  apply (boot_table_frozen
           [Boottrace (k_example 2) "a" None; Resize (k_example 3) 8 true;
            Shuttrace (k_example 5) "b" None; Boottrace (k_example 6) "c" None]
           running_state _ eq_refl).
  by left.
Defined.

(** ** Messages from userspace *)

Lemma length_string_append s1 s2 :
  String.length (String.append s1 s2) = (String.length s1 + String.length s2)%nat.
Proof. induction s1 as [|c s1 IH]; simpl; [done|]. by rewrite IH. Qed.

Lemma substring_0_append s1 s2 :
  substring 0 (String.length s1) (String.append s1 s2) = s1.
Proof.
  induction s1 as [|c s1 IH]; simpl; [by destruct s2|]. by rewrite IH.
Qed.

Lemma substring_skip_append s1 s2 m :
  substring (String.length s1) m (String.append s1 s2) = substring 0 m s2.
Proof. induction s1 as [|c s1 IH]; simpl; [done|]. exact IH. Qed.

Lemma prefix_colon b s :
  String.prefix ":" (String b s) = Ascii.eqb b ":".
Proof.
  change (String.prefix ":" (String b s))
    with (if ascii_dec ":" b then String.prefix "" s else false).
  destruct (ascii_dec ":" b) as [<-|Hne].
  - by destruct s.
  - symmetry. apply Ascii.eqb_neq. congruence.
Qed.

(** [strchr(message, ':')]: the first colon, if there is one. *)
Lemma index_colon s :
  match index 0 ":" s with
  | Some n =>
      has_char ":" s = true /\
      has_char ":" (substring 0 n s) = false /\
      s = String.append (substring 0 n s)
            (String ":" (substring (S n) (String.length s - S n) s))
  | None => has_char ":" s = false
  end.
Proof.
  induction s as [|b s IH]; [done|].
  cbn [index]. rewrite prefix_colon. cbn [has_char].
  destruct (Ascii.eqb_spec b ":") as [->|Hne].
  - cbn. split; [done|]. split; [done|]. f_equal.
    rewrite Nat.sub_0_r. symmetry. by apply substring_0_all.
  - destruct (index 0 ":" s) as [n|]; [|done].
    destruct IH as (Hc & Hpre & Heq). cbn [orb].
    split; [done|]. split.
    + cbn. destruct (Ascii.eqb_spec b ":"); [done|]. exact Hpre.
    + cbn [substring String.length Nat.sub String.append]. f_equal. exact Heq.
Qed.

Lemma parse_message_of_join k td ev :
  has_char ":" td = false ->
  boottrace_parse_message k (String.append td (String ":" ev)) = (ev, td).
Proof.
  intros Htd. unfold boottrace_parse_message.
  pose proof (index_colon (String.append td (String ":" ev))) as H.
  destruct (index 0 ":" _) as [n|].
  2:{ exfalso. revert H. clear -Htd. induction td as [|c td IH]; simpl.
      - done.
      - simpl in Htd. apply orb_false_iff in Htd as [-> Htd]. simpl. by apply IH. }
  destruct H as (_ & Hpre & Heq).
  assert (n = String.length td) as ->.
  { revert n Hpre Heq. clear -Htd. induction td as [|c td IH]; intros n Hpre Heq.
    - destruct n as [|n]; [done|]. simpl in Hpre. discriminate Hpre.
    - simpl in Htd. apply orb_false_iff in Htd as [Hc Htd].
      destruct n as [|n]; simpl in Heq; [injection Heq as Heq _; subst c; done|].
      simpl. f_equal. apply IH; [done| |].
      + simpl in Hpre. by rewrite Hc in Hpre.
      + simpl in Heq. by injection Heq as Heq. }
  rewrite substring_0_append. f_equal.
  replace (S (String.length td)) with (String.length (String.append td ":")).
  2:{ rewrite length_string_append. simpl. lia. }
  replace (String.append td (String ":" ev))
    with (String.append (String.append td ":") ev).
  2:{ clear. induction td as [|c td IH]; simpl; [done|]. by rewrite IH. }
  rewrite substring_skip_append, length_string_append.
  apply substring_0_all. lia.
Qed.

(** X11.  A message built as <tdname>:<eventname> from a thread name without
    a colon is taken apart into exactly these two names; colons in the event
    name are left to it. *)
Theorem boottrace_parse_message_join k td ev :
  has_char ":" td = false ->
  boottrace_parse_message k (String.append td (String ":" ev)) = (ev, td).
Proof.
  apply parse_message_of_join.
Qed.

Lemma boottrace_parse_message_join_witness :
  boottrace_parse_message (k_example 1) "reboot(8):SIGINT to init(8): now" =
    ("SIGINT to init(8): now"%string, "reboot(8)"%string).
Proof.
  apply (boottrace_parse_message_join (k_example 1) "reboot(8)"
           "SIGINT to init(8): now").
  reflexivity.
Defined.

(** X12.  Whatever the message, the two names that come out of it put it
    together again around its first colon, and the thread name has no colon;
    a message without a colon is the event name whole, with the name of the
    current process as thread name. *)
Theorem boottrace_parse_message_split k message :
  let '(eventname, tdname) := boottrace_parse_message k message in
  if has_char ":" message
  then message = String.append tdname (String ":" eventname) /\
       has_char ":" tdname = false
  else eventname = message /\ tdname = p_comm k.
Proof.
  unfold boottrace_parse_message. pose proof (index_colon message) as H.
  destruct (index 0 ":" message) as [n|].
  - destruct H as (-> & Hpre & Heq). by split.
  - by rewrite H.
Qed.

(** ** Requests to the sysctl nodes *)

Section SysctlRequests.

Variable sysctl_handle_string : string -> nat -> sysctl_req -> Z * string.

(** X13.  A write of <tdname>:<eventname> to boottimes that finds a free slot
    returns 0 and stores, at the cursor of the table that [boottrace] chooses,
    the record of the caller with these two names cut to the sizes of their
    fields; nothing is written to the sbuf. *)
Theorem sysctl_boottrace_records s k req td ev t :
  is_Some (newptr req) ->
  sysctl_handle_string "" message_size req = (0, String.append td (String ":" ev)) ->
  has_char ":" td = false ->
  bt_wf (deref s (boottrace_trace s k)) t ->
  bt_wrap (deref s (boottrace_trace s k)) <> 0 \/
    bt_curr (deref s (boottrace_trace s k)) + 1 < bt_size (deref s (boottrace_trace s k)) ->
  exists s',
    sysctl_boottrace sysctl_handle_string s k req = Ok (0, s', []) /\
    table (deref s' (boottrace_trace s k)) =
      Some (<[Z.to_nat (bt_curr (deref s (boottrace_trace s k))) :=
                dotrace_event k ev td]> t) /\
    name (dotrace_event k ev td) = substring 0 39 ev /\
    tdname (dotrace_event k ev td) = substring 0 23 td.
Proof.
  intros [m Hm] Hhs Htd Hwf Hfree.
  unfold sysctl_boottrace, sysctl_write. rewrite Hm, Hhs. simpl.
  rewrite parse_message_of_join by done.
  unfold boottrace.
  destruct (dotrace_owned s k (boottrace_trace s k) ev (Some td) t Hwf Hfree)
    as (s' & -> & Hb & _).
  simpl. exists s'. split; [done|]. split; [by rewrite Hb|done].
Qed.

(** X14.  On tables in good shape no write to boottimes and no request to
    runtimes, shuttimes or reset faults, and the tables stay in good shape;
    reset answers 0 whatever became of its record, and a read of runtimes,
    shuttimes or reset changes nothing.  A read of boottimes renders two
    tables: it is sure not to fault when the boot and the run table have
    their storage and the counter runs, and then it answers 0 and changes
    nothing. *)
Theorem sysctl_requests_never_fault s k req :
  state_ok s ->
  (is_Some (newptr req) ->
   exists r s' o, sysctl_boottrace sysctl_handle_string s k req = Ok (r, s', o) /\
                  state_ok s') /\
  (newptr req = None ->
   forall t1 t2, bt_wf (bt s) t1 -> bt_wf (rt s) t2 -> tsc_freq k <> 0 ->
   exists o, sysctl_boottrace sysctl_handle_string s k req = Ok (0, s, o)) /\
  (exists r s' o, sysctl_runtrace sysctl_handle_string s k req = Ok (r, s', o) /\
                  state_ok s' /\ (newptr req = None -> r = 0 /\ s' = s)) /\
  (exists r s' o, sysctl_shuttrace sysctl_handle_string s k req = Ok (r, s', o) /\
                  state_ok s' /\ (newptr req = None -> r = 0 /\ s' = s)) /\
  (exists s', sysctl_boottrace_reset s k req = Ok (0, s') /\
              state_ok s' /\ (newptr req = None -> s' = s)).
Proof.
  intros Hok.
  assert (forall trace,
            (forall s0 k0 e td, state_ok s0 ->
               exists r s1, trace s0 k0 e td = Ok (r, s1) /\ state_ok s1) ->
            exists r s', sysctl_write sysctl_handle_string trace s k req = Ok (r, s') /\
                         state_ok s') as Hwrite.
  { intros trace Htrace. unfold sysctl_write.
    destruct (sysctl_handle_string "" message_size req) as [error message].
    destruct (negb (error =? 0)); [by eexists _, _|].
    destruct (boottrace_parse_message k message) as [eventname tdname].
    destruct (Htrace s k eventname (Some tdname) Hok) as (r & s1 & -> & Hok1).
    simpl. by eexists _, _. }
  split; [|split; [|split; [|split]]].
  - intros [m Hm]. unfold sysctl_boottrace. rewrite Hm.
    destruct (Hwrite boottrace) as (r & s' & -> & Hok'); [apply boottrace_ok|].
    simpl. by eexists _, _, _.
  - intros Hread t1 t2 Hwf1 Hwf2 Hfreq. unfold sysctl_boottrace. rewrite Hread.
    rewrite (boottrace_display_visited _ t1 0 _ Hwf1 Hfreq).
    rewrite (boottrace_display_visited _ t2 0 _ Hwf2 Hfreq).
    simpl. by eexists.
  - unfold sysctl_runtrace. destruct (newptr req) as [m|].
    + destruct (Hwrite runtrace) as (r & s' & -> & Hok'); [apply runtrace_ok|].
      simpl. by eexists _, _, _.
    + by eexists _, _, _.
  - unfold sysctl_shuttrace. destruct (newptr req) as [m|].
    + destruct (Hwrite shuttrace) as (r & s' & -> & Hok'); [apply shuttrace_ok|].
      simpl. by eexists _, _, _.
    + by eexists _, _, _.
  - unfold sysctl_boottrace_reset. destruct (newptr req) as [m|].
    + destruct (boottrace_reset_ok s k "sysctl_boottrace_reset" Hok) as (s' & -> & Hok').
      simpl. by eexists.
    + by eexists.
Qed.

End SysctlRequests.

Lemma sysctl_boottrace_records_witness :
  exists s',
    sysctl_boottrace handle_string_example running_state (k_example 4)
                     (mk_req (Some "init:a name"%string)) = Ok (0, s', []) /\
    table (deref s' RT) =
      Some (<[2%nat := dotrace_event (k_example 4) "a name" "init"]>
              (replicate 3 zero_event)).
Proof.
  destruct (sysctl_boottrace_records handle_string_example running_state
              (k_example 4) (mk_req (Some "init:a name"%string)) "init" "a name"
              (replicate 3 zero_event))
    as (s' & H1 & H2 & _).
  - by eexists.
  - reflexivity.
  - reflexivity.
  - repeat split; simpl; lia.
  - left. simpl. lia.
  - by exists s'.
Defined.

Lemma sysctl_requests_never_fault_witness :
  (exists r s' o,
     sysctl_boottrace handle_string_example full_boot_state (k_example 4)
                      (mk_req (Some "init:a name"%string)) = Ok (r, s', o) /\
     state_ok s') /\
  (exists r s' o,
     sysctl_shuttrace handle_string_example full_boot_state (k_example 4)
                      (mk_req (Some "init:a name"%string)) = Ok (r, s', o) /\
     state_ok s').
Proof.
  destruct (sysctl_requests_never_fault handle_string_example full_boot_state
              (k_example 4) (mk_req (Some "init:a name"%string)))
    as (Hw & _ & _ & (r & s' & o & Hs & Hok & _) & _).
  - split; [|split]; right; eexists; repeat split; simpl; lia.
  - split; [apply Hw; by eexists|]. by exists r, s', o.
Defined.

(** ** What the renderer writes *)

Lemma flush_all prev vs : flush 0 prev vs = visit_line <$> vs.
Proof.
  revert prev. induction vs as [|v vs IH]; intros prev; [done|].
  simpl. by rewrite IH.
Qed.

Lemma visited_events freq last l :
  v_event <$> visited freq last l = filter (fun e => tsc e <> 0) l.
Proof.
  revert last. induction l as [|e l IH]; intros last; [done|].
  simpl. rewrite filter_cons. destruct (Z.eqb_spec (tsc e) 0) as [Hz|Hz].
  - rewrite decide_False by (intros H; by apply H). apply IH.
  - rewrite decide_True by done. simpl. by rewrite IH.
Qed.

Lemma length_filter_rotate (P : bt_event -> Prop) `{!forall e, Decision (P e)}
    n (l : list bt_event) :
  length (filter P (rotate n l)) = length (filter P l).
Proof.
  unfold rotate. rewrite filter_app, length_app, Nat.add_comm, <- length_app, <- filter_app.
  by rewrite take_drop.
Qed.

(** X15.  At threshold 0 the render has one row for each slot with a non-zero
    timestamp, no more and no less, in the order of the slots from the cursor
    on, wrapping once; the unused slots leave no trace. *)
Theorem display_all_rows b t freq :
  bt_wf b t -> freq <> 0 ->
  exists total,
    boottrace_display b 0 freq =
      Ok (Header :: (visit_line <$> visited freq 0 (walk_order b t)) ++ [Total total]) /\
    v_event <$> visited freq 0 (walk_order b t) =
      filter (fun e => tsc e <> 0) (walk_order b t) /\
    length (visited freq 0 (walk_order b t)) = length (filter (fun e => tsc e <> 0) t).
Proof.
  intros Hwf Hfreq. eexists.
  rewrite (boottrace_display_visited b t) by done. rewrite flush_all.
  split; [done|]. split; [apply visited_events|].
  rewrite <- (length_fmap v_event), visited_events. apply length_filter_rotate.
Qed.

Lemma display_all_rows_witness :
  exists total,
    boottrace_display five_events 0 1000 =
      Ok (Header :: (visit_line <$> visited 1000 0 (walk_order five_events
            [event_at 10; event_at 15; event_at 65; event_at 67; event_at 167;
             zero_event])) ++ [Total total]) /\
    length (visited 1000 0 (walk_order five_events
            [event_at 10; event_at 15; event_at 65; event_at 67; event_at 167;
             zero_event])) = 5%nat.
Proof.
  destruct (display_all_rows five_events
              [event_at 10; event_at 15; event_at 65; event_at 67; event_at 167;
               zero_event] 1000) as (total & H1 & _ & H2).
  - repeat split; simpl; lia.
  - lia.
  - exists total. split; [exact H1|]. rewrite H2. reflexivity.
Defined.

Lemma flush_sublist dthres prev vs :
  sublist (flush dthres prev vs)
          (match prev with Some p => [visit_line p] | None => [] end ++
           (visit_line <$> vs)).
Proof.
  revert prev. induction vs as [|v vs IH]; intros prev; simpl.
  - apply sublist_nil_l.
  - destruct (negb (dthres =? 0) && (v_delta v >? dthres)).
    + apply sublist_app; [done|]. apply sublist_skip. apply (IH None).
    + destruct (dthres =? 0).
      * apply sublist_inserts_l. apply sublist_skip. apply (IH None).
      * apply sublist_inserts_l. apply (IH (Some v)).
Qed.

(** X16.  A threshold only takes rows away: the rows of a render at any
    threshold are, in the same order and none twice, among the rows of the
    render at threshold 0, and the footer is the same. *)
Theorem display_rows_subsequence b t dthres freq :
  bt_wf b t -> freq <> 0 ->
  exists rows0 rows total,
    boottrace_display b 0 freq = Ok (Header :: rows0 ++ [Total total]) /\
    boottrace_display b dthres freq = Ok (Header :: rows ++ [Total total]) /\
    sublist rows rows0.
Proof.
  intros Hwf Hfreq. eexists _, _, _.
  rewrite !(boottrace_display_visited b t) by done.
  split; [done|]. split; [done|]. rewrite flush_all. apply (flush_sublist _ None).
Qed.

Lemma display_rows_subsequence_witness :
  exists rows0 rows total,
    boottrace_display five_events 0 1000 = Ok (Header :: rows0 ++ [Total total]) /\
    boottrace_display five_events 40 1000 = Ok (Header :: rows ++ [Total total]) /\
    sublist rows rows0.
Proof.
  apply (display_rows_subsequence five_events
           [event_at 10; event_at 15; event_at 65; event_at 67; event_at 167;
            zero_event] 40 1000).
  - repeat split; simpl; lia.
  - lia.
Defined.

Lemma flush_over dthres prev vs v :
  dthres <> 0 -> v ∈ vs -> dthres < v_delta v ->
  visit_line v ∈ flush dthres prev vs.
Proof.
  intros Hd Hin Hv. revert prev. induction vs as [|v' vs IH]; intros prev.
  { by apply elem_of_nil in Hin. }
  simpl. apply elem_of_cons in Hin as [<-|Hin].
  - destruct (Z.eqb_spec dthres 0); [done|].
    destruct (Z.gtb_spec (v_delta v) dthres); [|lia]. simpl.
    apply elem_of_app. right. apply elem_of_cons. by left.
  - destruct (negb (dthres =? 0) && (v_delta v' >? dthres)).
    + apply elem_of_app. right. apply elem_of_cons. right. by apply IH.
    + destruct (dthres =? 0); [|by apply IH].
      apply elem_of_cons. right. by apply IH.
Qed.

(** X17.  With a threshold in force no entry above it is lost: every visited
    entry whose delta exceeds the threshold has its row in the render. *)
Theorem display_keeps_slow_entries b t dthres freq v :
  bt_wf b t -> freq <> 0 -> dthres <> 0 ->
  v ∈ visited freq 0 (walk_order b t) -> dthres < v_delta v ->
  exists rows total,
    boottrace_display b dthres freq = Ok (Header :: rows ++ [Total total]) /\
    visit_line v ∈ rows.
Proof.
  intros Hwf Hfreq Hd Hin Hv. eexists _, _.
  rewrite (boottrace_display_visited b t) by done.
  split; [done|]. by apply flush_over.
Qed.

Lemma display_keeps_slow_entries_witness :
  exists rows total,
    boottrace_display five_events 40 1000 = Ok (Header :: rows ++ [Total total]) /\
    visit_line (mk_visit (event_at 65) 65 50) ∈ rows.
Proof.
  apply (display_keeps_slow_entries five_events
           [event_at 10; event_at 15; event_at 65; event_at 67; event_at 167;
            zero_event] 40 1000 (mk_visit (event_at 65) 65 50)).
  - repeat split; simpl; lia.
  - lia.
  - lia.
  - vm_compute. apply elem_of_cons. right. apply elem_of_cons. right.
    apply elem_of_cons. by left.
  - simpl. lia.
Defined.

(** X18.  A table in which no slot was written renders as the header and a
    footer of 0, at every threshold and whatever the frequency of the
    counter, 0 included. *)
Theorem display_empty_table b t dthres freq :
  bt_wf b t -> Forall (fun e => tsc e = 0) t ->
  boottrace_display b dthres freq = Ok [Header; Total 0].
Proof.
  intros Hwf Hzero. rewrite (boottrace_display_walk b t) by done.
  rewrite display_entries_unused; [done|].
  apply Forall_forall. intros e He. unfold walk_order in He.
  apply elem_of_rotate in He. by apply (proj1 (Forall_forall _ _) Hzero).
Qed.

Lemma display_empty_table_witness :
  boottrace_display (mk_bt 1000 0 0 0 0 (malloc_zero 1000)) 7 0 = Ok [Header; Total 0].
Proof.
  apply (display_empty_table _ (replicate 1000 zero_event)).
  - repeat split; simpl; lia.
  - by apply Forall_replicate.
Defined.

Lemma display_entries_zero_freq dthres l w :
  Exists (fun e => tsc e <> 0) l ->
  display_entries dthres 0 l w = Fault DivByZero.
Proof.
  induction l as [|e l IH]; intros Hex; [by apply Exists_nil in Hex|].
  simpl. unfold display_entry.
  destruct (Z.eqb_spec (tsc e) 0) as [Hz|Hz]; simpl; [|done].
  apply IH. apply Exists_cons in Hex as [H|H]; [done|exact H].
Qed.

(** X19.  With a counter frequency of 0 the render of a table that holds a
    record divides by zero, at the first slot of the walk whose timestamp is
    not 0, before it has written a row; nothing in the renderer guards the
    division. *)
Theorem display_zero_frequency b t dthres :
  bt_wf b t -> Exists (fun e => tsc e <> 0) t ->
  boottrace_display b dthres 0 = Fault DivByZero.
Proof.
  intros Hwf Hex. rewrite (boottrace_display_walk b t) by done.
  rewrite display_entries_zero_freq; [done|].
  apply Exists_exists in Hex as (e & He & Hne). apply Exists_exists.
  exists e. split; [|done]. unfold walk_order. by apply elem_of_rotate.
Qed.

Lemma display_zero_frequency_witness :
  boottrace_display five_events 0 0 = Fault DivByZero.
Proof.
  apply (display_zero_frequency five_events
           [event_at 10; event_at 15; event_at 65; event_at 67; event_at 167;
            zero_event]).
  - repeat split; simpl; lia.
  - apply Exists_cons_hd. simpl. lia.
Defined.

(** ** The numbers in a render *)

Lemma msecs_of_bounds freq e :
  0 < freq -> 0 <= msecs_of freq e <= (2 ^ 64 - 1) / freq.
Proof.
  intros Hf. unfold msecs_of, wrap64.
  pose proof (Z.mod_pos_bound (tsc e * 1000) (2 ^ 64) ltac:(lia)) as Hm.
  split; [apply Z.div_pos; lia|apply Z.div_le_mono; lia].
Qed.

Lemma delta_of_bounds last m : 0 <= last -> 0 <= m -> 0 <= delta_of last m <= m.
Proof.
  intros Hl Hm. unfold delta_of.
  destruct (negb (last =? 0) && (m >? last)) eqn:H; [|lia].
  apply andb_true_iff in H as [_ H]. apply Z.gtb_lt in H. lia.
Qed.

Lemma visited_bounds freq l : forall last,
  0 < freq -> 0 <= last ->
  Forall (fun v => 0 <= v_delta v <= v_msecs v /\
                   v_msecs v <= (2 ^ 64 - 1) / freq)
         (visited freq last l).
Proof.
  induction l as [|e l IH]; intros last Hf Hl; simpl; [by constructor|].
  destruct (tsc e =? 0); [by apply IH|].
  pose proof (msecs_of_bounds freq e Hf) as Hm.
  constructor; simpl.
  - split; [apply delta_of_bounds; lia|lia].
  - apply IH; lia.
Qed.

Lemma flush_Forall (P : line -> Prop) (Q : visit -> Prop) dthres vs : forall prev,
  (forall v, Q v -> P (visit_line v)) ->
  Forall Q vs -> from_option Q True prev ->
  Forall P (flush dthres prev vs).
Proof.
  induction vs as [|v vs IH]; intros prev HQP Hvs Hprev; simpl; [by constructor|].
  apply Forall_cons in Hvs as [Hv Hvs].
  destruct (negb (dthres =? 0) && (v_delta v >? dthres)).
  - apply Forall_app. split.
    + destruct prev as [p|]; [|by constructor].
      constructor; [by apply HQP|by constructor].
    + constructor; [by apply HQP|]. by apply IH.
  - destruct (dthres =? 0).
    + constructor; [by apply HQP|]. by apply IH.
    + by apply IH.
Qed.

Lemma flush_none dthres vs : forall prev,
  dthres <> 0 -> Forall (fun v => v_delta v <= dthres) vs ->
  flush dthres prev vs = [].
Proof.
  induction vs as [|v vs IH]; intros prev Hd Hvs; simpl; [done|].
  apply Forall_cons in Hvs as [Hv Hvs].
  destruct (Z.gtb_spec (v_delta v) dthres); [lia|]. rewrite andb_false_r.
  destruct (Z.eqb_spec dthres 0); [done|]. by apply IH.
Qed.

Lemma total_of_nonneg ms : 0 <= total_of ms.
Proof.
  unfold total_of. destruct (Z.gtb_spec (default 0 (last ms)) (running_first 0 ms)); lia.
Qed.

(** X20.  In a render with a counter that runs, every line between the
    header and the footer is a data row; its delta is never negative and
    never above its elapsed milliseconds, which fit in 2^64 / freq; and the
    footer is never negative. *)
Theorem display_rows_in_range b t dthres freq :
  bt_wf b t -> 0 < freq ->
  exists rows total,
    boottrace_display b dthres freq = Ok (Header :: rows ++ [Total total]) /\
    Forall (row_in_range ((2 ^ 64 - 1) / freq)) rows /\
    0 <= total.
Proof.
  intros Hwf Hf. eexists _, _.
  rewrite (boottrace_display_visited b t) by (done || lia).
  split; [done|]. split; [|apply total_of_nonneg].
  eapply (flush_Forall _ _ dthres _ None); [|apply (visited_bounds freq _ 0); lia|done].
  intros v Hv. exact Hv.
Qed.

Lemma display_rows_in_range_witness :
  exists rows total,
    boottrace_display five_events 40 1000 = Ok (Header :: rows ++ [Total total]) /\
    Forall (row_in_range ((2 ^ 64 - 1) / 1000)) rows /\
    0 <= total.
Proof.
  apply (display_rows_in_range five_events
           [event_at 10; event_at 15; event_at 65; event_at 67; event_at 167;
            zero_event] 40 1000).
  - repeat split; simpl; lia.
  - lia.
Defined.

(** X21.  The console threshold is an int that the renderer takes as a
    uint64_t.  A negative threshold therefore stands for a value of at least
    2^64 - 2^31, which no delta reaches when the counter runs at 2 Hz or
    more: the dump of the shutdown table is the header and the footer, with
    no row at all. *)
Theorem dump_console_negative_threshold s k t :
  shutdown_trace k <> 0 -> in_shutdown s k = true ->
  - 2 ^ 31 <= shutdown_trace_threshold k < 0 ->
  2 <= tsc_freq k ->
  bt_wf (st s) t ->
  exists total, boottrace_dump_console s k = Ok [Header; Total total].
Proof.
  intros Hon Hshut Hthr Hfreq Hwf. unfold boottrace_dump_console.
  destruct (Z.eqb_spec (shutdown_trace k) 0); [done|]. rewrite Hshut.
  rewrite (boottrace_display_visited _ t) by (done || lia).
  eexists. rewrite flush_none; [done| |].
  - unfold wrap64. intros H. apply Z.mod_divide in H; [|lia].
    destruct H as [q Hq]. lia.
  - eapply Forall_impl; [apply (visited_bounds (tsc_freq k) _ 0); lia|].
    intros v [Hd Hm]. simpl in *.
    assert ((2 ^ 64 - 1) / tsc_freq k <= (2 ^ 64 - 1) / 2) as Hdiv
      by (apply Z.div_le_compat_l; lia).
    assert (wrap64 (shutdown_trace_threshold k) = shutdown_trace_threshold k + 2 ^ 64) as ->.
    { unfold wrap64. symmetry. apply (Z.mod_unique_pos _ _ (-1)); lia. }
    change ((2 ^ 64 - 1) / 2) with 9223372036854775807 in Hdiv. lia.
Qed.

Lemma dump_console_negative_threshold_witness :
  exists total,
    boottrace_dump_console
      (mk_kstate null_bt null_bt five_events true true false false)
      (mk_kctx 2 0 7 41 false 0 1 500 0 250 3 4 0 "worker" "sh" 0 None false
               1000 1 (-1)) = Ok [Header; Total total].
Proof.
  apply (dump_console_negative_threshold _ _
           [event_at 10; event_at 15; event_at 65; event_at 67; event_at 167;
            zero_event]).
  - simpl. lia.
  - reflexivity.
  - simpl. lia.
  - simpl. lia.
  - repeat split; simpl; lia.
Defined.




(** ** Callers that race for a table that stops *)

Lemma drop_count_snoc tr l :
  drop_count (tr ++ [l]) = (drop_count tr + if is_drop l then 1 else 0)%nat.
Proof.
  unfold drop_count. induction tr as [|x tr IH].
  - simpl. lia.
  - rewrite <- app_comm_cons, !fmap_cons. simpl. rewrite IH. lia.
Qed.

Lemma alloc_idxs_snoc tr l :
  alloc_idxs (tr ++ [l]) =
  alloc_idxs tr ++ match alloc_idx l with Some i => [i] | None => [] end.
Proof.
  unfold alloc_idxs. rewrite omap_app. simpl. by destruct (alloc_idx l).
Qed.

Lemma remaining_entries (calls : list nat) :
  sum_list (remaining <$> (AtEntry <$> calls)) = sum_list calls.
Proof. induction calls as [|n calls IH]; simpl; [done|]. by rewrite <- IH. Qed.

Lemma NoDup_increasing c0 n :
  NoDup ((fun j : nat => c0 + Z.of_nat j) <$> seq 0 n).
Proof.
  apply NoDup_fmap_2; [|apply NoDup_seq].
  intros i j H. lia.
Qed.

Section ConcurrentStop.

Variable ev : nat -> nat -> bt_event.
Variables (b0 : struct_bt) (t0 : list bt_event) (calls : list nat).
Hypothesis Hwf0 : bt_wf b0 t0.
Hypothesis Hwrap0 : bt_wrap b0 = 0.

Lemma stop_inv_init : stop_inv b0 calls (b0, AtEntry <$> calls) [].
Proof.
  unfold stop_inv. simpl. rewrite Z.add_0_r.
  split; [by exists t0|]. do 4 (split; [done|]).
  split; [unfold drop_count; simpl; lia|].
  split; [rewrite remaining_entries; unfold drop_count; simpl; lia|].
  split; [apply Forall_fmap; by apply Forall_true|].
  intros tid todo idx H. apply list_lookup_fmap_Some in H as (? & ? & ?). done.
Qed.

Lemma stop_inv_step c tr l c' :
  stop_inv b0 calls c tr -> cstep ev c l c' -> stop_inv b0 calls c' (tr ++ [l]).
Proof.
  intros Hinv Hstep. destruct Hstep as [b ts tid p b' p' l Hp Hts].
  pose proof Hinv as ([t Hwf] & Hsz & Hwr & Hcur & Hidx & Hdrop & Hsum & Hok & Hown).
  simpl in *. pose proof Hwf as (Ht & Hl & Hc & Hs32).
  pose proof (proj1 (Forall_lookup _ _) Hok _ _ Hp) as Hpok.
  pose proof (sum_list_fmap_insert remaining ts tid p p' Hp) as Hins.
  assert (forall todo idx, (forall todo' idx', p' <> AtFill todo' idx') ->
            forall tid', <[tid := p']> ts !! tid' = Some (AtFill todo idx) ->
            Alloc tid' idx ∈ tr ++ [l]) as Hown_quiet.
  { intros todo idx Hfill tid' H. apply elem_of_app. left.
    destruct (decide (tid' = tid)) as [->|Hne].
    - rewrite list_lookup_insert_eq in H by (by eapply lookup_lt_Some).
      injection H as ->. by destruct (Hfill todo idx).
    - rewrite list_lookup_insert_ne in H by done. by eapply Hown. }
  unfold stop_inv. simpl. rewrite drop_count_snoc, alloc_idxs_snoc.
  destruct p as [[|n]|n|n idx|n idx]; simpl in Hts.
  - done.
  - rewrite Ht in Hts. injection Hts as <- <- <-. simpl in *.
    rewrite app_nil_r, Nat.add_0_r.
    split; [by exists t|]. do 4 (split; [done|]). split; [done|].
    split; [lia|]. split; [apply Forall_insert; [done|simpl; lia]|].
    intros tid' todo idx. by apply Hown_quiet.
  - unfold next_index in Hts.
    destruct (Z.eqb_spec (bt_size b) 0); [lia|]. simpl in Hts.
    rewrite wrap32_small in Hts by lia.
    rewrite Hwr in Hts. simpl in Hts. rewrite andb_true_r in Hts.
    destruct (Z.eqb_spec ((bt_curr b + 1) mod bt_size b) 0) as [Hz|Hnz].
    + injection Hts as <- <- <-. simpl in *.
      rewrite app_nil_r.
      assert (bt_curr b + 1 = bt_size b) as Hlast.
      { destruct (Z.eq_dec (bt_curr b + 1) (bt_size b)); [done|].
        rewrite Z.mod_small in Hz by lia. lia. }
      split; [exists t; repeat split; simpl; lia || done|].
      do 4 (split; [done|]). split; [intros _; congruence|].
      split; [lia|]. split; [by apply Forall_insert|].
      intros tid' todo idx. by apply Hown_quiet.
    + injection Hts as <- <- <-. simpl in *.
      rewrite app_nil_r, Nat.add_0_r.
      assert (bt_curr b + 1 < bt_size b) as Hin.
      { destruct (Z.eq_dec (bt_curr b + 1) (bt_size b)) as [He|]; [|lia].
        rewrite He, Z.mod_same in Hnz by lia. done. }
      split; [by exists t|]. do 4 (split; [done|]). split; [done|].
      split; [lia|]. split; [apply Forall_insert; [done|simpl; lia]|].
      intros tid' todo idx. by apply Hown_quiet.
  - destruct Hpok as (Hn & Hi0 & Hi1). unfold next_index in Hts.
    destruct (Z.eqb_spec (bt_size b) 0); [lia|]. simpl in Hts.
    rewrite wrap32_small in Hts by lia. unfold atomic_cmpset_int in Hts.
    rewrite Z.mod_small in Hts by lia.
    destruct (Z.eqb_spec (bt_curr b) idx) as [Heq|Hne].
    + injection Hts as <- <- <-. subst idx. simpl in *.
      rewrite length_app. simpl. rewrite Nat.add_0_r.
      replace (length (alloc_idxs tr) + 1)%nat with (S (length (alloc_idxs tr))) by lia.
      split; [exists t; repeat split; simpl; lia || done|].
      split; [done|]. split; [done|]. split; [lia|].
      split; [rewrite seq_S, fmap_app, <- Hidx; simpl; by rewrite Hcur|].
      split; [intros Hd; specialize (Hdrop Hd); lia|].
      split; [lia|].
      split; [apply Forall_insert; [done|simpl; lia]|].
      intros tid' todo idx H. apply elem_of_app.
      destruct (decide (tid' = tid)) as [->|Hne].
      * rewrite list_lookup_insert_eq in H by (by eapply lookup_lt_Some).
        injection H as <- <-. right. by apply list_elem_of_singleton.
      * rewrite list_lookup_insert_ne in H by done. left. by eapply Hown.
    + injection Hts as <- <- <-. simpl in *.
      rewrite app_nil_r, Nat.add_0_r.
      split; [exists t; repeat split; simpl; lia || done|].
      do 4 (split; [done|]). split; [done|].
      split; [lia|]. split; [apply Forall_insert; [done|simpl; lia]|].
      intros tid' todo idx'. by apply Hown_quiet.
  - destruct Hpok as (Hn & Hi0 & Hi1). unfold store_slot in Hts. rewrite Ht in Hts.
    destruct (Z.leb_spec 0 idx); [|lia].
    destruct (Z.ltb_spec idx (Z.of_nat (length t))); [|lia].
    simpl in Hts. injection Hts as <- <- <-. simpl in *.
    rewrite app_nil_r, Nat.add_0_r.
    split; [eexists; repeat split; simpl; rewrite ?length_insert; lia || done|].
    do 4 (split; [done|]). split; [done|].
    split; [lia|]. split; [by apply Forall_insert|].
    intros tid' todo idx'. by apply Hown_quiet.
Qed.

Lemma stop_inv_exec tr c :
  cexec ev (b0, AtEntry <$> calls) tr c -> stop_inv b0 calls c tr.
Proof.
  remember (b0, AtEntry <$> calls) as c0 eqn:Hc0.
  induction 1 as [c|c tr c1 l c2 _ IH Hstep]; subst.
  - apply stop_inv_init.
  - eapply stop_inv_step; [|done]. by apply IH.
Qed.

Lemma stop_inv_progress c tr tid p :
  stop_inv b0 calls c tr ->
  c.2 !! tid = Some p -> ~ finished p ->
  exists l c', cstep ev c l c'.
Proof.
  destruct c as [b ts].
  intros ([t Hwf] & Hsz & Hwr & Hcur & Hidx & Hdrop & Hsum & Hok & Hown) Hp Hfin.
  simpl in *. pose proof Hwf as (Ht & Hl & Hc & Hs32).
  pose proof (proj1 (Forall_lookup _ _) Hok _ _ Hp) as Hpok.
  assert (exists b' p' l,
            thread_step (ev tid (todo_of p)) tid b p = Some (Ok (b', p', l)))
    as (b' & p' & l & Hstep).
  { destruct p as [[|n]|n|n idx|n idx]; simpl.
    - by destruct Hfin.
    - rewrite Ht. by eexists _, _, _.
    - unfold next_index. destruct (Z.eqb_spec (bt_size b) 0); [lia|]. simpl.
      destruct (_ && _); by eexists _, _, _.
    - unfold next_index. destruct (Z.eqb_spec (bt_size b) 0); [lia|]. simpl.
      unfold atomic_cmpset_int. destruct (bt_curr b =? idx); by eexists _, _, _.
    - destruct Hpok as (_ & Hi0 & Hi1). unfold store_slot. rewrite Ht.
      destruct (Z.leb_spec 0 idx); [|lia].
      destruct (Z.ltb_spec idx (Z.of_nat (length t))); [|lia].
      simpl. by eexists _, _, _. }
  eexists _, _. by econstructor.
Qed.

(** X23.  Callers of [dotrace] on one table that stops, their steps
    interleaved in any order: the slots are handed out in increasing order
    from the cursor, one at a time, so none is handed out twice and no two
    callers fill the same slot; the last slot of the table is never handed
    out; a call is dropped only once the cursor has reached the last slot, so
    when all callers are done the slots handed out number the calls made or
    the slots that were free, whichever is less; and a caller with a call
    left can always take its next step. *)
Theorem stop_table_allocations tr b ts :
  cexec ev (b0, AtEntry <$> calls) tr (b, ts) ->
  alloc_idxs tr =
    (fun j : nat => bt_curr b0 + Z.of_nat j) <$> seq 0 (length (alloc_idxs tr)) /\
  NoDup (alloc_idxs tr) /\
  Forall (fun idx => bt_curr b0 <= idx /\ idx + 1 < bt_size b0) (alloc_idxs tr) /\
  (forall tid1 tid2 todo1 todo2 idx,
     ts !! tid1 = Some (AtFill todo1 idx) ->
     ts !! tid2 = Some (AtFill todo2 idx) -> tid1 = tid2) /\
  ((0 < drop_count tr)%nat -> bt_curr b + 1 = bt_size b0) /\
  (length (alloc_idxs tr) + drop_count tr <= sum_list calls)%nat /\
  (Forall finished ts ->
     Z.of_nat (length (alloc_idxs tr)) =
       Z.min (Z.of_nat (sum_list calls)) (bt_size b0 - 1 - bt_curr b0)) /\
  (forall tid p, ts !! tid = Some p -> ~ finished p ->
     exists l c', cstep ev (b, ts) l c').
Proof.
  intros Hexec. pose proof (stop_inv_exec tr (b, ts) Hexec) as Hinv.
  pose proof Hinv as ([t Hwf] & Hsz & Hwr & Hcur & Hidx & Hdrop & Hsum & Hok & Hown).
  simpl in *. pose proof Hwf as (Ht & Hl & Hc & Hs32).
  assert (NoDup (alloc_idxs tr)) as Hdup.
  { rewrite Hidx. apply NoDup_increasing. }
  split; [done|]. split; [done|].
  split.
  { rewrite Hidx. apply Forall_fmap, Forall_forall. intros j Hj.
    apply elem_of_seq in Hj. simpl. lia. }
  split.
  { intros tid1 tid2 todo1 todo2 idx H1 H2.
    pose proof (Hown _ _ _ H1) as Hin1. pose proof (Hown _ _ _ H2) as Hin2.
    assert (Alloc tid1 idx = Alloc tid2 idx) as [= ->]; [|done].
    by eapply (omap_NoDup_inj alloc_idx tr). }
  split; [done|]. split; [lia|].
  split.
  { intros Hfin. rewrite (remaining_finished ts Hfin) in Hsum.
    destruct (drop_count tr) as [|d] eqn:Hd.
    - lia.
    - specialize (Hdrop ltac:(lia)). lia. }
  intros tid p Hp Hfin. by eapply (stop_inv_progress (b, ts)).
Qed.

End ConcurrentStop.

Lemma stop_table_allocations_witness :
  exists tr b ts,
    run_schedule ev_example [0; 1; 0; 1; 0; 1; 0; 1; 1; 1; 0; 0; 1; 1]%nat
                 (mk_bt 3 0 0 0 0 (malloc_zero 3), AtEntry <$> [2; 2]%nat) =
      Some (tr, (b, ts)) /\
    Forall finished ts /\
    alloc_idxs tr = [0; 1] /\
    NoDup (alloc_idxs tr) /\
    drop_count tr = 2%nat /\
    bt_curr b + 1 = 3.
Proof.
  destruct (run_schedule ev_example [0; 1; 0; 1; 0; 1; 0; 1; 1; 1; 0; 0; 1; 1]%nat
              (mk_bt 3 0 0 0 0 (malloc_zero 3), AtEntry <$> [2; 2]%nat))
    as [[tr [b ts]]|] eqn:Hrun; [|vm_compute in Hrun; discriminate Hrun].
  exists tr, b, ts. split; [reflexivity|].
  destruct (stop_table_allocations ev_example (mk_bt 3 0 0 0 0 (malloc_zero 3))
              (replicate 3 zero_event) [2; 2]%nat
              ltac:(repeat split; simpl; lia) ltac:(reflexivity) tr b ts
              (run_schedule_cexec ev_example _ _ _ _ Hrun))
    as (Hseq & Hnd & _ & _ & Hlast & Hle & Hn & _).
  assert (Forall finished ts) as Hfin.
  { vm_compute in Hrun. injection Hrun as _ _ <-.
    repeat first [apply Forall_nil_2 | apply Forall_cons_2; [reflexivity|]]. }
  specialize (Hn Hfin). simpl in Hn.
  assert (length (alloc_idxs tr) = 2%nat) as Hlen by lia.
  assert (drop_count tr = 2%nat) as Hdc.
  { vm_compute in Hrun. injection Hrun as <- _ _. reflexivity. }
  split; [exact Hfin|].
  split; [rewrite Hseq, Hlen; reflexivity|].
  split; [exact Hnd|]. split; [exact Hdc|].
  apply Hlast. rewrite Hdc. lia.
Defined.

(** ** Histories in which the allocations succeed *)

Lemma bt_ptr_eq_or_ne (q p : bt_ptr) : q = p \/ q <> p.
Proof. destruct q, p; (by left) || (by right). Qed.

Lemma dotrace_live s k p eventname tdname :
  live s ->
  exists r s', dotrace s k p eventname tdname = Ok (r, s') /\ live s'.
Proof.
  intros Hlive. destruct (Hlive p) as [t Hwf].
  pose proof Hwf as (Ht & Hl & Hc & Hs32).
  destruct (Z.eq_dec (bt_wrap (deref s p)) 0) as [Hw|Hw];
    [destruct (Z.eq_dec (bt_curr (deref s p) + 1) (bt_size (deref s p))) as [Hf|Hf]|].
  - destruct (dotrace_full s k p eventname tdname t Hwf Hw Hf)
      as (s' & Hdo & Hb' & Hframe & _).
    exists ENOSPC, s'. split; [done|]. intros q.
    destruct (bt_ptr_eq_or_ne q p) as [->|Hne]; [|rewrite Hframe by done; apply Hlive].
    exists t. rewrite Hb'. repeat split; simpl; try done; lia.
  - destruct (dotrace_owned s k p eventname tdname t Hwf ltac:(right; lia))
      as (s' & Hdo & Hb' & Hframe & _).
    exists 0, s'. split; [done|]. intros q.
    destruct (bt_ptr_eq_or_ne q p) as [->|Hne]; [|rewrite Hframe by done; apply Hlive].
    eexists. rewrite Hb'. repeat split; simpl; try done.
    + by rewrite length_insert.
    + apply Z.mod_pos_bound; lia.
    + apply Z.mod_pos_bound; lia.
  - destruct (dotrace_owned s k p eventname tdname t Hwf ltac:(by left))
      as (s' & Hdo & Hb' & Hframe & _).
    exists 0, s'. split; [done|]. intros q.
    destruct (bt_ptr_eq_or_ne q p) as [->|Hne]; [|rewrite Hframe by done; apply Hlive].
    eexists. rewrite Hb'. repeat split; simpl; try done.
    + by rewrite length_insert.
    + apply Z.mod_pos_bound; lia.
    + apply Z.mod_pos_bound; lia.
Qed.

Lemma runtrace_live s k eventname tdname :
  live s ->
  exists r s', runtrace s k eventname tdname = Ok (r, s') /\ live s'.
Proof.
  intros Hlive. unfold runtrace, boottrace.
  destruct (dotrace_live s k (boottrace_trace s k) eventname tdname Hlive)
    as (r & s' & -> & Hlive').
  simpl. eexists _, _. split; [done|]. intros q. specialize (Hlive' q).
  by destruct q.
Qed.

Lemma step_live s o :
  live s -> op_alloc_ok o -> exists s', step s o = Ok s' /\ live s'.
Proof.
  intros Hlive Hop. destruct o as [k e td|k e td|k e td|k actor|k n ok]; simpl.
  - destruct (dotrace_live s k (boottrace_trace s k) e td Hlive) as (r & s' & H & ?).
    unfold boottrace. rewrite H. simpl. by eexists.
  - destruct (runtrace_live s k e td Hlive) as (r & s' & -> & ?). simpl. by eexists.
  - unfold shuttrace.
    destruct (dotrace_live (set_shutdown s true) k ST e td) as (r & s' & -> & ?).
    { intros q. specialize (Hlive q). by destruct q. }
    simpl. by eexists.
  - unfold boottrace_reset.
    destruct (runtrace_live s k (reset_message actor) None Hlive) as (r & s' & -> & ?).
    simpl. by eexists.
  - destruct Hop as [-> Hn]. unfold boottrace_resize.
    destruct (Z.leb_spec n (bt_size (rt s))) as [Hle|Hgt]; simpl; [by eexists|].
    unfold boottrace_reset.
    match goal with |- context [runtrace ?s2 _ _ _] =>
      destruct (runtrace_live s2 k (reset_message "boottrace_resize") None)
        as (r & s' & -> & ?) end.
    + destruct (Hlive RT) as [t (Ht & Hl & Hc & Hs32)]. simpl in *.
      intros q. destruct q; simpl; [apply (Hlive BT)| |apply (Hlive ST)].
      eexists. repeat split; simpl; try lia.
      rewrite length_take, length_app, length_replicate. lia.
    + simpl. by eexists.
Qed.

Lemma run_live ops : forall s,
  live s -> Forall op_alloc_ok ops -> exists s', run s ops = Ok s' /\ live s'.
Proof.
  induction ops as [|o ops IH]; intros s Hlive Hops; simpl; [by eexists|].
  apply Forall_cons in Hops as [Ho Hops].
  destruct (step_live s o Hlive Ho) as (s1 & -> & Hlive1). simpl.
  by apply IH.
Qed.

Lemma boottrace_init_live k tunable :
  exists s0, boottrace_init kstate0 k tunable = Ok s0 /\ live s0.
Proof.
  destruct (boottrace_init_shape kstate0 k tunable) as (n & Hn & Hn32 & ->).
  eexists. split; [done|].
  unfold BT_TABLE_RUNSIZE, BT_TABLE_SHTSIZE in *.
  intros q. destruct q; eexists; repeat split; simpl;
    rewrite ?length_replicate; lia.
Qed.

Section ReadAfterHistory.

Variable sysctl_handle_string : string -> nat -> sysctl_req -> Z * string.

(** X24.  After [boottrace_init] and any history of calls in which the
    allocations succeed, a read of boottimes with a counter that runs never
    faults, returns 0, leaves the state as it is and brings two renders, the
    boot table's and then the run table's, each with its header and its
    footer. *)
Theorem boottimes_read_after_history k0 tunable ops k req :
  Forall op_alloc_ok ops -> newptr req = None -> tsc_freq k <> 0 ->
  exists s0 s rows1 total1 rows2 total2,
    boottrace_init kstate0 k0 tunable = Ok s0 /\
    run s0 ops = Ok s /\
    boottrace_display (bt s) 0 (tsc_freq k) = Ok (Header :: rows1 ++ [Total total1]) /\
    boottrace_display (rt s) 0 (tsc_freq k) = Ok (Header :: rows2 ++ [Total total2]) /\
    sysctl_boottrace sysctl_handle_string s k req =
      Ok (0, s, (Header :: rows1 ++ [Total total1]) ++
                (Header :: rows2 ++ [Total total2])).
Proof.
  intros Hops Hread Hfreq.
  destruct (boottrace_init_live k0 tunable) as (s0 & Hinit & Hlive0).
  destruct (run_live ops s0 Hlive0 Hops) as (s & Hrun & Hlive).
  destruct (Hlive BT) as [t1 Hwf1]. destruct (Hlive RT) as [t2 Hwf2]. simpl in *.
  exists s0, s. eexists _, _, _, _.
  split; [done|]. split; [done|].
  unfold sysctl_boottrace. rewrite Hread.
  rewrite (boottrace_display_visited _ t1 0 _ Hwf1 Hfreq).
  rewrite (boottrace_display_visited _ t2 0 _ Hwf2 Hfreq).
  done.
Qed.

End ReadAfterHistory.

Lemma boottimes_read_after_history_witness :
  exists s0 s rows1 total1 rows2 total2,
    boottrace_init kstate0 (k_example 1) (Some 1) = Ok s0 /\
    run s0 [Boottrace (k_example 2) "a" None; Resize (k_example 3) 2500 true;
            Runtrace (k_example 5) "b" None; Boottrace (k_example 6) "c" None] = Ok s /\
    boottrace_display (bt s) 0 1000 = Ok (Header :: rows1 ++ [Total total1]) /\
    boottrace_display (rt s) 0 1000 = Ok (Header :: rows2 ++ [Total total2]) /\
    sysctl_boottrace handle_string_example s (k_example 7) (mk_req None) =
      Ok (0, s, (Header :: rows1 ++ [Total total1]) ++
                (Header :: rows2 ++ [Total total2])).
Proof.
  apply (boottimes_read_after_history handle_string_example (k_example 1) (Some 1)
           [Boottrace (k_example 2) "a" None; Resize (k_example 3) 2500 true;
            Runtrace (k_example 5) "b" None; Boottrace (k_example 6) "c" None]
           (k_example 7) (mk_req None)).
  - repeat first [apply Forall_nil_2 | apply Forall_cons_2]; simpl;
      first [exact I | split; [reflexivity|lia]].
  - reflexivity.
  - simpl. lia.
Defined.

Lemma realloc_grow t n :
  (length t <= n)%nat ->
  take n (t ++ replicate n zero_event) = t ++ replicate (n - length t) zero_event.
Proof.
  intros Hn. rewrite take_app, take_ge by lia. f_equal.
  rewrite take_replicate. f_equal. lia.
Qed.

(** X25.  A resize of the run table while the system runs keeps what the
    table held: the slots of the old table are the first slots of the new one
    and the slots added are unused; the record of the reset is written at
    the cursor, which moves one slot on and is not brought back to 0; the
    boot and the shutdown table are as they were. *)
Theorem boottrace_resize_keeps_records s k newsize t :
  bt_wf (rt s) t -> bt_wrap (rt s) <> 0 ->
  boottrace_trace s k = RT ->
  bt_size (rt s) < newsize < 2 ^ 32 ->
  exists s',
    boottrace_resize s k newsize true = Ok (0, s') /\
    table (rt s') =
      Some (<[Z.to_nat (bt_curr (rt s)) :=
                dotrace_event k (reset_message "boottrace_resize") (default_tdname k)]>
              (t ++ replicate (Z.to_nat newsize - length t) zero_event)) /\
    bt_size (rt s') = newsize /\
    bt_curr (rt s') = bt_curr (rt s) + 1 /\
    bt s' = bt s /\ st s' = st s /\ bootdone s' = true.
Proof.
  intros Hwf Hwrap Hroute Hn. pose proof Hwf as (Ht & Hl & Hc & Hs32).
  unfold boottrace_resize.
  destruct (Z.leb_spec newsize (bt_size (rt s))); [lia|]. simpl.
  rewrite Ht. rewrite realloc_grow by lia.
  unfold boottrace_reset, runtrace, boottrace.
  set (grown := t ++ replicate (Z.to_nat newsize - length t) zero_event).
  match goal with |- context [dotrace ?s2 k ?p ?e None] =>
    set (s2' := s2);
    assert (boottrace_trace s2' k = RT) as -> by exact Hroute;
    destruct (dotrace_owned s2' k RT e None grown) as (s' & Hdo & Hb' & Hframe & Hbd & _)
  end.
  - repeat split; simpl; try lia. unfold grown.
    rewrite length_app, length_replicate. lia.
  - left. exact Hwrap.
  - rewrite Hdo. simpl. eexists. split; [done|]. simpl.
    change (rt s') with (deref s' RT). rewrite Hb'. simpl.
    split; [done|]. split; [done|].
    split; [rewrite Z.mod_small by lia; done|].
    split; [apply (Hframe BT); done|]. split; [apply (Hframe ST); done|done].
Qed.

Lemma boottrace_resize_keeps_records_witness :
  exists s',
    boottrace_resize running_state (k_example 9) 5 true = Ok (0, s') /\
    table (rt s') =
      Some [zero_event; zero_event;
            dotrace_event (k_example 9) (reset_message "boottrace_resize")
                          (default_tdname (k_example 9));
            zero_event; zero_event] /\
    bt_curr (rt s') = 3.
Proof.
  destruct (boottrace_resize_keeps_records running_state (k_example 9) 5
              (replicate 3 zero_event))
    as (s' & H1 & H2 & _ & H3 & _).
  - repeat split; simpl; lia.
  - simpl. lia.
  - reflexivity.
  - simpl. lia.
  - exists s'. split; [exact H1|]. split; [exact H2|exact H3].
Defined.
